(** * The ninja command-line driver (src/ninja.cc)

  A shallow embedding of the driver of the ninja build tool: the choice of
  the default parallelism, the option loop of [main], the resolution of the
  command-line targets, the build-log set-up, the manifest reload loop and
  the final build.

  The driver is a thin layer over a library (parser, graph, builder, build
  log, cleaner, ...) and over libc.  Everything the driver calls but does
  not define is a field of the record [Env]: the theorems hold for every
  behaviour of these collaborators.  Integers are C [int]s and [long]s,
  represented in [Z] with the conversions written out.

  The subtools [query], [targets], [commands] and [clean], which the
  driver only dispatches to, are embedded in the module [Tools], over the
  record [Graph] of what they read of the graph and the record [ToolEnv]
  of what they call. *)

From Stdlib Require Import ZArith String Ascii DecimalString DecimalZ DecimalPos
  OrderedTypeEx.
From stdpp Require Import gmap strings list sorting.

Local Open Scope string_scope.
Local Open Scope Z_scope.

(** ** C integers *)

Module CInt.

Definition INT_MIN : Z := - 2 ^ 31.
Definition INT_MAX : Z := 2 ^ 31 - 1.
(** [long] of an LP64 platform. *)
Definition LONG_MIN : Z := - 2 ^ 63.
Definition LONG_MAX : Z := 2 ^ 63 - 1.

(** Conversion to [int]: the value modulo 2^32, in the signed range. *)
Definition to_int (z : Z) : Z := (z + 2 ^ 31) mod 2 ^ 32 - 2 ^ 31.

(** [strtol] saturates at the bounds of [long]. *)
Definition clamp_long (z : Z) : Z :=
  if z <? LONG_MIN then LONG_MIN
  else if LONG_MAX <? z then LONG_MAX
  else z.

Definition in_int (z : Z) : Prop := INT_MIN <= z <= INT_MAX.

End CInt.

(** ** libc: [strtol] in base 10 and [atoi] *)

Module LibC.

Definition isspace (c : ascii) : bool :=
  let n := N_of_ascii c in
  (n =? 32)%N || ((9 <=? n)%N && (n <=? 13)%N).

Definition digit_of (c : ascii) : option Z :=
  let n := Z.of_N (N_of_ascii c) in
  if (48 <=? n) && (n <=? 57) then Some (n - 48) else None.

Fixpoint skip_space (s : string) : string :=
  match s with
  | String c s' => if isspace c then skip_space s' else s
  | EmptyString => EmptyString
  end.

(** The digits of the subject sequence: the value accumulated so far and
    the first character that is not a digit. *)
Fixpoint strtol_digits (s : string) (acc : Z) : Z * string :=
  match s with
  | String c s' =>
    match digit_of c with
    | Some d => strtol_digits s' (acc * 10 + d)
    | None => (acc, s)
    end
  | EmptyString => (acc, EmptyString)
  end.

Definition strtol_sign (s : string) : bool * string :=
  match s with
  | String "-" s' => (true, s')
  | String "+" s' => (false, s')
  | _ => (false, s)
  end.

(** [strtol nptr = (value, end)]: [end] is the string [*endptr] points to.
    Without a digit after the blanks and the sign there is no conversion:
    the value is 0 and [end] is [nptr] itself. *)
Definition strtol (nptr : string) : Z * string :=
  let '(neg, s) := strtol_sign (skip_space nptr) in
  match s with
  | String c _ =>
    match digit_of c with
    | Some _ =>
      let '(v, rest) := strtol_digits s 0 in
      (CInt.clamp_long (if neg then - v else v), rest)
    | None => (0, nptr)
    end
  | EmptyString => (0, nptr)
  end.

(** [atoi(s)] is [(int) strtol(s, NULL, 10)]. *)
Definition atoi (s : string) : Z := CInt.to_int (fst (strtol s)).

(** [printf("%d", z)]. *)
Definition string_of_Z (z : Z) : string :=
  NilZero.string_of_int (Z.to_int z).

(** [printf("%10s", s)]: right-justified in a field of [n] characters. *)
Fixpoint spaces (n : nat) : string :=
  match n with
  | O => EmptyString
  | S n' => String " " (spaces n')
  end.

Definition pad_left (n : nat) (s : string) : string :=
  spaces (n - String.length s) +:+ s.

End LibC.

(** ** The default of [-j] *)

(** What the platform reports about its processors; the constructor is the
  branch of the [#if] compiled in. *)
Inductive Platform : Type :=
| Linux (get_nprocs : Z)
| BSD (sysctl_result : Z) (hw_ncpu : Z)
| Win32 (dwNumberOfProcessors : Z)
| OtherPlatform.

Definition detected_processors (p : Platform) : Z :=
  match p with
  | Linux n => n
  | BSD r n => if r <? 0 then 1 else n
  | Win32 n => CInt.to_int n
  | OtherPlatform => 0
  end.

(** The [switch] of [GuessParallelism] on the number of processors. *)
Definition GuessParallelism_of (processors : Z) : Z :=
  match processors with
  | 0 | 1 => 2
  | 2 => 3
  | _ => CInt.to_int (processors + 2)
  end.

Definition GuessParallelism (p : Platform) : Z :=
  GuessParallelism_of (detected_processors p).

(** ** Data model *)

(** [BuildConfig] of build.h, as the driver uses it. *)
Inductive Verbosity : Type := NORMAL | QUIET | VERBOSE.

Record BuildConfig : Type := {
  verbosity : Verbosity;
  dry_run : bool;
  parallelism : Z;
  swallow_failures : Z
}.

(** Modelled from the spec: the constructor of [BuildConfig] (build.h) is
    not part of the sources.  The spec gives [F = 1] by default, stop after
    the first failure: no failure is swallowed.  The other fields are the
    plain defaults; [parallelism] is overwritten by [main] at once. *)
Definition BuildConfig_default : BuildConfig :=
  {| verbosity := NORMAL; dry_run := false; parallelism := 1;
     swallow_failures := 0 |}.

(** Nodes and edges are addressed by handles ([Node*], [Edge*]). *)
Definition NodeP : Type := nat.
Definition EdgeP : Type := nat.

(** Modelled from the spec: [State], [Node] and [Edge] (state.h, graph.h)
    are not part of the sources.  The graph is a mapping from canonical path
    to node, and for every node its path and the ordered edges that consume
    it, for every edge its ordered outputs, plus the top-level variable
    scope.  Only what the driver reads is kept. *)
Record State : Type := {
  paths_ : gmap string NodeP;
  node_path : NodeP -> string;
  out_edges : NodeP -> list EdgeP;
  outputs_ : EdgeP -> list NodeP;
  bindings_ : gmap string string
}.

(** [new State()]. *)
Definition State_new : State :=
  {| paths_ := ∅; node_path := fun _ => EmptyString;
     out_edges := fun _ => []; outputs_ := fun _ => [];
     bindings_ := ∅ |}.

(** Modelled from the spec: [lookup(path) -> Node?]. *)
Definition LookupNode (st : State) (path : string) : option NodeP :=
  paths_ st !! path.

(** Modelled from the spec: a variable of the top-level scope; an unbound
    variable reads as the empty string. *)
Definition LookupVariable (st : State) (var : string) : string :=
  default EmptyString (bindings_ st !! var).

Record Globals : Type := {
  ninja_command : string;
  config : BuildConfig;
  state : State
}.

Definition ResetState (g : Globals) : Globals :=
  {| ninja_command := ninja_command g; config := config g;
     state := State_new |}.

Definition set_config (g : Globals) (c : BuildConfig) : Globals :=
  {| ninja_command := ninja_command g; config := c; state := state g |}.

Definition set_state (g : Globals) (st : State) : Globals :=
  {| ninja_command := ninja_command g; config := config g; state := st |}.

(** ** Strings *)

Definition nl : string := String (ascii_of_nat 10) EmptyString.

Definition is_empty (s : string) : bool :=
  match s with EmptyString => true | String _ _ => false end.

(** [path[path.size() - 1]] and [path.resize(path.size() - 1)]. *)
Fixpoint last_char (s : string) : option ascii :=
  match s with
  | EmptyString => None
  | String c EmptyString => Some c
  | String _ s' => last_char s'
  end.

Fixpoint drop_last (s : string) : string :=
  match s with
  | EmptyString => EmptyString
  | String _ EmptyString => EmptyString
  | String c s' => String c (drop_last s')
  end.

Definition char (c : ascii) : Z := Z.of_N (N_of_ascii c).

(** ** What the driver does to the outside *)

Inductive Event : Type :=
| Stdout (text : string)
| Stderr (text : string)
| EvError (msg : string)
| EvFatal (msg : string)
| EvChdir (dir : string)
| EvParserLoad (file : string)
| EvMakeDir (dir : string)
| EvBuildLogLoad (path : string)
| EvBuildLogOpenForWrite (path : string)
| EvRebuildManifest (file : string)
| EvResetState
| EvAddTarget (node : NodeP)
| EvBuild
| EvEdgeDump (edge : EdgeP)
| EvTool (name : string) (args : list string)
| EvMetricsReport.

(** A computation of the driver runs in a world [W] (file system, build
    log, marks of the graph), emits events and either yields a value or ends
    the process with an exit status: [return] from [main], or [exit] inside
    [Fatal]. *)
Inductive Res (A : Type) : Type :=
| Val (a : A)
| Exit (code : Z).
Arguments Val {A} a.
Arguments Exit {A} code.

Definition M (W A : Type) : Type := W -> Res A * W * list Event.

Definition ret {W A} (a : A) : M W A := fun w => (Val a, w, []).

Definition bind {W A B} (m : M W A) (k : A -> M W B) : M W B :=
  fun w =>
    match m w with
    | (Val a, w1, t1) =>
        let '(r, w2, t2) := k a w1 in (r, w2, (t1 ++ t2)%list)
    | (Exit c, w1, t1) => (Exit c, w1, t1)
    end.

Definition emit {W} (e : Event) : M W unit := fun w => (Val tt, w, [e]).

Definition exit {W A} (code : Z) : M W A := fun w => (Exit code, w, []).

(** A call into a collaborator, recorded as [e]. *)
Definition call {W A} (e : Event) (f : W -> A * W) : M W A :=
  fun w => let '(a, w') := f w in (Val a, w', [e]).

(** A call, recorded as [e], into a collaborator that returns a value or
    ends the process itself, as a function that runs into [Fatal] does. *)
Definition call_or_exit {W A} (e : Event) (f : W -> Res A * W) : M W A :=
  fun w => let '(r, w') := f w in (r, w', [e]).

#[global] Instance M_ret {W} : MRet (M W) := fun A => @ret W A.
#[global] Instance M_bind {W} : MBind (M W) := fun A B k m => @bind W A B m k.

Definition printf {W} (text : string) : M W unit := emit (Stdout text).

(** [Error] of util: a diagnostic on standard error. *)
Definition Error {W} (msg : string) : M W unit := emit (EvError msg).

(** Modelled from the spec: [Fatal] of util.cc is not part of the sources;
    a fatal error is a diagnostic and the exit status 1. *)
Definition Fatal {W A} (msg : string) : M W A :=
  emit (EvFatal msg);; exit 1.

(** ** getopt *)

(** One return of [getopt_long]: the option character, [optarg], and what
    [argv + optind] is after the call. *)
Record getopt_ret : Type := {
  ret_opt : Z;
  ret_optarg : string;
  ret_rest : list string
}.

(** The successive returns of [getopt_long] over one [argv], and
    [argv + optind] once it has returned -1.  The line that [getopt_long]
    itself writes on standard error for an option it does not know is not
    part of the traces. *)
Record getopt_run : Type := {
  calls : list getopt_ret;
  end_rest : list string
}.

(** ** The collaborators *)

(** What the driver calls and does not define.  A [string* err] argument is
    passed in and returned.  [B] is the type of a [Builder]. *)
Record Env (W B : Type) : Type := {
  (* the platform and libc *)
  platform : Platform;
  getopt_long : list string -> getopt_run;
  chdir : string -> W -> Z * W;
  errno : W -> Z;
  strerror : Z -> string;
  (* util *)
  CanonicalizePath : string -> string -> bool * string * string;
  MakeDir : string -> W -> Z * W;
  SpellcheckStringV : string -> list string -> option string;
  (* state *)
  DefaultNodes : State -> string -> list NodeP * string;
  SpellcheckNode : State -> string -> option NodeP;
  (* parsers *)
  ManifestParser_Load :
    State -> string -> string -> W -> (bool * State * string) * W;
  (* build_log *)
  BuildLog_Load : string -> string -> W -> (bool * string) * W;
  BuildLog_OpenForWrite : string -> string -> W -> (bool * string) * W;
  (* build *)
  Builder_new : State -> BuildConfig -> B;
  Builder_AddTarget : B -> NodeP -> string -> W -> (bool * B * string) * W;
  Builder_AlreadyUpToDate : B -> bool;
  Builder_Build : B -> string -> W -> (bool * string) * W;
  (* the subtools, as the driver sees them: a subtool returns a status
     ([Val]) or ends the process itself with a status ([Exit]), as the ones
     that collect targets do when they run into [Fatal]; what a subtool
     prints and reports is not part of the trace of the driver, and a
     subtool that never returns leaves no run of [main] to speak of *)
  has_browse : bool;
  ToolBrowse : Globals -> list string -> W -> Res Z * W;
  ToolClean : Globals -> list string -> W -> Res Z * W;
  ToolCommands : Globals -> list string -> W -> Res Z * W;
  ToolGraph : Globals -> list string -> W -> Res Z * W;
  ToolQuery : Globals -> list string -> W -> Res Z * W;
  ToolRules : Globals -> list string -> W -> Res Z * W;
  ToolTargets : Globals -> list string -> W -> Res Z * W;
  (* metrics *)
  Metrics_Report : W -> unit * W;
  hash_load_line : State -> string
}.

Arguments platform {W B} _.
Arguments getopt_long {W B} _ _.
Arguments chdir {W B} _ _ _.
Arguments errno {W B} _ _.
Arguments strerror {W B} _ _.
Arguments CanonicalizePath {W B} _ _ _.
Arguments MakeDir {W B} _ _ _.
Arguments SpellcheckStringV {W B} _ _ _.
Arguments DefaultNodes {W B} _ _ _.
Arguments SpellcheckNode {W B} _ _ _.
Arguments ManifestParser_Load {W B} _ _ _ _ _.
Arguments BuildLog_Load {W B} _ _ _ _.
Arguments BuildLog_OpenForWrite {W B} _ _ _ _.
Arguments Builder_new {W B} _ _ _.
Arguments Builder_AddTarget {W B} _ _ _ _ _.
Arguments Builder_AlreadyUpToDate {W B} _ _.
Arguments Builder_Build {W B} _ _ _ _.
Arguments has_browse {W B} _.
Arguments ToolBrowse {W B} _ _ _ _.
Arguments ToolClean {W B} _ _ _ _.
Arguments ToolCommands {W B} _ _ _ _.
Arguments ToolGraph {W B} _ _ _ _.
Arguments ToolQuery {W B} _ _ _ _.
Arguments ToolRules {W B} _ _ _ _.
Arguments ToolTargets {W B} _ _ _ _.
Arguments Metrics_Report {W B} _ _.
Arguments hash_load_line {W B} _ _.

Definition EEXIST : Z := 17.

(** The variables of [main] that outlive the option loop, with the global
    [g_metrics] (set or null). *)
Record Locals : Type := {
  globals : Globals;
  input_file : string;
  working_dir : option string;
  tool : string;
  g_metrics : bool;
  args : list string;
  rebuilt_manifest : bool
}.

Definition with_globals (l : Locals) (g : Globals) : Locals :=
  {| globals := g; input_file := input_file l;
     working_dir := working_dir l; tool := tool l;
     g_metrics := g_metrics l; args := args l;
     rebuilt_manifest := rebuilt_manifest l |}.

Definition with_config (l : Locals) (c : BuildConfig) : Locals :=
  with_globals l (set_config (globals l) c).

Definition with_input_file (l : Locals) (f : string) : Locals :=
  {| globals := globals l; input_file := f;
     working_dir := working_dir l; tool := tool l;
     g_metrics := g_metrics l; args := args l;
     rebuilt_manifest := rebuilt_manifest l |}.

Definition with_working_dir (l : Locals) (d : string) : Locals :=
  {| globals := globals l; input_file := input_file l;
     working_dir := Some d; tool := tool l;
     g_metrics := g_metrics l; args := args l;
     rebuilt_manifest := rebuilt_manifest l |}.

Definition with_tool (l : Locals) (t : string) : Locals :=
  {| globals := globals l; input_file := input_file l;
     working_dir := working_dir l; tool := t;
     g_metrics := g_metrics l; args := args l;
     rebuilt_manifest := rebuilt_manifest l |}.

Definition with_g_metrics (l : Locals) (m : bool) : Locals :=
  {| globals := globals l; input_file := input_file l;
     working_dir := working_dir l; tool := tool l;
     g_metrics := m; args := args l;
     rebuilt_manifest := rebuilt_manifest l |}.

Definition with_args (l : Locals) (a : list string) : Locals :=
  {| globals := globals l; input_file := input_file l;
     working_dir := working_dir l; tool := tool l;
     g_metrics := g_metrics l; args := a;
     rebuilt_manifest := rebuilt_manifest l |}.

Definition with_rebuilt_manifest (l : Locals) (b : bool) : Locals :=
  {| globals := globals l; input_file := input_file l;
     working_dir := working_dir l; tool := tool l;
     g_metrics := g_metrics l; args := args l;
     rebuilt_manifest := b |}.

Definition with_parallelism (c : BuildConfig) (n : Z) : BuildConfig :=
  {| verbosity := verbosity c; dry_run := dry_run c; parallelism := n;
     swallow_failures := swallow_failures c |}.

Definition with_swallow_failures (c : BuildConfig) (n : Z) : BuildConfig :=
  {| verbosity := verbosity c; dry_run := dry_run c;
     parallelism := parallelism c; swallow_failures := n |}.

Definition with_dry_run (c : BuildConfig) (b : bool) : BuildConfig :=
  {| verbosity := verbosity c; dry_run := b;
     parallelism := parallelism c;
     swallow_failures := swallow_failures c |}.

Definition with_verbosity (c : BuildConfig) (v : Verbosity) : BuildConfig :=
  {| verbosity := v; dry_run := dry_run c;
     parallelism := parallelism c;
     swallow_failures := swallow_failures c |}.

(** ** The driver *)

(** The text of [Usage]: the only parameter is the default of [-j]. *)
Definition usage_text (c : BuildConfig) : string :=
  "usage: ninja [options] [targets...]" +:+ nl +:+
  nl +:+
  "if targets are unspecified, builds the 'default' target (see manual)." +:+ nl +:+
  "targets are paths, with additional special syntax:" +:+ nl +:+
  "  'target^' means 'the first output that uses target'." +:+ nl +:+
  "  example: 'ninja foo.cc^' will likely build foo.o." +:+ nl +:+
  nl +:+
  "options:" +:+ nl +:+
  "  -C DIR   change to DIR before doing anything else" +:+ nl +:+
  "  -f FILE  specify input build file [default=build.ninja]" +:+ nl +:+
  nl +:+
  "  -j N     run N jobs in parallel [default=" +:+
     LibC.string_of_Z (parallelism c) +:+ "]" +:+ nl +:+
  "  -k N     keep going until N jobs fail [default=1]" +:+ nl +:+
  "  -n       dry run (don't run commands but pretend they succeeded)" +:+ nl +:+
  "  -v       show all command lines while building" +:+ nl +:+
  nl +:+
  "  -d MODE  enable debugging (use -d list to list modes)" +:+ nl +:+
  "  -t TOOL  run a subtool" +:+ nl +:+
  "    use '-t list' to list subtools." +:+ nl +:+
  "    terminates toplevel options; further flags are passed to the tool." +:+ nl.

Definition Usage {W} (c : BuildConfig) : M W unit :=
  emit (Stderr (usage_text c)).

Definition gets {W A} (f : W -> A) : M W A := fun w => (Val (f w), w, []).

Section Driver.

Context {W B : Type} (env : Env W B).

(** Rebuild the build manifest, if necessary: [(true, _)] if the manifest
    was rebuilt. *)
Definition RebuildManifest (st : State) (c : BuildConfig)
    (input_file : string) (err : string) : M W (bool * string) :=
  emit (EvRebuildManifest input_file);;
  let '(ok, path, err) := CanonicalizePath env input_file err in
  if negb ok then ret (false, err) else
  match LookupNode st path with
  | None => ret (false, err)
  | Some node =>
      let manifest_builder := Builder_new env st c in
      '(ok, manifest_builder, err) ←
        call (EvAddTarget node) (Builder_AddTarget env manifest_builder node err);
      if negb ok then ret (false, err) else
      if Builder_AlreadyUpToDate env manifest_builder then ret (false, err)
      else call EvBuild (Builder_Build env manifest_builder err)
  end.

(** The special syntax [foo.cc^]: the path without the caret, and whether
    the caret was there. *)
Definition split_caret (path : string) : string * bool :=
  if negb (is_empty path) && bool_decide (last_char path = Some "^"%char)
  then (drop_last path, true)
  else (path, false).

(** The loop of [CollectTargetsFromArgs] over [argv]: the result, the
    targets collected so far and [err]. *)
Fixpoint CollectTargets_loop (st : State) (argv : list string)
    (targets : list NodeP) (err : string)
    : M W (bool * list NodeP * string) :=
  match argv with
  | [] => ret (true, targets, err)
  | arg :: argv' =>
      let '(ok, path, err) := CanonicalizePath env arg err in
      if negb ok then ret (false, targets, err) else
      let '(path, first_dependent) := split_caret path in
      match LookupNode st path with
      | Some node =>
          if first_dependent then
            match out_edges st node with
            | [] => ret (false, targets, "'" +:+ path +:+ "' has no out edge")
            | edge :: _ =>
                match outputs_ st edge with
                | [] => emit (EvEdgeDump edge);; Fatal "edge has no outputs"
                | out :: _ =>
                    CollectTargets_loop st argv' (targets ++ [out])%list err
                end
            end
          else CollectTargets_loop st argv' (targets ++ [node])%list err
      | None =>
          let err := "unknown target '" +:+ path +:+ "'" in
          let err :=
            match SpellcheckNode env st path with
            | Some suggestion =>
                err +:+ ", did you mean '" +:+ node_path st suggestion +:+ "'?"
            | None => err
            end in
          ret (false, targets, err)
      end
  end.

Definition CollectTargetsFromArgs (st : State) (argv : list string)
    (targets : list NodeP) (err : string)
    : M W (bool * list NodeP * string) :=
  match argv with
  | [] =>
      let '(nodes, err) := DefaultNodes env st err in
      if negb (is_empty err) then ret (false, nodes, err)
      else ret (true, nodes, err)
  | _ => CollectTargets_loop st argv targets err
  end.

(** The table of [RunTool]: name, description, function. *)
Definition ToolFunc : Type := Globals -> list string -> W -> Res Z * W.

Definition tools : list (string * string * ToolFunc) :=
  ((if has_browse env
    then [("browse", "browse dependency graph in a web browser", ToolBrowse env)]
    else []) ++
   [ ("clean", "clean built files", ToolClean env);
     ("commands", "list all commands required to rebuild given targets",
      ToolCommands env);
     ("graph", "output graphviz dot file for targets", ToolGraph env);
     ("query", "show inputs/outputs for a path", ToolQuery env);
     ("rules", "list all rules", ToolRules env);
     ("targets", "list targets by their rule or depth in the DAG",
      ToolTargets env) ])%list.

Definition tool_name (t : string * string * ToolFunc) : string := t.1.1.
Definition tool_desc (t : string * string * ToolFunc) : string := t.1.2.
Definition tool_func (t : string * string * ToolFunc) : ToolFunc := t.2.

Fixpoint print_tools (ts : list (string * string * ToolFunc)) : M W unit :=
  match ts with
  | [] => ret tt
  | t :: ts' =>
      printf (LibC.pad_left 10 (tool_name t) +:+ "  " +:+ tool_desc t +:+ nl);;
      print_tools ts'
  end.

Definition RunTool (tool : string) (g : Globals) (argv : list string)
    : M W Z :=
  if String.eqb tool "list" then
    printf ("ninja subtools:" +:+ nl);;
    print_tools tools;;
    ret 0
  else
    match List.find (fun t => String.eqb tool (tool_name t)) tools with
    | Some t => call_or_exit (EvTool (tool_name t) argv) (tool_func t g argv)
    | None =>
        match SpellcheckStringV env tool (map tool_name tools) with
        | Some suggestion =>
            Error ("unknown tool '" +:+ tool +:+ "', did you mean '" +:+
                   suggestion +:+ "'?");;
            ret 1
        | None => Error ("unknown tool '" +:+ tool +:+ "'");; ret 1
        end
    end.

(** Enable a debugging mode: [false] if ninja should exit instead of
    continuing. *)
Definition DebugEnable (name : string) (l : Locals) : M W (bool * Locals) :=
  if String.eqb name "list" then
    printf ("debugging modes:" +:+ nl +:+
            "  stats  print operation counts/timing info" +:+ nl);;
    ret (false, l)
  else if String.eqb name "stats" then ret (true, with_g_metrics l true)
  else
    printf ("ninja: unknown debug setting '" +:+ name +:+ "'" +:+ nl);;
    ret (false, l).

(** The loop of [RunBuild] that adds the targets: the builder and [err] to
    go on with, or the status [RunBuild] returns at once. *)
Fixpoint RunBuild_add_targets (builder : B) (targets : list NodeP)
    (err : string) : M W (B * string + Z) :=
  match targets with
  | [] => ret (inl (builder, err))
  | t :: targets' =>
      '(ok, builder, err) ←
        call (EvAddTarget t) (Builder_AddTarget env builder t err);
      if negb ok then
        if negb (is_empty err) then Error err;; ret (inr 1)
        else RunBuild_add_targets builder targets' err
      else RunBuild_add_targets builder targets' err
  end.

Definition RunBuild (g : Globals) (argv : list string) : M W Z :=
  '(ok, targets, err) ←
    CollectTargetsFromArgs (state g) argv [] EmptyString;
  if negb ok then Error err;; ret 1 else
  let builder := Builder_new env (state g) (config g) in
  added ← RunBuild_add_targets builder targets err;
  match added with
  | inr status => ret status
  | inl (builder, err) =>
      if Builder_AlreadyUpToDate env builder then
        printf ("ninja: no work to do." +:+ nl);; ret 0
      else
        '(ok, err) ← call EvBuild (Builder_Build env builder err);
        if negb ok then
          printf ("ninja: build stopped: " +:+ err +:+ "." +:+ nl);; ret 1
        else ret 0
  end.

(** The body of the [switch] of [main] for one return of [getopt_long]. *)
Definition main_switch (r : getopt_ret) (l : Locals) : M W Locals :=
  let opt := ret_opt r in
  let optarg := ret_optarg r in
  let c := config (globals l) in
  if opt =? char "d" then
    '(ok, l) ← DebugEnable optarg l;
    if negb ok then exit 1 else ret l
  else if opt =? char "f" then ret (with_input_file l optarg)
  else if opt =? char "j" then
    ret (with_config l (with_parallelism c (LibC.atoi optarg)))
  else if opt =? char "k" then
    let '(v, end_) := LibC.strtol optarg in
    let value := CInt.to_int v in
    (if negb (is_empty end_)
     then Fatal "-k parameter not numeric; did you mean -k0?"
     else ret tt);;
    ret (with_config l (with_swallow_failures c (CInt.to_int (value - 1))))
  else if opt =? char "n" then ret (with_config l (with_dry_run c true))
  else if opt =? char "v" then ret (with_config l (with_verbosity c VERBOSE))
  else if opt =? char "t" then ret (with_tool l optarg)
  else if opt =? char "C" then ret (with_working_dir l optarg)
  else Usage c;; exit 1.

(** The option loop: it ends when a tool has been named, when
    [getopt_long] returns -1, or when the [switch] leaves [main].  [args]
    follows [argv + optind]. *)
Fixpoint main_options (cs : list getopt_ret) (end_rest : list string)
    (l : Locals) : M W Locals :=
  if negb (is_empty (tool l)) then ret l else
  match cs with
  | [] => ret (with_args l end_rest)
  | r :: cs' =>
      if ret_opt r =? -1 then ret (with_args l (ret_rest r)) else
      l ← main_switch r (with_args l (ret_rest r));
      main_options cs' end_rest l
  end.

Definition main_init (argv : list string) : Locals :=
  {| globals :=
       {| ninja_command := hd EmptyString argv;
          config := with_parallelism BuildConfig_default
                      (GuessParallelism (platform env));
          state := State_new |};
     input_file := "build.ninja";
     working_dir := None;
     tool := EmptyString;
     g_metrics := false;
     args := tl argv;
     rebuilt_manifest := false |}.

Definition main_chdir (l : Locals) : M W unit :=
  match working_dir l with
  | Some dir =>
      printf ("ninja: Entering directory `" +:+ dir +:+ "'" +:+ nl);;
      r ← call (EvChdir dir) (chdir env dir);
      if r <? 0 then
        e ← gets (errno env);
        Fatal ("chdir to '" +:+ dir +:+ "' - " +:+ strerror env e)
      else ret tt
  | None => ret tt
  end.

Definition kLogPath : string := ".ninja_log".

(** Where the build log lives, given the [builddir] of the manifest. *)
Definition log_path_of (build_dir : string) : string :=
  if negb (is_empty build_dir) then build_dir +:+ "/" +:+ kLogPath
  else kLogPath.

(** The end of [main]: the build proper and the metrics. *)
Definition main_build (l : Locals) : M W Locals :=
  result ← RunBuild (globals l) (args l);
  (if g_metrics l then
     call EvMetricsReport (Metrics_Report env);;
     printf nl;;
     printf (hash_load_line env (state (globals l)))
   else ret tt);;
  exit result.

(** [main] once the directory of the build log is there: the log is loaded
    and opened, the manifest is rebuilt if need be, and the build runs. *)
Definition main_with_log (l : Locals) (log_path : string) (err : string)
    : M W Locals :=
  let st := state (globals l) in
  '(ok, err) ← call (EvBuildLogLoad log_path) (BuildLog_Load env log_path err);
  if negb ok then
    Error ("loading build log " +:+ log_path +:+ ": " +:+ err);; exit 1
  else
  '(ok, err) ←
    call (EvBuildLogOpenForWrite log_path)
         (BuildLog_OpenForWrite env log_path err);
  if negb ok then Error ("opening build log: " +:+ err);; exit 1 else
  if negb (rebuilt_manifest l) then
    '(rebuilt, err) ←
      RebuildManifest st (config (globals l)) (input_file l) err;
    if (rebuilt : bool) then
      emit EvResetState;;
      ret (with_globals (with_rebuilt_manifest l true)
             (ResetState (globals l)))
    else if negb (is_empty err) then
      Error ("rebuilding '" +:+ input_file l +:+ "': " +:+ err);; exit 1
    else main_build l
  else main_build l.

(** [main] once the parser has run: [ok] and [err] are its answer and the
    graph is in [globals l]. *)
Definition main_loaded (l : Locals) (ok : bool) (err : string)
    : M W Locals :=
  let st := state (globals l) in
  if negb ok then Error err;; exit 1 else
  if negb (is_empty (tool l)) then
    status ← RunTool (tool l) (globals l) (args l);
    exit status
  else
  let build_dir := LookupVariable st "builddir" in
  (if negb (is_empty build_dir) then
     r ← call (EvMakeDir build_dir) (MakeDir env build_dir);
     e ← gets (errno env);
     if (r <? 0) && negb (e =? EEXIST) then
       Error ("creating build directory " +:+ build_dir +:+ ": " +:+
              strerror env e);;
       exit 1
     else ret tt
   else ret tt);;
  main_with_log l (log_path_of build_dir) err.

(** [main] from the label [reload] on.  It leaves [main] with a status, or
    yields the variables with which control goes back to [reload]. *)
Definition main_pass (l : Locals) : M W Locals :=
  '(ok, st, err) ←
    call (EvParserLoad (input_file l))
         (ManifestParser_Load env (state (globals l)) (input_file l)
            EmptyString);
  main_loaded (with_globals l (set_state (globals l) st)) ok err.

(** The jumps back to [reload]: each unit of fuel is one pass.  Running out
    of fuel is the only way to get a value instead of an exit status. *)
Fixpoint main_reload (fuel : nat) (l : Locals) : M W unit :=
  match fuel with
  | O => ret tt
  | S fuel' => l' ← main_pass l; main_reload fuel' l'
  end.

Definition main (fuel : nat) (argv : list string) : M W unit :=
  let run := getopt_long env argv in
  l ← main_options (calls run) (end_rest run) (main_init argv);
  main_chdir l;;
  main_reload fuel l.

(** The exit status of a run, if it has one. *)
Definition exit_status {A} (r : Res A * W * list Event) : option Z :=
  match r.1.1 with
  | Exit code => Some code
  | Val _ => None
  end.

Definition events {A} (r : Res A * W * list Event) : list Event := r.2.

End Driver.

(** ** A model of [getopt_long] for concrete command lines *)

(** GNU [getopt_long] in its default mode (arguments are permuted so that
    the non-options come last), for the option string and the one long
    option of [main]. *)
Module Getopt.

Definition optstring : string := "d:f:hj:k:nt:vC:".

(** [Some takes_argument] for an option character of [s]. *)
Fixpoint optstring_find (c : ascii) (s : string) : option bool :=
  match s with
  | String x rest =>
      if Ascii.eqb x ":" then optstring_find c rest
      else if Ascii.eqb c x then
        Some (match rest with String ":" _ => true | _ => false end)
      else optstring_find c rest
  | EmptyString => None
  end.

Definition mk_ret (opt : Z) (optarg : string) (rest : list string)
    : getopt_ret :=
  {| ret_opt := opt; ret_optarg := optarg; ret_rest := rest |}.

(** The returns for the characters [cl] of the element [elem] of [argv],
    followed by the elements [next]; and what is left to scan. *)
Fixpoint short_opts (cl : string) (elem : string) (next : list string)
    : list getopt_ret * list string :=
  match cl with
  | EmptyString => ([], next)
  | String c cl' =>
      let more := negb (is_empty cl') in
      let rest := if more then elem :: next else next in
      match optstring_find c optstring with
      | Some true =>
          if more then ([mk_ret (char c) cl' next], next)
          else
            match next with
            | a :: next' => ([mk_ret (char c) a next'], next')
            | [] => ([mk_ret (char "?") EmptyString []], [])
            end
      | Some false =>
          let '(rs, todo) := short_opts cl' elem next in
          (mk_ret (char c) EmptyString rest :: rs, todo)
      | None =>
          let '(rs, todo) := short_opts cl' elem next in
          (mk_ret (char "?") EmptyString rest :: rs, todo)
      end
  end.

Fixpoint before_eq (s : string) : string * bool :=
  match s with
  | EmptyString => (EmptyString, false)
  | String "=" _ => (EmptyString, true)
  | String c s' => let '(n, e) := before_eq s' in (String c n, e)
  end.

(** [--help] and its abbreviations; a value ([--help=x]) is an error. *)
Definition long_opt (name : string) : Z :=
  let '(n, has_value) := before_eq name in
  if String.prefix n "help" && negb has_value then char "h" else char "?".

Fixpoint scan (fuel : nat) (skipped todo : list string)
    : list getopt_ret * list string :=
  match fuel with
  | O => ([], (skipped ++ todo)%list)
  | S fuel' =>
      match todo with
      | [] => ([], skipped)
      | elem :: next =>
          match elem with
          | String "-" (String "-" EmptyString) => ([], (skipped ++ next)%list)
          | String "-" (String "-" name) =>
              let '(rs, rest) := scan fuel' skipped next in
              (mk_ret (long_opt name) EmptyString next :: rs, rest)
          | String "-" (String c cl) =>
              let '(rs1, todo') := short_opts (String c cl) elem next in
              let '(rs, rest) := scan fuel' skipped todo' in
              ((rs1 ++ rs)%list, rest)
          | _ => scan fuel' (skipped ++ [elem])%list next
          end
      end
  end.

Definition getopt_long (argv : list string) : getopt_run :=
  let '(rs, rest) := scan (length argv) [] (tl argv) in
  {| calls := rs; end_rest := rest |}.

End Getopt.

(** ** A small world for concrete runs *)

Module Sample.

(** A graph with the source [foo.cc] (node 0), consumed by an edge (0) that
    produces [foo.o] (node 1), and the node [lonely] (node 2) that nothing
    consumes. *)
Definition graph (builddir : string) : State :=
  {| paths_ := {[ "foo.cc" := 0%nat; "foo.o" := 1%nat; "lonely" := 2%nat ]};
     node_path := fun n =>
       match n with
       | O => "foo.cc"
       | S O => "foo.o"
       | _ => "lonely"
       end;
     out_edges := fun n => match n with O => [0%nat] | _ => [] end;
     outputs_ := fun e => match e with O => [1%nat] | _ => [] end;
     bindings_ := {[ "builddir" := builddir ]} |}.

(** The world is the list of the directories that exist.  The parser
    always yields [graph builddir], with the manifest itself as the path of
    the node [manifest] if there is one.  A builder is [true] once the
    manifest node has been added to it: [manifest_dirty] then makes every
    build of the manifest do work and succeed; [up_to_date] and [build_ok]
    are the answers of the other builders.  The subtools do nothing:
    [browse] returns 1, [commands] ends the process with the status 1 and
    the others return 0. *)
Definition env (builddir : string) (manifest : option NodeP)
    (manifest_dirty up_to_date build_ok : bool)
    : Env (list string) bool :=
  {| platform := Linux 4;
     getopt_long := Getopt.getopt_long;
     chdir := fun _ w => (0, w);
     errno := fun _ => EEXIST;
     strerror := fun _ => "File exists";
     CanonicalizePath := fun p e => (true, p, e);
     MakeDir := fun d w =>
       if bool_decide (d ∈ w) then (-1, w) else (0, d :: w);
     SpellcheckStringV := fun _ _ => None;
     DefaultNodes := fun _ e => ([1%nat], e);
     SpellcheckNode := fun _ p =>
       if String.eqb p "foo.c" then Some 0%nat else None;
     ManifestParser_Load := fun _ f e w =>
       (true,
        {| paths_ := match manifest with
                     | Some n => <[ f := n ]> (paths_ (graph builddir))
                     | None => paths_ (graph builddir)
                     end;
           node_path := node_path (graph builddir);
           out_edges := out_edges (graph builddir);
           outputs_ := outputs_ (graph builddir);
           bindings_ := bindings_ (graph builddir) |}, e, w);
     BuildLog_Load := fun _ e w => (true, e, w);
     BuildLog_OpenForWrite := fun _ e w => (true, e, w);
     Builder_new := fun _ _ => false;
     Builder_AddTarget := fun b n e w =>
       (true, bool_decide (manifest = Some n), e, w);
     Builder_AlreadyUpToDate := fun b =>
       if b then negb manifest_dirty else up_to_date;
     Builder_Build := fun b e w =>
       if b then (true, e, w)
       else if build_ok then (true, e, w)
       else (false, "subcommand failed", w);
     has_browse := true;
     ToolBrowse := fun _ _ w => (Val 1, w);
     ToolClean := fun _ _ w => (Val 0, w);
     ToolCommands := fun _ _ w => (Exit 1, w);
     ToolGraph := fun _ _ w => (Val 0, w);
     ToolQuery := fun _ _ w => (Val 0, w);
     ToolRules := fun _ _ w => (Val 0, w);
     ToolTargets := fun _ _ w => (Val 0, w);
     Metrics_Report := fun w => (tt, w);
     hash_load_line := fun _ => "path->node hash load" |}.

(** The variables of [main] at [reload], with the graph loaded. *)
Definition locals (builddir tool : string) (args : list string) : Locals :=
  {| globals :=
       {| ninja_command := "ninja"; config := BuildConfig_default;
          state := graph builddir |};
     input_file := "build.ninja";
     working_dir := None;
     tool := tool;
     g_metrics := false;
     args := args;
     rebuilt_manifest := false |}.

(** The world in which no directory exists yet. *)
Definition no_dirs : list string := [].

(** Nothing to rebuild, everything up to date. *)
Definition quiet_env : Env (list string) bool :=
  env EmptyString None false true true.

(** The build of the targets fails. *)
Definition failing_env : Env (list string) bool :=
  env "out" None false false false.

End Sample.

(** ** The vocabulary of the properties *)

(** How many failures a build tolerates before it stops. *)
Inductive Tolerance : Type :=
| NoLimit
| Tolerate (failures : Z).

(** [-k N] in the words of the spec: the build stops after [N] failures,
    that is it tolerates [N - 1] of them, and any [N < 1] is no limit at
    all rather than a tolerance of -1. *)
Definition spec_tolerance (N : Z) : Tolerance :=
  if N <? 1 then NoLimit else Tolerate (N - 1).

(** What a configuration holds: the number of failures to swallow. *)
Definition config_tolerance (c : BuildConfig) : Tolerance :=
  Tolerate (swallow_failures c).

(** The test of [-k] on its argument: [*end != 0] after [strtol]. *)
Definition not_numeric (optarg : string) : Prop :=
  (LibC.strtol optarg).2 <> EmptyString.

(** Whether [strtol] finds a number at the start of [s]: a digit after the
    blanks and the sign. *)
Definition starts_with_number (s : string) : bool :=
  match (LibC.strtol_sign (LibC.skip_space s)).2 with
  | String c _ =>
      match LibC.digit_of c with Some _ => true | None => false end
  | EmptyString => false
  end.

(** The default of [-j] for [n] detected processors. *)
Definition default_jobs (n : Z) : Z :=
  if n <=? 1 then 2 else if n =? 2 then 3 else n + 2.

(** The number of events of a trace that satisfy [p]. *)
Definition count (p : Event -> bool) (t : list Event) : nat :=
  length (filter (fun e => p e = true) t).

Definition is_reset (e : Event) : bool :=
  match e with EvResetState => true | _ => false end.

Definition is_rebuild (e : Event) : bool :=
  match e with EvRebuildManifest _ => true | _ => false end.

Definition is_parser_load (e : Event) : bool :=
  match e with EvParserLoad _ => true | _ => false end.

(** The events of the build log and of the manifest rebuild. *)
Definition is_log_or_rebuild (e : Event) : bool :=
  match e with
  | EvBuildLogLoad _ | EvBuildLogOpenForWrite _ | EvRebuildManifest _
  | EvResetState => true
  | _ => false
  end.

(** The steps of [main] proper, as opposed to what the builds, the tools
    and the printing emit. *)
Definition is_driver_step (e : Event) : bool :=
  match e with
  | EvChdir _ | EvParserLoad _ | EvMakeDir _ | EvBuildLogLoad _
  | EvBuildLogOpenForWrite _ | EvRebuildManifest _ | EvResetState => true
  | _ => false
  end.

(** Anything but printing. *)
Definition is_work (e : Event) : bool :=
  match e with
  | Stdout _ | Stderr _ | EvError _ | EvFatal _ => false
  | _ => true
  end.

(** The build log touched at another path than [log_path]. *)
Definition is_log_elsewhere (log_path : string) (e : Event) : bool :=
  match e with
  | EvBuildLogLoad p | EvBuildLogOpenForWrite p =>
      negb (String.eqb p log_path)
  | _ => false
  end.

Definition is_make_dir (e : Event) : bool :=
  match e with EvMakeDir _ => true | _ => false end.

(** [m] emits at most [n] events that satisfy [p], and a value it yields
    satisfies [Q]. *)
Definition bounded {W A} (p : Event -> bool) (n : nat) (m : M W A)
    (Q : A -> Prop) : Prop :=
  forall w,
    (count p (m w).2 <= n)%nat /\
    match (m w).1.1 with
    | Val a => Q a
    | Exit _ => True
    end.

(** The value of a decimal numeral read from the left, as [strtol] does. *)
Fixpoint uint_value (u : Decimal.uint) (acc : Z) : Z :=
  match u with
  | Decimal.Nil => acc
  | Decimal.D0 u' => uint_value u' (acc * 10 + 0)
  | Decimal.D1 u' => uint_value u' (acc * 10 + 1)
  | Decimal.D2 u' => uint_value u' (acc * 10 + 2)
  | Decimal.D3 u' => uint_value u' (acc * 10 + 3)
  | Decimal.D4 u' => uint_value u' (acc * 10 + 4)
  | Decimal.D5 u' => uint_value u' (acc * 10 + 5)
  | Decimal.D6 u' => uint_value u' (acc * 10 + 6)
  | Decimal.D7 u' => uint_value u' (acc * 10 + 7)
  | Decimal.D8 u' => uint_value u' (acc * 10 + 8)
  | Decimal.D9 u' => uint_value u' (acc * 10 + 9)
  end.

(** ** More vocabulary: outcomes and orderings *)

(** The status with which the process ends when [main] returns what a
    subtool has returned, or when the subtool has ended the process
    itself. *)
Definition status_of (r : Res Z) : Z :=
  match r with
  | Val status => status
  | Exit code => code
  end.

Definition is_tool (e : Event) : bool :=
  match e with EvTool _ _ => true | _ => false end.

(** The diagnostics of [Error] and [Fatal]. *)
Definition is_report (e : Event) : bool :=
  match e with EvError _ | EvFatal _ => true | _ => false end.

(** The calls that change the plan or run commands. *)
Definition is_build_step (e : Event) : bool :=
  match e with EvAddTarget _ | EvBuild => true | _ => false end.

Definition is_Build (e : Event) : bool :=
  match e with EvBuild => true | _ => false end.

Definition is_metrics (e : Event) : bool :=
  match e with EvMetricsReport => true | _ => false end.

(** The manifest loaded or rebuilt under another name than [file]. *)
Definition is_other_manifest (file : string) (e : Event) : bool :=
  match e with
  | EvParserLoad f | EvRebuildManifest f => negb (String.eqb f file)
  | _ => false
  end.

Definition status_0_or_1 (c : Z) : Prop := c = 0 \/ c = 1.

(** If [m] emits no event that satisfies [p], a value it yields satisfies
    [Q] and a status it exits with satisfies [E]. *)
Definition unless {W A} (p : Event -> bool) (m : M W A) (Q : A -> Prop)
    (E : Z -> Prop) : Prop :=
  forall w,
    count p (m w).2 = 0%nat ->
    match (m w).1.1 with
    | Val a => Q a
    | Exit c => E c
    end.

(** Once [m] has emitted a diagnostic it exits with status 1, or yields a
    value that satisfies [Q]. *)
Definition reports {W A} (m : M W A) (Q : A -> Prop) : Prop :=
  forall w,
    match (m w).1.1 with
    | Val a => count is_report (m w).2 = 0%nat \/ Q a
    | Exit c => (0 < count is_report (m w).2)%nat -> c = 1
    end.

(** After a diagnostic, [m] leaves with status 1 or yields a value that
    satisfies [Q], whatever it emits. *)
Definition tainted {W A} (m : M W A) (Q : A -> Prop) : Prop :=
  forall w,
    match (m w).1.1 with
    | Val a => Q a
    | Exit c => c = 1
    end.

(** No target is added and nothing is built in [t] before the build log
    has been opened for write; [opened] tells whether it is open at the
    start of [t]. *)
Fixpoint opened_before_build (opened : bool) (t : list Event) : bool :=
  match t with
  | [] => true
  | e :: t' =>
      match e with
      | EvBuildLogOpenForWrite _ => opened_before_build true t'
      | EvAddTarget _ | EvBuild => opened && opened_before_build opened t'
      | _ => opened_before_build opened t'
      end
  end.

(** The node a command-line argument stands for: the node of its canonical
    path, or for [path^] the first output of the first edge that consumes
    the node of [path]. *)
Definition resolves {W B} (env : Env W B) (st : State) (arg : string)
    (node : NodeP) : Prop :=
  exists err path err',
    CanonicalizePath env arg err = (true, path, err') /\
    exists n,
      LookupNode st (split_caret path).1 = Some n /\
      if (split_caret path).2 then
        exists edge, head (out_edges st n) = Some edge /\
                     head (outputs_ st edge) = Some node
      else node = n.

(** ** The subtools *)

(** Modelled from the spec: what the subtools read of [Node], [Edge] and
    [State] beyond what the driver reads (graph.h and state.h are not part
    of the sources): the edge that produces a node, if any; the ordered
    inputs of an edge, its rule name, whether the input at an index is
    implicit or order-only, whether the edge is phony and its evaluated
    command; and the edges of the state in the order of the manifest. *)
Record Graph : Type := {
  in_edge : NodeP -> option EdgeP;
  inputs_ : EdgeP -> list NodeP;
  rule_name : EdgeP -> string;
  is_implicit : EdgeP -> nat -> bool;
  is_order_only : EdgeP -> nat -> bool;
  is_phony : EdgeP -> bool;
  EvaluateCommand : EdgeP -> string;
  edges_ : list EdgeP
}.

(** What the subtools call and ninja.cc does not define. *)
Record ToolEnv (W : Type) : Type := {
  RootNodes : State -> string -> list NodeP * string;
  SpellcheckString : string -> list string -> option string;
  getopt : list string -> string -> getopt_run;
  Cleaner_CleanAll : State -> BuildConfig -> bool -> W -> Z * W;
  Cleaner_CleanTargets : State -> BuildConfig -> list string -> W -> Z * W;
  Cleaner_CleanRules : State -> BuildConfig -> list string -> W -> Z * W
}.

Arguments RootNodes {W} _ _ _.
Arguments SpellcheckString {W} _ _ _.
Arguments getopt {W} _ _ _.
Arguments Cleaner_CleanAll {W} _ _ _ _ _.
Arguments Cleaner_CleanTargets {W} _ _ _ _ _.
Arguments Cleaner_CleanRules {W} _ _ _ _ _.

(** A [std::set<string>] as the list of its elements in increasing order;
    strings compare character by character. *)
Fixpoint set_insert (x : string) (s : list string) : list string :=
  match s with
  | [] => [x]
  | y :: s' =>
      match String.compare x y with
      | Lt => x :: y :: s'
      | Eq => y :: s'
      | Gt => y :: set_insert x s'
      end
  end.

Module Tools.

Section Tools.

Context {W B : Type} (env : Env W B) (tenv : ToolEnv W) (gr : Graph).

(** The lines of [ToolQuery] for the inputs of [edge], from the input at
    [index] on. *)
Fixpoint query_inputs (st : State) (edge : EdgeP) (inputs : list NodeP)
    (index : nat) : M W unit :=
  match inputs with
  | [] => ret tt
  | input :: inputs' =>
      let label :=
        if is_implicit gr edge index then "| "
        else if is_order_only gr edge index then "|| "
        else EmptyString in
      printf ("    " +:+ label +:+ node_path st input +:+ nl);;
      query_inputs st edge inputs' (S index)
  end.

Fixpoint query_outputs (st : State) (outs : list NodeP) : M W unit :=
  match outs with
  | [] => ret tt
  | out :: outs' =>
      printf ("    " +:+ node_path st out +:+ nl);;
      query_outputs st outs'
  end.

Fixpoint query_out_edges (st : State) (edges : list EdgeP) : M W unit :=
  match edges with
  | [] => ret tt
  | edge :: edges' =>
      query_outputs st (outputs_ st edge);;
      query_out_edges st edges'
  end.

Fixpoint ToolQuery_loop (st : State) (argv : list string) : M W Z :=
  match argv with
  | [] => ret 0
  | arg :: argv' =>
      match LookupNode st arg with
      | None =>
          match SpellcheckNode env st arg with
          | Some suggestion =>
              printf (arg +:+ " unknown, did you mean " +:+
                      node_path st suggestion +:+ "?" +:+ nl)
          | None => printf (arg +:+ " unknown" +:+ nl)
          end;;
          ret 1
      | Some node =>
          printf (arg +:+ ":" +:+ nl);;
          match in_edge gr node with
          | Some edge =>
              printf ("  input: " +:+ rule_name gr edge +:+ nl);;
              query_inputs st edge (inputs_ gr edge) 0
          | None => ret tt
          end;;
          printf ("  outputs:" +:+ nl);;
          query_out_edges st (out_edges st node);;
          ToolQuery_loop st argv'
      end
  end.

Definition ToolQuery (g : Globals) (argv : list string) : M W Z :=
  match argv with
  | [] => Error "expected a target to query";; ret 1
  | _ => ToolQuery_loop (state g) argv
  end.

(** [for (int i = 0; i < indent; ++i) printf("  ")]. *)
Fixpoint print_indent (indent : nat) : M W unit :=
  match indent with
  | O => ret tt
  | S indent' => printf "  ";; print_indent indent'
  end.

(** [ToolTargetsList(nodes, depth, indent)]: the recursion follows the
    graph, one unit of fuel per level; [None] when the fuel runs out. *)
Fixpoint ToolTargetsList_nodes (fuel : nat) (st : State)
    (nodes : list NodeP) (depth : Z) (indent : nat) : M W (option Z) :=
  match fuel with
  | O => ret None
  | S fuel' =>
      (fix loop (ns : list NodeP) : M W (option Z) :=
         match ns with
         | [] => ret (Some 0)
         | n :: ns' =>
             print_indent indent;;
             r ← match in_edge gr n with
                 | Some edge =>
                     printf (node_path st n +:+ ": " +:+ rule_name gr edge +:+
                             nl);;
                     if (1 <? depth) || (depth <=? 0) then
                       ToolTargetsList_nodes fuel' st (inputs_ gr edge)
                         (CInt.to_int (depth - 1)) (S indent)
                     else ret (Some 0)
                 | None => printf (node_path st n +:+ nl);; ret (Some 0)
                 end;
             match r with
             | None => ret None
             | Some _ => loop ns'
             end
         end) nodes
  end.

(** The line of [ToolTargetsList] for a node. *)
Definition target_line (st : State) (n : NodeP) : string :=
  match in_edge gr n with
  | Some edge => node_path st n +:+ ": " +:+ rule_name gr edge +:+ nl
  | None => node_path st n +:+ nl
  end.

(** [ToolTargetsSourceList]: the inputs of the edges that no edge
    produces. *)
Fixpoint source_inputs (st : State) (inputs : list NodeP) : M W unit :=
  match inputs with
  | [] => ret tt
  | input :: inputs' =>
      match in_edge gr input with
      | None => printf (node_path st input +:+ nl)
      | Some _ => ret tt
      end;;
      source_inputs st inputs'
  end.

Fixpoint ToolTargetsSourceList_edges (st : State) (edges : list EdgeP)
    : M W Z :=
  match edges with
  | [] => ret 0
  | e :: edges' =>
      source_inputs st (inputs_ gr e);;
      ToolTargetsSourceList_edges st edges'
  end.

Definition ToolTargetsSourceList (st : State) : M W Z :=
  ToolTargetsSourceList_edges st (edges_ gr).

(** [ToolTargetsList(state, rule_name)]: the paths of the outputs of the
    edges of the rule, gathered in a set and printed in its order. *)
Definition rule_outputs (st : State) (rule : string) : list string :=
  fold_left
    (fun rules e =>
       if String.eqb (rule_name gr e) rule
       then fold_left (fun rules out => set_insert (node_path st out) rules)
              (outputs_ st e) rules
       else rules)
    (edges_ gr) [].

Fixpoint print_lines (lines : list string) : M W unit :=
  match lines with
  | [] => ret tt
  | line :: lines' => printf (line +:+ nl);; print_lines lines'
  end.

Definition ToolTargetsList_rule (st : State) (rule : string) : M W Z :=
  print_lines (rule_outputs st rule);; ret 0.

(** [ToolTargetsList(state)]: every output with the rule of its edge. *)
Fixpoint all_outputs (st : State) (e : EdgeP) (outs : list NodeP)
    : M W unit :=
  match outs with
  | [] => ret tt
  | out :: outs' =>
      printf (node_path st out +:+ ": " +:+ rule_name gr e +:+ nl);;
      all_outputs st e outs'
  end.

Fixpoint ToolTargetsList_all_edges (st : State) (edges : list EdgeP)
    : M W Z :=
  match edges with
  | [] => ret 0
  | e :: edges' =>
      all_outputs st e (outputs_ st e);;
      ToolTargetsList_all_edges st edges'
  end.

Definition ToolTargetsList_all (st : State) : M W Z :=
  ToolTargetsList_all_edges st (edges_ gr).

(** What [ToolTargets] makes of its arguments: the listing asked for. *)
Inductive TargetsMode : Type :=
| SourceList
| RuleList (rule : string)
| AllList
| DepthList (depth : Z)
| UnknownMode (mode : string).

Definition targets_mode (argv : list string) : TargetsMode :=
  match argv with
  | [] => DepthList 1
  | mode :: rest =>
      if String.eqb mode "rule" then
        match rest with
        | [] => SourceList
        | rule :: _ => if is_empty rule then SourceList else RuleList rule
        end
      else if String.eqb mode "depth" then
        match rest with
        | [] => DepthList 1
        | d :: _ => DepthList (LibC.atoi d)
        end
      else if String.eqb mode "all" then AllList
      else UnknownMode mode
  end.

Definition ToolTargets (fuel : nat) (g : Globals) (argv : list string)
    : M W (option Z) :=
  match targets_mode argv with
  | SourceList => r ← ToolTargetsSourceList (state g); ret (Some r)
  | RuleList rule => r ← ToolTargetsList_rule (state g) rule; ret (Some r)
  | AllList => r ← ToolTargetsList_all (state g); ret (Some r)
  | UnknownMode mode =>
      match SpellcheckString tenv mode ["rule"; "depth"; "all"] with
      | Some suggestion =>
          Error ("unknown target tool mode '" +:+ mode +:+
                 "', did you mean '" +:+ suggestion +:+ "'?")
      | None => Error ("unknown target tool mode '" +:+ mode +:+ "'")
      end;;
      ret (Some 1)
  | DepthList depth =>
      let '(root_nodes, err) := RootNodes tenv (state g) EmptyString in
      if is_empty err then
        ToolTargetsList_nodes fuel (state g) root_nodes depth 0
      else Error err;; ret (Some 1)
  end.

(** The loop of [PrintCommands] over the inputs of an edge; [rec] is
    [PrintCommands] itself. *)
Fixpoint PrintCommands_inputs
    (rec : option EdgeP -> gset EdgeP -> M W (option (gset EdgeP)))
    (inputs : list NodeP) (seen : gset EdgeP)
    : M W (option (gset EdgeP)) :=
  match inputs with
  | [] => ret (Some seen)
  | input :: inputs' =>
      r ← rec (in_edge gr input) seen;
      match r with
      | None => ret None
      | Some seen' => PrintCommands_inputs rec inputs' seen'
      end
  end.

(** [PrintCommands]: the set of the edges seen so far is passed in and
    returned; one unit of fuel per level of the recursion, [None] when the
    fuel runs out. *)
Fixpoint PrintCommands (fuel : nat) (edge : option EdgeP)
    (seen : gset EdgeP) : M W (option (gset EdgeP)) :=
  match fuel with
  | O => ret None
  | S fuel' =>
      match edge with
      | None => ret (Some seen)
      | Some e =>
          if bool_decide (e ∈ seen) then ret (Some seen) else
          r ← PrintCommands_inputs (PrintCommands fuel') (inputs_ gr e)
                ({[ e ]} ∪ seen);
          match r with
          | None => ret None
          | Some seen' =>
              (if negb (is_phony gr e)
               then printf (EvaluateCommand gr e +:+ nl)
               else ret tt);;
              ret (Some seen')
          end
      end
  end.

(** A set of edges that holds, with each of its edges, the edges that
    produce the inputs of it. *)
Definition closed_under_inputs (E : gset EdgeP) : Prop :=
  forall e input e',
    e ∈ E -> input ∈ inputs_ gr e -> in_edge gr input = Some e' -> e' ∈ E.

Fixpoint ToolCommands_loop (fuel : nat) (nodes : list NodeP)
    (seen : gset EdgeP) : M W (option Z) :=
  match nodes with
  | [] => ret (Some 0)
  | n :: nodes' =>
      r ← PrintCommands fuel (in_edge gr n) seen;
      match r with
      | None => ret None
      | Some seen' => ToolCommands_loop fuel nodes' seen'
      end
  end.

Definition ToolCommands (fuel : nat) (g : Globals) (argv : list string)
    : M W (option Z) :=
  '(ok, nodes, err) ←
    CollectTargetsFromArgs env (state g) argv [] EmptyString;
  if negb ok then Error err;; ret (Some 1)
  else ToolCommands_loop fuel nodes ∅.

(** The options of [ToolClean]: [generator], [clean_rules], or the usage
    and the status 1. *)
Fixpoint ToolClean_options (cs : list getopt_ret)
    (generator clean_rules : bool) : option (bool * bool) :=
  match cs with
  | [] => Some (generator, clean_rules)
  | r :: cs' =>
      if ret_opt r =? -1 then Some (generator, clean_rules)
      else if ret_opt r =? char "g" then
        ToolClean_options cs' true clean_rules
      else if ret_opt r =? char "r" then
        ToolClean_options cs' generator true
      else None
  end.

Definition clean_usage : string :=
  "usage: ninja -t clean [options] [targets]" +:+ nl +:+
  nl +:+
  "options:" +:+ nl +:+
  "  -g     also clean files marked as ninja generator output" +:+ nl +:+
  "  -r     interpret targets as a list of rules to clean instead" +:+ nl.

(** The rest of the command line when the option loop of [ToolClean]
    ends: [argv + optind]. *)
Fixpoint ToolClean_rest (cs : list getopt_ret) (end_rest : list string)
    : list string :=
  match cs with
  | [] => end_rest
  | r :: cs' =>
      if ret_opt r =? -1 then ret_rest r else ToolClean_rest cs' end_rest
  end.

Definition ToolClean (name : string) (g : Globals) (argv : list string)
    : M W Z :=
  let run := getopt tenv (name :: argv) "hgr" in
  match ToolClean_options (calls run) false false with
  | None => printf clean_usage;; ret 1
  | Some (generator, clean_rules) =>
      let argv := ToolClean_rest (calls run) (end_rest run) in
      if clean_rules && bool_decide (argv = []) then
        Error "expected a rule to clean";; ret 1
      else
        match argv with
        | _ :: _ =>
            if clean_rules then
              call (EvTool "Cleaner::CleanRules" argv)
                   (Cleaner_CleanRules tenv (state g) (config g) argv)
            else
              call (EvTool "Cleaner::CleanTargets" argv)
                   (Cleaner_CleanTargets tenv (state g) (config g) argv)
        | [] =>
            call (EvTool "Cleaner::CleanAll" [])
                 (Cleaner_CleanAll tenv (state g) (config g) generator)
        end
  end.

End Tools.

End Tools.

(** ** A small world for the subtools *)

Module ToolSample.

(** What [Sample.graph] leaves out: the edge 0, of the rule [cc], makes
    [foo.o] from [foo.cc]. *)
Definition graph : Graph :=
  {| in_edge := fun n => match n with 1%nat => Some 0%nat | _ => None end;
     inputs_ := fun e => match e with O => [0%nat] | _ => [] end;
     rule_name := fun _ => "cc";
     is_implicit := fun _ _ => false;
     is_order_only := fun _ _ => false;
     is_phony := fun _ => false;
     EvaluateCommand := fun _ => "cc -c foo.cc -o foo.o";
     edges_ := [0%nat] |}.

(** A graph with a loop: the edge 0 makes the node 0 from the node 1, and
    the edge 1 makes the node 1 from the node 0. *)
Definition cycle : Graph :=
  {| in_edge := fun n =>
       match n with O => Some 0%nat | 1%nat => Some 1%nat | _ => None end;
     inputs_ := fun e =>
       match e with O => [1%nat] | 1%nat => [0%nat] | _ => [] end;
     rule_name := fun _ => "cp";
     is_implicit := fun _ _ => false;
     is_order_only := fun _ _ => false;
     is_phony := fun e => match e with O => false | _ => true end;
     EvaluateCommand := fun _ => "cp in out";
     edges_ := [0%nat; 1%nat] |}.

(** A stand-in for [getopt] in this small world: the one-letter options
    that come before the first other argument, as [getopt] returns them,
    and what follows them.  Unlike [getopt] it does not reorder the
    arguments and reads neither several options in one argument nor
    [--]. *)
Fixpoint flags (optstring : string) (todo : list string)
    : list getopt_ret * list string :=
  match todo with
  | String "-" (String c EmptyString) :: next =>
      let '(rs, rest) := flags optstring next in
      (Getopt.mk_ret
         (match Getopt.optstring_find c optstring with
          | Some _ => char c
          | None => char "?"
          end) EmptyString next :: rs, rest)
  | _ => ([], todo)
  end.

Definition tenv : ToolEnv (list string) :=
  {| RootNodes := fun _ err => ([1%nat], err);
     SpellcheckString := fun _ _ => None;
     getopt := fun argv optstring =>
       let '(rs, rest) := flags optstring (tl argv) in
       {| calls := rs; end_rest := rest |};
     Cleaner_CleanAll := fun _ _ _ w => (0, w);
     Cleaner_CleanTargets := fun _ _ _ w => (0, w);
     Cleaner_CleanRules := fun _ _ _ w => (0, w) |}.

(** [Sample.quiet_env] in a place where no directory can be entered. *)
Definition locked_env : Env (list string) bool :=
  let e := Sample.quiet_env in
  {| platform := platform e;
     getopt_long := getopt_long e;
     chdir := fun _ w => (-1, w);
     errno := fun _ => 2;
     strerror := fun _ => "No such file or directory";
     CanonicalizePath := CanonicalizePath e;
     MakeDir := MakeDir e;
     SpellcheckStringV := SpellcheckStringV e;
     DefaultNodes := DefaultNodes e;
     SpellcheckNode := SpellcheckNode e;
     ManifestParser_Load := ManifestParser_Load e;
     BuildLog_Load := BuildLog_Load e;
     BuildLog_OpenForWrite := BuildLog_OpenForWrite e;
     Builder_new := Builder_new e;
     Builder_AddTarget := Builder_AddTarget e;
     Builder_AlreadyUpToDate := Builder_AlreadyUpToDate e;
     Builder_Build := Builder_Build e;
     has_browse := has_browse e;
     ToolBrowse := ToolBrowse e;
     ToolClean := ToolClean e;
     ToolCommands := ToolCommands e;
     ToolGraph := ToolGraph e;
     ToolQuery := ToolQuery e;
     ToolRules := ToolRules e;
     ToolTargets := ToolTargets e;
     Metrics_Report := Metrics_Report e;
     hash_load_line := hash_load_line e |}.

End ToolSample.


(** * Properties *)

(** ** C integers and [strtol] *)

Lemma to_int_id z : CInt.in_int z -> CInt.to_int z = z.
Proof.
  unfold CInt.in_int, CInt.INT_MIN, CInt.INT_MAX, CInt.to_int. intros H.
  rewrite Z.mod_small; lia.
Qed.

Lemma clamp_long_id z :
  CInt.LONG_MIN <= z <= CInt.LONG_MAX -> CInt.clamp_long z = z.
Proof.
  unfold CInt.clamp_long. intros H.
  destruct (Z.ltb_spec z CInt.LONG_MIN); [lia|].
  destruct (Z.ltb_spec CInt.LONG_MAX z); [lia|]. reflexivity.
Qed.

Lemma strtol_digits_uint u acc :
  LibC.strtol_digits (NilEmpty.string_of_uint u) acc
  = (uint_value u acc, EmptyString).
Proof.
  revert acc. induction u; intros acc; simpl; try reflexivity; apply IHu.
Qed.

Lemma uint_value_pos u (p : positive) :
  uint_value u (Z.pos p) = Z.pos (Pos.of_uint_acc u p).
Proof.
  revert p. induction u; intros p; simpl; try reflexivity;
    rewrite <- IHu; f_equal; lia.
Qed.

Lemma uint_value_0 u : uint_value u 0 = Z.of_N (Pos.of_uint u).
Proof.
  induction u; cbn [uint_value Pos.of_uint]; try reflexivity;
    try assumption;
    match goal with
    | |- uint_value _ ?a = _ =>
        let v := eval compute in a in change a with v
    end;
    rewrite uint_value_pos; reflexivity.
Qed.

(** A numeral printed by [Pos.to_uint] starts with a digit. *)
Lemma string_of_pos_digit p :
  exists c s d,
    NilEmpty.string_of_uint (Pos.to_uint p) = String c s /\
    LibC.digit_of c = Some d /\ c <> "-"%char /\ c <> "+"%char /\
    LibC.isspace c = false.
Proof.
  pose proof (DecimalPos.Unsigned.of_to p) as H.
  destruct (Pos.to_uint p) as [|u|u|u|u|u|u|u|u|u|u] eqn:E;
    [discriminate H| simpl ..];
    eexists _, _, _; (split; [reflexivity|]);
    (split; [reflexivity|]); repeat split; discriminate.
Qed.

(** [strtol] reads back what [printf("%d")] prints. *)
Lemma strtol_string_of_Z z :
  CInt.LONG_MIN <= z <= CInt.LONG_MAX ->
  LibC.strtol (LibC.string_of_Z z) = (z, EmptyString).
Proof.
  intros Hz. unfold LibC.string_of_Z.
  destruct z as [|p|p]; [reflexivity| |].
  - simpl Z.to_int. unfold NilZero.string_of_int, NilZero.string_of_uint.
    destruct (string_of_pos_digit p) as (c & s & d & Hs & Hd & Hm & Hp & Hsp).
    pose proof (DecimalPos.Unsigned.of_to p) as Hof.
    assert (Hne : NilEmpty.string_of_uint (Pos.to_uint p)
                  = match Pos.to_uint p with
                    | Decimal.Nil => "0"
                    | _ => NilEmpty.string_of_uint (Pos.to_uint p)
                    end).
    { destruct (Pos.to_uint p); [discriminate Hof | reflexivity ..]. }
    rewrite <- Hne. unfold LibC.strtol.
    assert (Hsk : LibC.skip_space (NilEmpty.string_of_uint (Pos.to_uint p))
                  = NilEmpty.string_of_uint (Pos.to_uint p)).
    { rewrite Hs. simpl. rewrite Hsp. reflexivity. }
    rewrite Hsk.
    assert (Hsg : LibC.strtol_sign (NilEmpty.string_of_uint (Pos.to_uint p))
                  = (false, NilEmpty.string_of_uint (Pos.to_uint p))).
    { rewrite Hs. unfold LibC.strtol_sign.
      destruct c as [[] [] [] [] [] [] [] []]; try reflexivity; congruence. }
    rewrite Hsg. rewrite Hs at 1. rewrite Hd.
    rewrite strtol_digits_uint, uint_value_0, Hof.
    simpl Z.of_N. rewrite clamp_long_id by exact Hz. reflexivity.
  - simpl Z.to_int. unfold NilZero.string_of_int, NilZero.string_of_uint.
    destruct (string_of_pos_digit p) as (c & s & d & Hs & Hd & Hm & Hp & Hsp).
    pose proof (DecimalPos.Unsigned.of_to p) as Hof.
    assert (Hne : NilEmpty.string_of_uint (Pos.to_uint p)
                  = match Pos.to_uint p with
                    | Decimal.Nil => "0"
                    | _ => NilEmpty.string_of_uint (Pos.to_uint p)
                    end).
    { destruct (Pos.to_uint p); [discriminate Hof | reflexivity ..]. }
    rewrite <- Hne. unfold LibC.strtol.
    change (LibC.skip_space (String "-" ?x)) with (String "-" x).
    change (LibC.strtol_sign (String "-" ?x)) with (true, x).
    cbv iota beta. rewrite Hs at 1. rewrite Hd.
    rewrite strtol_digits_uint, uint_value_0, Hof.
    simpl Z.of_N. rewrite clamp_long_id by exact Hz. reflexivity.
Qed.

(** ** The monad of the driver *)

Section MonadFacts.

Context {W : Type}.

Lemma bind_val {A C} (m : M W A) (k : A -> M W C) w a w1 t1 :
  m w = (Val a, w1, t1) ->
  (m ≫= k) w = let '(r, w2, t2) := k a w1 in (r, w2, (t1 ++ t2)%list).
Proof.
  intros H. unfold mbind, M_bind, bind. rewrite H. reflexivity.
Qed.

Lemma bind_exit {A C} (m : M W A) (k : A -> M W C) w c w1 t1 :
  m w = (Exit c, w1, t1) -> (m ≫= k) w = (Exit c, w1, t1).
Proof.
  intros H. unfold mbind, M_bind, bind. rewrite H. reflexivity.
Qed.

Lemma ret_bind {A C} (a : A) (k : A -> M W C) w : (ret a ≫= k) w = k a w.
Proof.
  unfold mbind, M_bind, bind, ret. destruct (k a w) as [[r w2] t2].
  reflexivity.
Qed.

Lemma bind_assoc {A C D} (m : M W A) (k1 : A -> M W C) (k2 : C -> M W D) w :
  ((m ≫= k1) ≫= k2) w = (m ≫= (fun a => k1 a ≫= k2)) w.
Proof.
  unfold mbind, M_bind, bind.
  destruct (m w) as [[[a|c] w1] t1]; [|reflexivity].
  destruct (k1 a w1) as [[[b|c] w2] t2]; [|reflexivity].
  destruct (k2 b w2) as [[x w3] t3]. rewrite app_assoc. reflexivity.
Qed.

Lemma bind_ext {A C} (m : M W A) (k1 k2 : A -> M W C) w :
  (forall a w', k1 a w' = k2 a w') -> (m ≫= k1) w = (m ≫= k2) w.
Proof.
  intros H. unfold mbind, M_bind, bind.
  destruct (m w) as [[[a|c] w1] t1]; [|reflexivity].
  rewrite H. reflexivity.
Qed.

Lemma count_app p (t1 t2 : list Event) :
  count p (t1 ++ t2)%list = (count p t1 + count p t2)%nat.
Proof. unfold count. rewrite filter_app, length_app. reflexivity. Qed.

Lemma count_0_Forall p (t : list Event) :
  count p t = 0%nat -> Forall (fun e => p e = false) t.
Proof.
  unfold count. induction t as [|e t IH]; intros H; [constructor|].
  rewrite filter_cons in H. destruct (decide (p e = true)) as [He|He].
  - discriminate H.
  - constructor; [destruct (p e); congruence | auto].
Qed.

Lemma bounded_ret {A} p n (a : A) (Q : A -> Prop) :
  Q a -> bounded (W:=W) p n (ret a) Q.
Proof. intros H w. simpl. split; [unfold count; simpl; lia | exact H]. Qed.

Lemma bounded_exit {A} p n c (Q : A -> Prop) :
  bounded (W:=W) p n (exit c) Q.
Proof. intros w. simpl. split; [unfold count; simpl; lia | exact I]. Qed.

Lemma bounded_gets {A} p n (f : W -> A) (Q : A -> Prop) :
  (forall w, Q (f w)) -> bounded p n (gets f) Q.
Proof. intros H w. simpl. split; [unfold count; simpl; lia | apply H]. Qed.

Lemma bounded_emit p n e (Q : unit -> Prop) :
  p e = false -> Q tt -> bounded (W:=W) p n (emit e) Q.
Proof.
  intros Hp HQ w. simpl. split; [|exact HQ].
  unfold count. rewrite filter_cons. rewrite decide_False by congruence.
  simpl. lia.
Qed.

Lemma bounded_emit_1 e p n (Q : unit -> Prop) :
  Q tt -> bounded (W:=W) p (S n) (emit e) Q.
Proof.
  intros HQ w. simpl. split; [|exact HQ].
  unfold count. rewrite filter_cons. destruct (decide (p e = true)); simpl; lia.
Qed.

Lemma bounded_call {A} p n e (f : W -> A * W) (Q : A -> Prop) :
  p e = false -> (forall w, Q (f w).1) -> bounded p n (call e f) Q.
Proof.
  intros Hp HQ w. unfold call. specialize (HQ w).
  destruct (f w) as [a w']. simpl. split; [|exact HQ].
  unfold count. rewrite filter_cons. rewrite decide_False by congruence.
  simpl. lia.
Qed.

Lemma bounded_call_or_exit {A} p n e (f : W -> Res A * W) :
  p e = false -> bounded p n (call_or_exit e f) (fun _ => True).
Proof.
  intros Hp w. unfold call_or_exit.
  destruct (f w) as [r w']. simpl. split; [|destruct r; exact I].
  unfold count. rewrite filter_cons. rewrite decide_False by congruence.
  simpl. lia.
Qed.

Lemma bounded_bind {A C} p n1 n2 (m : M W A) (k : A -> M W C)
    (Q1 : A -> Prop) (Q2 : C -> Prop) :
  bounded p n1 m Q1 ->
  (forall a, Q1 a -> bounded p n2 (k a) Q2) ->
  bounded p (n1 + n2) (m ≫= k) Q2.
Proof.
  intros Hm Hk w. specialize (Hm w).
  unfold mbind, M_bind, bind.
  destruct (m w) as [[[a|c] w1] t1]; simpl in *.
  - destruct Hm as [Hc Ha]. specialize (Hk a Ha w1).
    destruct (k a w1) as [[r w2] t2]. simpl in *.
    rewrite count_app. split; [lia | tauto].
  - split; [lia | exact I].
Qed.

Lemma bounded_bind_0 {A C} p n (m : M W A) (k : A -> M W C)
    (Q1 : A -> Prop) (Q2 : C -> Prop) :
  bounded p 0 m Q1 ->
  (forall a, Q1 a -> bounded p n (k a) Q2) ->
  bounded p n (m ≫= k) Q2.
Proof. intros Hm Hk. apply (bounded_bind p 0 n m k Q1 Q2 Hm Hk). Qed.

Lemma bounded_weaken {A} p n n' (m : M W A) (Q Q' : A -> Prop) :
  bounded p n m Q -> (n <= n')%nat -> (forall a, Q a -> Q' a) ->
  bounded p n' m Q'.
Proof.
  intros H Hn HQ w. specialize (H w). destruct H as [Hc Hv].
  split; [lia|]. destruct ((m w).1.1); auto.
Qed.

Lemma count_mono p q (t : list Event) :
  (forall e, p e = true -> q e = true) -> (count p t <= count q t)%nat.
Proof.
  intros H. unfold count. induction t as [|e t IH]; [simpl; lia|].
  rewrite !filter_cons.
  destruct (decide (p e = true)) as [Hp|Hp];
    destruct (decide (q e = true)) as [Hq|Hq]; simpl; try lia.
  exfalso. auto.
Qed.

Lemma bounded_mono {A} p q n (m : M W A) (Q : A -> Prop) :
  (forall e, p e = true -> q e = true) -> bounded q n m Q -> bounded p n m Q.
Proof.
  intros H Hq w. destruct (Hq w) as [Hc Hv]. split; [|exact Hv].
  pose proof (count_mono p q (m w).2 H). lia.
Qed.

Lemma bounded_Fatal {A} p n msg (Q : A -> Prop) :
  p (EvFatal msg) = false -> bounded (W:=W) p n (Fatal msg) Q.
Proof.
  intros Hp w. simpl. split; [|exact I].
  unfold count. simpl. rewrite filter_cons, decide_False by congruence.
  simpl. lia.
Qed.

End MonadFacts.

(** The side condition of a step: the event emitted is not counted. *)
Ltac not_counted :=
  first [ reflexivity
        | cbn; rewrite String.eqb_refl; reflexivity ].

(** One step through a computation whose events are all outside [p]. *)
Ltac bounded_step :=
  lazymatch goal with
  | |- bounded _ _ (ret _) _ => apply bounded_ret; try exact I
  | |- bounded _ _ (exit _) _ => apply bounded_exit
  | |- bounded _ _ (Fatal _) _ => apply bounded_Fatal; not_counted
  | |- bounded _ _ (gets _) (fun _ => True) =>
      apply bounded_gets; intros; exact I
  | |- bounded _ _ (emit _) (fun _ => True) =>
      apply bounded_emit; [not_counted | exact I]
  | |- bounded _ _ (printf _) (fun _ => True) =>
      apply bounded_emit; [not_counted | exact I]
  | |- bounded _ _ (Error _) (fun _ => True) =>
      apply bounded_emit; [not_counted | exact I]
  | |- bounded _ _ (Usage _) (fun _ => True) =>
      apply bounded_emit; [not_counted | exact I]
  | |- bounded _ _ (call _ _) (fun _ => True) =>
      apply bounded_call; [not_counted | intros; exact I]
  | |- bounded _ _ (call_or_exit _ _) (fun _ => True) =>
      apply bounded_call_or_exit; not_counted
  | |- bounded _ _ (mbind _ _) _ =>
      eapply bounded_bind_0 with (Q1 := fun _ => True); [| intros ? _]
  | |- bounded _ _ (match ?x with _ => _ end) _ => destruct x
  end.

(** A part already known to emit no step of [main]. *)
Ltac by_quiet lem :=
  eapply bounded_weaken;
    [ eapply bounded_mono; [| apply lem];
      let H := fresh in intros [] H; first [reflexivity | discriminate H]
    | lia
    | intros; exact I ].

(** ** What each part of the driver emits *)

Section DriverFacts.

Context {W B : Type} (env : Env W B).

Lemma CollectTargets_loop_quiet st argv targets err :
  bounded is_driver_step 0 (CollectTargets_loop env st argv targets err)
    (fun _ => True).
Proof.
  revert targets err. induction argv as [|arg argv IH]; intros targets err;
    cbn [CollectTargets_loop].
  - bounded_step.
  - repeat first [apply IH | bounded_step].
Qed.

Lemma CollectTargetsFromArgs_quiet st argv targets err :
  bounded is_driver_step 0 (CollectTargetsFromArgs env st argv targets err)
    (fun _ => True).
Proof.
  unfold CollectTargetsFromArgs. destruct argv.
  - repeat bounded_step.
  - apply CollectTargets_loop_quiet.
Qed.

Lemma RunBuild_add_targets_quiet builder targets err :
  bounded is_driver_step 0 (RunBuild_add_targets env builder targets err)
    (fun _ => True).
Proof.
  revert builder err. induction targets as [|t targets IH];
    intros builder err; cbn [RunBuild_add_targets].
  - bounded_step.
  - repeat first [apply IH | bounded_step].
Qed.

Lemma RunBuild_quiet g argv :
  bounded is_driver_step 0 (RunBuild env g argv) (fun _ => True).
Proof.
  unfold RunBuild.
  repeat first [apply CollectTargetsFromArgs_quiet
               | apply RunBuild_add_targets_quiet | bounded_step].
Qed.

Lemma print_tools_quiet (ts : list (string * string * ToolFunc)) :
  bounded (W:=W) is_driver_step 0 (print_tools ts) (fun _ => True).
Proof.
  induction ts as [|t ts IH]; cbn [print_tools].
  - bounded_step.
  - repeat first [apply IH | bounded_step].
Qed.

Lemma RunTool_quiet tool g argv :
  bounded is_driver_step 0 (RunTool env tool g argv) (fun _ => True).
Proof.
  unfold RunTool. repeat first [apply print_tools_quiet | bounded_step].
Qed.

Lemma main_build_quiet l Q :
  bounded is_driver_step 0 (main_build env l) Q.
Proof.
  unfold main_build.
  eapply bounded_bind_0; [apply RunBuild_quiet|]. intros result _.
  eapply bounded_bind_0 with (Q1 := fun _ => True); [|intros; bounded_step].
  repeat bounded_step.
Qed.

Lemma RebuildManifest_once p st c file err :
  (forall e, p e = true -> is_driver_step e = true) ->
  bounded p 1 (RebuildManifest env st c file err) (fun _ => True).
Proof.
  intros Hp. unfold RebuildManifest.
  apply (bounded_bind p 1 0) with (Q1 := fun _ => True).
  - apply bounded_emit_1. exact I.
  - intros _ _. eapply bounded_mono; [exact Hp|]. repeat bounded_step.
Qed.

Lemma RebuildManifest_quiet p st c file err :
  (forall e, p e = true -> is_driver_step e = true) ->
  (forall f, p (EvRebuildManifest f) = false) ->
  bounded p 0 (RebuildManifest env st c file err) (fun _ => True).
Proof.
  intros Hp Hr. unfold RebuildManifest.
  eapply bounded_bind_0 with (Q1 := fun _ => True).
  - apply bounded_emit; [apply Hr | exact I].
  - intros _ _. eapply bounded_mono; [exact Hp|]. repeat bounded_step.
Qed.

(** With [rebuilt_manifest] set the driver goes straight to the build: it
    neither rebuilds the manifest nor goes back to [reload]. *)
Lemma main_with_log_rebuilt l log_path err :
  rebuilt_manifest l = true ->
  bounded (fun e => is_reset e || is_rebuild e) 0
    (main_with_log env l log_path err) (fun _ => False).
Proof.
  intros Hr. unfold main_with_log. rewrite Hr. cbn [negb].
  repeat first [ by_quiet (main_build_quiet l (fun _ => False))
               | apply bounded_exit
               | eapply bounded_mono;
                   [| apply (main_build_quiet l (fun _ => False))];
                   intros [] H; first [reflexivity | discriminate H]
               | bounded_step ].
Qed.

Ltac main_build_leaf l :=
  eapply bounded_weaken;
    [ eapply bounded_mono;
        [| apply (main_build_quiet l (fun _ => False))];
      let H := fresh in intros [] H; first [reflexivity | discriminate H]
    | lia
    | intros ? [] ].

(** The first pass resets the state at most once, and only to go back to
    [reload] with [rebuilt_manifest] set. *)
Lemma main_with_log_first_reset l log_path err :
  bounded is_reset 1 (main_with_log env l log_path err)
    (fun l' => rebuilt_manifest l' = true).
Proof.
  unfold main_with_log.
  eapply bounded_bind_0 with (Q1 := fun _ => True); [bounded_step|].
  intros [ok1 err1] _. destruct ok1; cbn [negb]; [|repeat bounded_step].
  eapply bounded_bind_0 with (Q1 := fun _ => True); [bounded_step|].
  intros [ok2 err2] _. destruct ok2; cbn [negb]; [|repeat bounded_step].
  destruct (rebuilt_manifest l); cbn [negb]; [main_build_leaf l|].
  eapply bounded_bind_0 with (Q1 := fun _ => True).
  { apply RebuildManifest_quiet; [|reflexivity].
    intros [] H; first [reflexivity | discriminate H]. }
  intros [rebuilt err3] _. destruct rebuilt.
  - apply (bounded_bind is_reset 1 0) with (Q1 := fun _ => True).
    + apply bounded_emit_1. exact I.
    + intros _ _. apply bounded_ret. reflexivity.
  - destruct (is_empty err3); cbn [negb];
      [main_build_leaf l | repeat bounded_step].
Qed.

Lemma main_with_log_first_rebuild l log_path err :
  bounded is_rebuild 1 (main_with_log env l log_path err)
    (fun l' => rebuilt_manifest l' = true).
Proof.
  unfold main_with_log.
  eapply bounded_bind_0 with (Q1 := fun _ => True); [bounded_step|].
  intros [ok1 err1] _. destruct ok1; cbn [negb]; [|repeat bounded_step].
  eapply bounded_bind_0 with (Q1 := fun _ => True); [bounded_step|].
  intros [ok2 err2] _. destruct ok2; cbn [negb]; [|repeat bounded_step].
  destruct (rebuilt_manifest l); cbn [negb]; [main_build_leaf l|].
  apply (bounded_bind is_rebuild 1 0) with (Q1 := fun _ => True).
  { apply RebuildManifest_once.
    intros [] H; first [reflexivity | discriminate H]. }
  intros [rebuilt err3] _. destruct rebuilt.
  - eapply bounded_bind_0 with (Q1 := fun _ => True); [bounded_step|].
    intros _ _. apply bounded_ret. reflexivity.
  - destruct (is_empty err3); cbn [negb];
      [main_build_leaf l | repeat bounded_step].
Qed.

(** The part of a pass before the build log emits, of the steps of [main],
    only [EvMakeDir]. *)
Lemma main_loaded_lift p n l ok err (Q : Locals -> Prop) :
  (forall e, p e = true -> is_driver_step e = true) ->
  (is_empty (LookupVariable (state (globals l)) "builddir") = false ->
   forall d, p (EvMakeDir d) = false) ->
  bounded p n
    (main_with_log env l
       (log_path_of (LookupVariable (state (globals l)) "builddir")) err) Q ->
  bounded p n (main_loaded env l ok err) Q.
Proof.
  intros Hq Hmk Hlog. unfold main_loaded.
  destruct ok; cbn [negb].
  2:{ eapply bounded_bind_0 with (Q1 := fun _ => True).
      - eapply bounded_mono; [exact Hq | bounded_step].
      - intros; apply bounded_exit. }
  destruct (is_empty (tool l)); cbn [negb].
  2:{ eapply bounded_bind_0 with (Q1 := fun _ => True).
      - eapply bounded_mono; [exact Hq | apply RunTool_quiet].
      - intros; apply bounded_exit. }
  eapply bounded_bind_0 with (Q1 := fun _ => True);
    [| intros _ _; apply Hlog].
  destruct (is_empty (LookupVariable (state (globals l)) "builddir"));
    cbn [negb]; [apply bounded_ret; exact I|].
  eapply bounded_bind_0 with (Q1 := fun _ => True).
  { apply bounded_call; [apply Hmk; reflexivity | intros; exact I]. }
  intros r _.
  eapply bounded_bind_0 with (Q1 := fun _ => True);
    [apply bounded_gets; intros; exact I|].
  intros e _. destruct ((r <? 0) && negb (e =? EEXIST)).
  - eapply bounded_bind_0 with (Q1 := fun _ => True).
    + eapply bounded_mono; [exact Hq | bounded_step].
    + intros; apply bounded_exit.
  - apply bounded_ret. exact I.
Qed.

Lemma reload_step_driver_step p :
  (forall e, p e = true -> is_reset e || is_rebuild e = true) ->
  forall e, p e = true -> is_driver_step e = true.
Proof.
  intros Hp e He. apply Hp in He.
  destruct e; first [reflexivity | discriminate He].
Qed.

Lemma reload_step_only p e :
  (forall e, p e = true -> is_reset e || is_rebuild e = true) ->
  is_reset e || is_rebuild e = false -> p e = false.
Proof.
  intros Hp He. destruct (p e) eqn:E; [|reflexivity].
  apply Hp in E. congruence.
Qed.

Lemma main_pass_lift p n l (Q : Locals -> Prop) :
  (forall e, p e = true -> is_reset e || is_rebuild e = true) ->
  (forall l0 log_path err0,
     rebuilt_manifest l0 = rebuilt_manifest l ->
     bounded p n (main_with_log env l0 log_path err0) Q) ->
  bounded p n (main_pass env l) Q.
Proof.
  intros Hp Hlog. unfold main_pass.
  eapply bounded_bind_0 with (Q1 := fun _ => True).
  - apply bounded_call; [|intros; exact I].
    apply (reload_step_only p _ Hp). reflexivity.
  - intros [[ok st] err] _. apply main_loaded_lift.
    + apply reload_step_driver_step. exact Hp.
    + intros _ d. apply (reload_step_only p _ Hp). reflexivity.
    + apply Hlog. reflexivity.
Qed.

(** A pass with [rebuilt_manifest] set always leaves [main]. *)
Lemma main_pass_rebuilt l :
  rebuilt_manifest l = true ->
  bounded (fun e => is_reset e || is_rebuild e) 0 (main_pass env l)
    (fun _ => False).
Proof.
  intros Hr. apply main_pass_lift; [auto|].
  intros l0 lp err0 H. apply main_with_log_rebuilt. congruence.
Qed.

Lemma main_pass_first_reset l :
  bounded is_reset 1 (main_pass env l)
    (fun l' => rebuilt_manifest l' = true).
Proof.
  apply main_pass_lift.
  - intros e H. rewrite H. reflexivity.
  - intros. apply main_with_log_first_reset.
Qed.

Lemma main_pass_first_rebuild l :
  bounded is_rebuild 1 (main_pass env l)
    (fun l' => rebuilt_manifest l' = true).
Proof.
  apply main_pass_lift.
  - intros e H. rewrite H. apply orb_true_r.
  - intros. apply main_with_log_first_rebuild.
Qed.

Lemma main_reload_rebuilt fuel l :
  rebuilt_manifest l = true ->
  bounded (fun e => is_reset e || is_rebuild e) 0 (main_reload env fuel l)
    (fun _ => fuel = 0%nat).
Proof.
  intros Hr. destruct fuel as [|fuel]; cbn [main_reload].
  - apply bounded_ret. reflexivity.
  - eapply bounded_bind_0; [apply main_pass_rebuilt; exact Hr|].
    intros l' [].
Qed.

Lemma main_reload_reset fuel l :
  bounded is_reset 1 (main_reload env fuel l) (fun _ => (fuel <= 1)%nat).
Proof.
  destruct fuel as [|fuel]; cbn [main_reload].
  - apply bounded_ret. lia.
  - apply (bounded_bind is_reset 1 0) with (1 := main_pass_first_reset l).
    intros l' Hl'. eapply bounded_weaken.
    + eapply bounded_mono; [|apply (main_reload_rebuilt fuel l' Hl')].
      intros e H. cbn beta. rewrite H. reflexivity.
    + lia.
    + cbn beta. lia.
Qed.

Lemma main_reload_rebuild fuel l :
  bounded is_rebuild 1 (main_reload env fuel l) (fun _ => (fuel <= 1)%nat).
Proof.
  destruct fuel as [|fuel]; cbn [main_reload].
  - apply bounded_ret. lia.
  - apply (bounded_bind is_rebuild 1 0) with (1 := main_pass_first_rebuild l).
    intros l' Hl'. eapply bounded_weaken.
    + eapply bounded_mono; [|apply (main_reload_rebuilt fuel l' Hl')].
      intros e H. cbn beta. rewrite H. apply orb_true_r.
    + lia.
    + cbn beta. lia.
Qed.

(** Two passes are all [main] can make: more fuel changes nothing. *)
Lemma main_reload_fuel fuel l w :
  (2 <= fuel)%nat -> main_reload env fuel l w = main_reload env 2 l w.
Proof.
  intros Hf. destruct fuel as [|[|fuel]]; [lia | lia |].
  cbn [main_reload]. unfold mbind, M_bind, bind.
  pose proof (main_pass_first_reset l w) as [_ H1].
  destruct (main_pass env l w) as [[[l1|c1] w1] t1]; [|reflexivity].
  cbn in H1.
  pose proof (main_pass_rebuilt l1 H1 w1) as [_ H2].
  destruct (main_pass env l1 w1) as [[[l2|c2] w2] t2]; [|reflexivity].
  destruct H2.
Qed.

Lemma DebugEnable_prints name l :
  bounded is_work 0 (DebugEnable (W:=W) name l) (fun _ => True).
Proof. unfold DebugEnable. repeat bounded_step. Qed.

Lemma main_switch_prints r l :
  bounded is_work 0 (main_switch (W:=W) r l) (fun _ => True).
Proof.
  unfold main_switch.
  repeat first [apply DebugEnable_prints | bounded_step].
Qed.

(** The option loop only prints. *)
Lemma main_options_prints cs er l :
  bounded is_work 0 (main_options (W:=W) cs er l) (fun _ => True).
Proof.
  revert l. induction cs as [|r cs IH]; intros l; cbn [main_options].
  - repeat bounded_step.
  - repeat first [apply IH | apply main_switch_prints | bounded_step].
Qed.

Lemma main_chdir_quiet p l :
  (forall e, p e = true -> is_driver_step e = true) ->
  (forall d, p (EvChdir d) = false) ->
  bounded p 0 (main_chdir env l) (fun _ => True).
Proof.
  intros Hq Hc.
  unfold main_chdir. destruct (working_dir l) as [dir|];
    [|apply bounded_ret; exact I].
  eapply bounded_bind_0 with (Q1 := fun _ => True).
  { eapply bounded_mono; [exact Hq | bounded_step]. }
  intros _ _. eapply bounded_bind_0 with (Q1 := fun _ => True).
  { apply bounded_call; [apply Hc | intros; exact I]. }
  intros r _. destruct (r <? 0); [|apply bounded_ret; exact I].
  eapply bounded_bind_0 with (Q1 := fun _ => True).
  { apply bounded_gets. intros; exact I. }
  intros e _. eapply bounded_mono; [exact Hq | bounded_step].
Qed.

Lemma main_bounded p fuel argv :
  (forall e, p e = true -> is_reset e || is_rebuild e = true) ->
  (forall l, bounded p 1 (main_reload env fuel l)
               (fun _ => (fuel <= 1)%nat)) ->
  bounded p 1 (main env fuel argv) (fun _ => (fuel <= 1)%nat).
Proof.
  intros Hp Hre. unfold main.
  eapply bounded_bind_0 with (Q1 := fun _ => True).
  { eapply bounded_mono; [|apply main_options_prints].
    intros e He. apply Hp in He.
    destruct e; first [reflexivity | discriminate He]. }
  intros l _. eapply bounded_bind_0 with (Q1 := fun _ => True).
  { apply main_chdir_quiet.
    - apply reload_step_driver_step. exact Hp.
    - intros d. apply (reload_step_only p _ Hp). reflexivity. }
  intros _ _. apply Hre.
Qed.

(** C3.  In any run of [main], whatever the parser, the build log and the
    builder do, and in particular when every build of the manifest does
    work, the state is reset and control goes back to [reload] at most once,
    and the manifest rebuild is attempted at most once.  Two passes always
    bring [main] to an exit status, and more fuel changes nothing.  A pass
    made after the reload opens the build log and goes straight to the main
    build: it attempts no rebuild of the manifest and always leaves
    [main]. *)
Theorem reload_at_most_once (k : nat) (argv : list string) (w : W)
    (l : Locals) (log_path err : string) (w' : W) :
  let r := main env (2 + k) argv w in
  let l' := with_rebuilt_manifest l true in
  (count is_reset (events r) <= 1)%nat /\
  (count is_rebuild (events r) <= 1)%nat /\
  r = main env 2 argv w /\
  (exists status, exit_status r = Some status) /\
  main_with_log env l' log_path err
  = ('(ok, err) ← call (EvBuildLogLoad log_path)
                    (BuildLog_Load env log_path err);
     if negb ok then
       Error ("loading build log " +:+ log_path +:+ ": " +:+ err);; exit 1
     else
     '(ok, err) ← call (EvBuildLogOpenForWrite log_path)
                    (BuildLog_OpenForWrite env log_path err);
     if negb ok then Error ("opening build log: " +:+ err);; exit 1
     else main_build env l') /\
  count (fun e => is_reset e || is_rebuild e) (events (main_pass env l' w'))
  = 0%nat /\
  (exists status, exit_status (main_pass env l' w') = Some status).
Proof.
  cbv zeta. repeat apply conj.
  - apply (main_bounded is_reset (2 + k) argv).
    + intros e H. rewrite H. reflexivity.
    + intros l0. apply main_reload_reset.
  - apply (main_bounded is_rebuild (2 + k) argv).
    + intros e H. rewrite H. apply orb_true_r.
    + intros l0. apply main_reload_rebuild.
  - unfold main, mbind, M_bind, bind.
    destruct (main_options _ _ _ w) as [[[l0|c] w1] t1]; [|reflexivity].
    destruct (main_chdir env l0 w1) as [[[[]|c] w2] t2]; [|reflexivity].
    rewrite (main_reload_fuel (2 + k) l0 w2) by lia. reflexivity.
  - pose proof (main_bounded is_reset (2 + k) argv
                  ltac:(intros e H; rewrite H; reflexivity)
                  ltac:(intros l0; apply main_reload_reset) w) as [_ H].
    unfold exit_status. destruct ((main env (2 + k) argv w).1.1) as [a|c].
    + lia.
    + eauto.
  - reflexivity.
  - pose proof (main_pass_rebuilt (with_rebuilt_manifest l true)
                  eq_refl w') as [H _].
    unfold events. lia.
  - pose proof (main_pass_rebuilt (with_rebuilt_manifest l true)
                  eq_refl w') as [_ H].
    unfold exit_status.
    destruct ((main_pass env (with_rebuilt_manifest l true) w').1.1) as [a|c].
    + destruct H.
    + eauto.
Qed.

(** ** Subtools *)

(** [RunTool] on the name of an entry of its table: the function of that
    entry, called once. *)
Lemma RunTool_entry (x : string * string * ToolFunc) g argv (w : W) :
  x ∈ tools env ->
  RunTool env (tool_name x) g argv w
  = ((tool_func x g argv w).1, (tool_func x g argv w).2,
     [EvTool (tool_name x) argv]).
Proof.
  unfold RunTool, tools. intros Hx.
  destruct (has_browse env);
    repeat (apply elem_of_cons in Hx as [->|Hx]);
    try (apply elem_of_nil in Hx; destruct Hx);
    cbn [tool_name tool_func fst snd app List.find];
    repeat match goal with
    | |- context [String.eqb ?a ?b] =>
        let v := eval vm_compute in (String.eqb a b) in
        change (String.eqb a b) with v; cbn [List.find]
    end;
    unfold call_or_exit; cbn [tool_name tool_func fst snd];
    match goal with
    | |- context [match ?f with (_, _) => _ end] => destruct f; reflexivity
    end.
Qed.

Lemma count_le_0 p (t : list Event) : (count p t <= 0)%nat -> count p t = 0%nat.
Proof. lia. Qed.

(** C9.  With a tool named by [-t], [main] from [reload] on parses the
    manifest, runs the tool at once and ends with the result of the tool
    (with status 1 if the manifest does not load).  For a name of the table
    of [RunTool], the function of that entry is called, once, on the
    arguments that follow the tool on the command line, and the process
    exits with the status the function returns, or with the status with
    which the function has ended the process itself; the events are the
    load of the manifest and that call.  For every name, the process exits
    with what [RunTool] gives, after the load and the events of [RunTool].
    No event of the run loads or opens the build log, attempts the manifest
    rebuild or resets the state; the option loop and the change of
    directory that come before do not either. *)
Theorem tool_mode_skips_log_and_rebuild (l : Locals) (fuel : nat) (w : W)
    (ok : bool) (st : State) (err : string) (w1 : W)
    (cs : list getopt_ret) (er : list string) (l0 : Locals) (w0 : W) :
  tool l <> EmptyString ->
  ManifestParser_Load env (state (globals l)) (input_file l) EmptyString w
  = (ok, st, err, w1) ->
  let r := main_reload env (S fuel) l w in
  let g := set_state (globals l) st in
  count is_log_or_rebuild (events r) = 0%nat /\
  count is_log_or_rebuild (events (main_options (W:=W) cs er l0 w0)) = 0%nat /\
  count is_log_or_rebuild (events (main_chdir env l0 w0)) = 0%nat /\
  if ok then
    r = (Exit (status_of (RunTool env (tool l) g (args l) w1).1.1),
         (RunTool env (tool l) g (args l) w1).1.2,
         EvParserLoad (input_file l) ::
         (RunTool env (tool l) g (args l) w1).2) /\
    forall x,
      x ∈ tools env -> tool_name x = tool l ->
      r = (Exit (status_of (tool_func x g (args l) w1).1),
           (tool_func x g (args l) w1).2,
           [EvParserLoad (input_file l); EvTool (tool l) (args l)])
  else r = (Exit 1, w1, [EvParserLoad (input_file l); EvError err]).
Proof.
  intros Htool Hload r g.
  assert (Hne : is_empty (tool l) = false).
  { destruct (tool l); [congruence | reflexivity]. }
  assert (Hrun : ok = true ->
    r = (Exit (status_of (RunTool env (tool l) g (args l) w1).1.1),
         (RunTool env (tool l) g (args l) w1).1.2,
         EvParserLoad (input_file l) ::
         (RunTool env (tool l) g (args l) w1).2)).
  { intros ->. subst r g. cbn [main_reload]. unfold main_pass, main_loaded.
    unfold mbind, M_bind, bind, call. rewrite Hload. cbn [negb].
    cbn [tool with_globals]. rewrite Hne. cbn [negb].
    cbn [globals with_globals args].
    destruct (RunTool env (tool l) (set_state (globals l) st) (args l) w1)
      as [[[status|code] w2] t]; cbn; [rewrite app_nil_r|]; reflexivity. }
  assert (Hr : if ok then
    r = (Exit (status_of (RunTool env (tool l) g (args l) w1).1.1),
         (RunTool env (tool l) g (args l) w1).1.2,
         EvParserLoad (input_file l) ::
         (RunTool env (tool l) g (args l) w1).2) /\
    forall x,
      x ∈ tools env -> tool_name x = tool l ->
      r = (Exit (status_of (tool_func x g (args l) w1).1),
           (tool_func x g (args l) w1).2,
           [EvParserLoad (input_file l); EvTool (tool l) (args l)])
  else r = (Exit 1, w1, [EvParserLoad (input_file l); EvError err])).
  { destruct ok.
    - split; [exact (Hrun eq_refl)|].
      intros x Hx Hname. rewrite (Hrun eq_refl), <- Hname.
      rewrite (RunTool_entry x g (args l) w1 Hx). reflexivity.
    - subst r. cbn [main_reload]. unfold main_pass, main_loaded.
      unfold mbind, M_bind, bind, call. rewrite Hload. reflexivity. }
  split; [|split; [|split; [|exact Hr]]].
  - destruct ok.
    + destruct Hr as [Hr _]. rewrite Hr.
      unfold events. cbn [snd].
      pose proof (RunTool_quiet (tool l) g (args l) w1) as [Hc _].
      change (EvParserLoad (input_file l) ::
              (RunTool env (tool l) g (args l) w1).2)
        with ([EvParserLoad (input_file l)] ++
              (RunTool env (tool l) g (args l) w1).2)%list.
      rewrite count_app.
      pose proof (count_mono is_log_or_rebuild is_driver_step
                    (RunTool env (tool l) g (args l) w1).2
                    ltac:(intros [] H; first [reflexivity | discriminate H])).
      change (count is_log_or_rebuild [EvParserLoad (input_file l)])
        with 0%nat. lia.
    + rewrite Hr. reflexivity.
  - apply count_le_0.
    pose proof (main_options_prints cs er l0 w0) as [Hc _].
    pose proof (count_mono is_log_or_rebuild is_work
                  (main_options (W:=W) cs er l0 w0).2
                  ltac:(intros [] H; first [reflexivity | discriminate H])).
    unfold events. lia.
  - apply count_le_0.
    apply (main_chdir_quiet is_log_or_rebuild l0); [|reflexivity].
    intros [] H; first [reflexivity | discriminate H].
Qed.

(** ** The build log *)

Lemma main_with_log_quiet p l log_path err :
  (forall e, p e = true -> is_driver_step e = true) ->
  p (EvBuildLogLoad log_path) = false ->
  p (EvBuildLogOpenForWrite log_path) = false ->
  (forall f, p (EvRebuildManifest f) = false) ->
  p EvResetState = false ->
  bounded p 0 (main_with_log env l log_path err) (fun _ => True).
Proof.
  intros Hq Hl Ho Hr Hs. unfold main_with_log.
  assert (Hb : bounded p 0 (main_build env l) (fun _ => True)).
  { eapply bounded_mono; [exact Hq | apply main_build_quiet]. }
  assert (He : forall msg, bounded (W:=W) p 0 (Error msg;; exit 1)
                             (fun _ : Locals => True)).
  { intros msg. eapply bounded_mono; [exact Hq | repeat bounded_step]. }
  eapply bounded_bind_0 with (Q1 := fun _ => True).
  { apply bounded_call; [exact Hl | intros; exact I]. }
  intros [ok1 err1] _. destruct ok1; cbn [negb]; [|apply He].
  eapply bounded_bind_0 with (Q1 := fun _ => True).
  { apply bounded_call; [exact Ho | intros; exact I]. }
  intros [ok2 err2] _. destruct ok2; cbn [negb]; [|apply He].
  destruct (rebuilt_manifest l); cbn [negb]; [exact Hb|].
  eapply bounded_bind_0 with (Q1 := fun _ => True).
  { apply RebuildManifest_quiet; assumption. }
  intros [rebuilt err3] _. destruct rebuilt.
  - eapply bounded_bind_0 with (Q1 := fun _ => True).
    + apply bounded_emit; [exact Hs | exact I].
    + intros; apply bounded_ret; exact I.
  - destruct (is_empty err3); cbn [negb]; [exact Hb | apply He].
Qed.

Lemma main_with_log_starts l log_path err w :
  exists t,
    events (main_with_log env l log_path err w) = EvBuildLogLoad log_path :: t.
Proof.
  unfold main_with_log, mbind, M_bind, bind, call, events.
  destruct (BuildLog_Load env log_path err w) as [[ok1 err1] w1].
  match goal with
  | |- context [match ?k with (_, _) => _ end] =>
      destruct k as [[x w2] t2]
  end.
  eexists. reflexivity.
Qed.

Lemma count_0_elem p (t : list Event) e :
  count p t = 0%nat -> e ∈ t -> p e = false.
Proof.
  intros Hc He. apply count_0_Forall in Hc.
  rewrite Forall_forall in Hc. apply Hc. exact He.
Qed.

(** C8.  In a pass of [main] that is not a tool run and whose manifest has
    loaded, every load and every opening for write of the build log is at
    [<builddir>/.ninja_log], [<builddir>] being the top-level variable
    [builddir] of the manifest just parsed.  When the variable is empty the
    path is [.ninja_log], no directory is made and the log is loaded first
    thing.  When it is not, the directory is made first; if that fails for
    another reason than [EEXIST] the driver reports it and exits with 1,
    and otherwise (made, or already there) it goes on to load the log. *)
Theorem build_log_path (l : Locals) (err : string) (w : W) (r : Z) (w1 : W) :
  let build_dir := LookupVariable (state (globals l)) "builddir" in
  let log_path := log_path_of build_dir in
  let run := main_loaded env l true err w in
  tool l = EmptyString ->
  MakeDir env build_dir w = (r, w1) ->
  (forall p,
     EvBuildLogLoad p ∈ events run \/ EvBuildLogOpenForWrite p ∈ events run ->
     p = log_path) /\
  if is_empty build_dir then
    log_path = ".ninja_log" /\
    count is_make_dir (events run) = 0%nat /\
    exists t, events run = EvBuildLogLoad ".ninja_log" :: t
  else
    log_path = build_dir +:+ "/.ninja_log" /\
    if (r <? 0) && negb (errno env w1 =? EEXIST) then
      run = (Exit 1, w1,
             [EvMakeDir build_dir;
              EvError ("creating build directory " +:+ build_dir +:+ ": " +:+
                       strerror env (errno env w1))])
    else
      exists t, events run = EvMakeDir build_dir :: EvBuildLogLoad log_path :: t.
Proof.
  intros build_dir log_path run Htool Hmk. split.
  - assert (Hb : bounded (is_log_elsewhere log_path) 0
                   (main_loaded env l true err) (fun _ => True)).
    { apply main_loaded_lift.
      - intros [] H; first [reflexivity | discriminate H].
      - reflexivity.
      - apply main_with_log_quiet; try reflexivity.
        + intros [] H; first [reflexivity | discriminate H].
        + cbn. fold build_dir. rewrite String.eqb_refl. reflexivity.
        + cbn. fold build_dir. rewrite String.eqb_refl. reflexivity. }
    destruct (Hb w) as [Hc _]. apply count_le_0 in Hc.
    intros p [Hp|Hp]; apply (count_0_elem _ _ _ Hc) in Hp; cbn in Hp;
      apply negb_false_iff, String.eqb_eq in Hp; exact Hp.
  - subst run log_path. unfold main_loaded, log_path_of. cbn [negb].
    rewrite Htool. cbn [is_empty negb]. fold build_dir.
    destruct (is_empty build_dir) eqn:Hbd; cbn [negb].
    + split; [reflexivity|]. split.
      * apply count_le_0.
        eapply bounded_bind_0 with (Q1 := fun _ => True);
          [apply bounded_ret; exact I|].
        intros _ _. apply main_with_log_quiet; try reflexivity.
        intros [] H; first [reflexivity | discriminate H].
      * unfold mbind, M_bind, bind. cbn.
        destruct (main_with_log_starts l kLogPath err w) as [t Ht].
        unfold events in *.
        destruct (main_with_log env l kLogPath err w) as [[x w2] t2].
        cbn in *. exists t. exact Ht.
    + split; [reflexivity|].
      unfold mbind, M_bind, bind, call, gets. rewrite Hmk.
      destruct ((r <? 0) && negb (errno env w1 =? EEXIST)).
      * reflexivity.
      * cbn.
        destruct (main_with_log_starts l (build_dir +:+ "/" +:+ kLogPath)
                    err w1) as [t Ht].
        unfold events in *.
        destruct (main_with_log env l (build_dir +:+ "/" +:+ kLogPath) err w1)
          as [[x w2] t2].
        cbn in *. exists t. rewrite Ht. reflexivity.
Qed.

(** ** Targets and the build *)

Lemma last_char_caret path : last_char (path +:+ "^") = Some "^"%char.
Proof.
  induction path as [|c path IH]; [reflexivity|].
  change ((String c path) +:+ "^") with (String c (path +:+ "^")).
  destruct (path +:+ "^") as [|c' s'] eqn:E.
  - destruct path; discriminate E.
  - change (last_char (String c (String c' s')))
      with (last_char (String c' s')). exact IH.
Qed.

Lemma drop_last_caret path : drop_last (path +:+ "^") = path.
Proof.
  induction path as [|c path IH]; [reflexivity|].
  change ((String c path) +:+ "^") with (String c (path +:+ "^")).
  destruct (path +:+ "^") as [|c' s'] eqn:E.
  - destruct path; discriminate E.
  - change (drop_last (String c (String c' s')))
      with (String c (drop_last (String c' s'))). rewrite IH. reflexivity.
Qed.

Lemma split_caret_app path : split_caret (path +:+ "^") = (path, true).
Proof.
  unfold split_caret. rewrite last_char_caret, drop_last_caret.
  rewrite bool_decide_eq_true_2 by reflexivity.
  destruct path; reflexivity.
Qed.

(** C5.  A target [path^], that is an argument whose canonical form is
    [path] followed by a caret, with [path] the path of a node: if no edge
    consumes the node the resolution fails with the error
    ['path' has no out edge]; otherwise the target is the first output of
    the first edge that consumes the node, added to the targets collected
    so far, and the resolution goes on with the next argument.  (An edge
    without outputs, which the data model excludes, is a fatal error.) *)
Theorem caret_target_first_output (st : State) (arg : string)
    (argv' : list string) (targets : list NodeP) (err err' path : string)
    (node : NodeP) (w : W) :
  CanonicalizePath env arg err = (true, path +:+ "^", err') ->
  LookupNode st path = Some node ->
  CollectTargets_loop env st (arg :: argv') targets err w
  = match out_edges st node with
    | [] => (Val (false, targets, "'" +:+ path +:+ "' has no out edge"), w, [])
    | edge :: _ =>
        match outputs_ st edge with
        | out :: _ =>
            CollectTargets_loop env st argv' (targets ++ [out])%list err' w
        | [] => (Exit 1, w, [EvEdgeDump edge; EvFatal "edge has no outputs"])
        end
    end /\
  CollectTargetsFromArgs env st [arg] [] err w
  = match out_edges st node with
    | [] => (Val (false, [], "'" +:+ path +:+ "' has no out edge"), w, [])
    | edge :: _ =>
        match outputs_ st edge with
        | out :: _ => (Val (true, [out], err'), w, [])
        | [] => (Exit 1, w, [EvEdgeDump edge; EvFatal "edge has no outputs"])
        end
    end.
Proof.
  intros Hc Hl. unfold CollectTargetsFromArgs.
  cbn [CollectTargets_loop]. rewrite Hc. cbn [negb].
  rewrite split_caret_app, Hl.
  destruct (out_edges st node) as [|edge es]; [split; reflexivity|].
  destruct (outputs_ st edge) as [|out os]; split; reflexivity.
Qed.

Lemma CollectTargets_loop_app st pre rest targets err w ts e w1 t1 :
  CollectTargets_loop env st pre targets err w = (Val (true, ts, e), w1, t1) ->
  CollectTargets_loop env st (pre ++ rest)%list targets err w
  = let '(r, w2, t2) := CollectTargets_loop env st rest ts e w1 in
    (r, w2, (t1 ++ t2)%list).
Proof.
  revert targets err. induction pre as [|arg pre IH]; intros targets err H.
  - cbn in H. injection H; intros; subst. cbn [app].
    destruct (CollectTargets_loop env st rest ts e w1) as [[r w2] t2].
    reflexivity.
  - cbn [app CollectTargets_loop] in *.
    destruct (CanonicalizePath env arg err) as [[ok path] err0].
    destruct ok; cbn [negb] in *; [|discriminate H].
    destruct (split_caret path) as [path0 fd].
    destruct (LookupNode st path0) as [node|]; [|discriminate H].
    destruct fd; [|apply IH; exact H].
    destruct (out_edges st node) as [|edge es]; [discriminate H|].
    destruct (outputs_ st edge) as [|out os]; [discriminate H|].
    apply IH. exact H.
Qed.

(** What [main] makes of the status of [RunBuild]. *)
Lemma main_build_status l w status w' t :
  RunBuild env (globals l) (args l) w = (Val status, w', t) ->
  exit_status (main_build env l w) = Some status /\
  exists t', events (main_build env l w) = (t ++ t')%list.
Proof.
  intros H. unfold main_build, mbind, M_bind, bind, exit_status, events.
  rewrite H. destruct (g_metrics l).
  - unfold call, printf, emit, exit.
    destruct (Metrics_Report env w') as [[] w2]. cbn. eauto.
  - cbn. eauto.
Qed.

(** C6.  A target that is reached by the loop (the arguments before it
    resolve) and whose canonical path, without its caret if it has one, is
    not the path of a node: [RunBuild] reports
    [unknown target 'path'], followed by [, did you mean 'other'?] when
    the spellchecker of the state suggests the node [other], and returns 1;
    [main] then exits with status 1 and the report is among its events. *)
Theorem unknown_target_is_fatal (l : Locals) (pre : list string)
    (arg : string) (post : list string) (ts : list NodeP)
    (err1 cpath err2 : string) (w w1 : W) (t1 : list Event) :
  let st := state (globals l) in
  let path := (split_caret cpath).1 in
  let err := "unknown target '" +:+ path +:+ "'" in
  let msg :=
    match SpellcheckNode env st path with
    | Some suggestion =>
        err +:+ ", did you mean '" +:+ node_path st suggestion +:+ "'?"
    | None => err
    end in
  args l = (pre ++ arg :: post)%list ->
  CollectTargets_loop env st pre [] EmptyString w
  = (Val (true, ts, err1), w1, t1) ->
  CanonicalizePath env arg err1 = (true, cpath, err2) ->
  LookupNode st path = None ->
  RunBuild env (globals l) (args l) w
  = (Val 1, w1, (t1 ++ [EvError msg])%list) /\
  exit_status (main_build env l w) = Some 1 /\
  EvError msg ∈ events (main_build env l w).
Proof.
  intros st path err msg Hargs Hpre Hc Hl.
  assert (Hrun : RunBuild env (globals l) (args l) w
                 = (Val 1, w1, (t1 ++ [EvError msg])%list)).
  { unfold RunBuild, CollectTargetsFromArgs. rewrite Hargs.
    assert (Hloop :
      CollectTargets_loop env (state (globals l)) (pre ++ arg :: post)%list
        [] EmptyString w = (Val (false, ts, msg), w1, (t1 ++ [])%list)).
    { rewrite (CollectTargets_loop_app _ _ _ _ _ _ _ _ _ _ Hpre).
      cbn [CollectTargets_loop]. fold st. rewrite Hc. cbn [negb].
      subst path. destruct (split_caret cpath) as [path0 fd].
      cbn [fst] in *. rewrite Hl. reflexivity. }
    unfold mbind, M_bind, bind.
    destruct (pre ++ arg :: post)%list as [|a rest] eqn:E.
    { destruct pre; discriminate E. }
    rewrite Hloop. cbn. rewrite app_nil_r. reflexivity. }
  split; [exact Hrun|].
  destruct (main_build_status l w 1 w1 _ Hrun) as [Hs [t' Ht']].
  split; [exact Hs|]. rewrite Ht'.
  apply elem_of_app. left. apply elem_of_app. right. apply list_elem_of_singleton.
  reflexivity.
Qed.

(** C7.  Once every requested target has been added to the plan: if the
    plan is empty (everything is up to date), [RunBuild] prints
    [ninja: no work to do.] and returns 0, and [main] exits with 0; if the
    build then fails with some reason, [RunBuild] prints
    [ninja: build stopped: reason.] and returns 1, and [main] exits with
    1; if the build succeeds the status is 0. *)
Theorem no_work_or_build_stopped (l : Locals) (targets : list NodeP)
    (err1 err2 reason : string) (w w1 w2 w3 : W) (t1 t2 : list Event)
    (builder : B) (ok : bool) :
  let r := RunBuild env (globals l) (args l) w in
  CollectTargetsFromArgs env (state (globals l)) (args l) [] EmptyString w
  = (Val (true, targets, err1), w1, t1) ->
  RunBuild_add_targets env
    (Builder_new env (state (globals l)) (config (globals l))) targets err1 w1
  = (Val (inl (builder, err2)), w2, t2) ->
  Builder_Build env builder err2 w2 = (ok, reason, w3) ->
  if Builder_AlreadyUpToDate env builder then
    r = (Val 0, w2,
         (t1 ++ t2 ++ [Stdout ("ninja: no work to do." +:+ nl)])%list) /\
    exit_status (main_build env l w) = Some 0
  else if ok then
    r = (Val 0, w3, (t1 ++ t2 ++ [EvBuild])%list) /\
    exit_status (main_build env l w) = Some 0
  else
    r = (Val 1, w3,
         (t1 ++ t2 ++
          [EvBuild;
           Stdout ("ninja: build stopped: " +:+ reason +:+ "." +:+ nl)])%list) /\
    exit_status (main_build env l w) = Some 1.
Proof.
  intros r Hc Ha Hb. subst r.
  assert (Hrun : RunBuild env (globals l) (args l) w
    = if Builder_AlreadyUpToDate env builder then
        (Val 0, w2,
         (t1 ++ t2 ++ [Stdout ("ninja: no work to do." +:+ nl)])%list)
      else if ok then (Val 0, w3, (t1 ++ t2 ++ [EvBuild])%list)
      else (Val 1, w3,
            (t1 ++ t2 ++
             [EvBuild;
              Stdout ("ninja: build stopped: " +:+ reason +:+ "." +:+ nl)])%list)).
  { unfold RunBuild, mbind, M_bind, bind.
    rewrite Hc. cbn [negb]. rewrite Ha.
    destruct (Builder_AlreadyUpToDate env builder).
    - cbn. reflexivity.
    - unfold call. rewrite Hb. destruct ok; cbn; reflexivity. }
  destruct (Builder_AlreadyUpToDate env builder); [|destruct ok];
    (split; [exact Hrun|]);
    apply (main_build_status l w _ _ _ Hrun).
Qed.

(** ** The option loop *)

(** Decide the comparisons of the [switch] once the option is known. *)
Ltac switch_on H :=
  unfold main_switch; rewrite H;
  repeat match goal with
  | |- context [char ?a =? char ?b] =>
      let v := eval vm_compute in (char a =? char b) in
      change (char a =? char b) with v
  end;
  cbv iota.

Lemma main_options_nil er l :
  main_options (W:=W) [] er l
  = if negb (is_empty (tool l)) then ret l else ret (with_args l er).
Proof. reflexivity. Qed.

Lemma main_options_cons r cs er l :
  main_options (W:=W) (r :: cs) er l
  = if negb (is_empty (tool l)) then ret l
    else if ret_opt r =? -1 then ret (with_args l (ret_rest r))
    else main_switch r (with_args l (ret_rest r)) ≫= main_options cs er.
Proof. reflexivity. Qed.

Lemma main_options_app pre r post er er' l w :
  Forall (fun c => ret_opt c <> -1) pre ->
  main_options (W:=W) (pre ++ r :: post)%list er l w
  = (main_options pre er' l ≫= main_options (r :: post) er) w.
Proof.
  intros Hpre. revert l w. induction Hpre as [|c pre Hc Hpre IH]; intros l w.
  - cbn [app]. rewrite main_options_nil.
    destruct (is_empty (tool l)) eqn:Ht; cbn [negb]; rewrite ret_bind.
    + rewrite !main_options_cons. cbn [tool with_args]. rewrite Ht.
      reflexivity.
    + reflexivity.
  - cbn [app]. rewrite !(main_options_cons c).
    destruct (is_empty (tool l)) eqn:Ht; cbn [negb].
    + destruct (Z.eqb_spec (ret_opt c) (-1)) as [E|E]; [contradiction|].
      rewrite bind_assoc. apply bind_ext. exact IH.
    + rewrite ret_bind. rewrite main_options_cons. rewrite Ht. reflexivity.
Qed.

(** If the loop reaches a return of [getopt_long] on which the [switch]
    leaves [main], so does [main], with what was printed before. *)
Lemma main_exits_in_switch argv pre r post er l1 w w1 t1 fuel c w2 t2 :
  getopt_long env argv = {| calls := (pre ++ r :: post)%list; end_rest := er |} ->
  Forall (fun c => ret_opt c <> -1) pre ->
  main_options pre [] (main_init env argv) w = (Val l1, w1, t1) ->
  tool l1 = EmptyString ->
  ret_opt r <> -1 ->
  main_switch r (with_args l1 (ret_rest r)) w1 = (Exit c, w2, t2) ->
  main env fuel argv w = (Exit c, w2, (t1 ++ t2)%list).
Proof.
  intros Hg Hpre Hopt Htool Hr Hsw. unfold main. rewrite Hg. cbn [calls end_rest].
  unfold mbind at 1. unfold M_bind, bind.
  rewrite (main_options_app pre r post er [] _ w Hpre).
  unfold mbind at 1. unfold M_bind, bind. rewrite Hopt.
  cbn [main_options]. rewrite Htool. cbn [is_empty negb].
  destruct (Z.eqb_spec (ret_opt r) (-1)) as [E|E]; [contradiction|].
  unfold mbind at 1. unfold M_bind, bind. rewrite Hsw. reflexivity.
Qed.

(** C4 (as the code has it).  When the option loop reaches an unknown flag,
    for which [getopt_long] returns ['?'], [main] prints the usage text on
    standard error and exits with status 1: nothing else happens after what
    the options before it printed. *)
Theorem unknown_flag_usage_exit_1 (argv : list string)
    (pre : list getopt_ret) (r : getopt_ret) (post : list getopt_ret)
    (er : list string) (l1 : Locals) (w w1 : W) (t1 : list Event)
    (fuel : nat) :
  getopt_long env argv = {| calls := (pre ++ r :: post)%list; end_rest := er |} ->
  Forall (fun c => ret_opt c <> -1) pre ->
  main_options pre [] (main_init env argv) w = (Val l1, w1, t1) ->
  tool l1 = EmptyString ->
  ret_opt r = char "?" ->
  main env fuel argv w
  = (Exit 1, w1, (t1 ++ [Stderr (usage_text (config (globals l1)))])%list).
Proof.
  intros Hg Hpre Hopt Htool Hr.
  apply (main_exits_in_switch argv pre r post er l1 w w1 t1 fuel); auto.
  - rewrite Hr. discriminate.
  - switch_on Hr. reflexivity.
Qed.

Lemma strtol_no_number s :
  starts_with_number s = false -> LibC.strtol s = (0, s).
Proof.
  unfold starts_with_number, LibC.strtol.
  destruct (LibC.strtol_sign (LibC.skip_space s)) as [neg s1]. cbn [snd].
  destruct s1 as [|c s1]; [reflexivity|].
  destruct (LibC.digit_of c); [discriminate | reflexivity].
Qed.

(** C10 (as the code has it).  [-j] stores [atoi] of its argument whatever
    the argument is, and never stops the driver: the value is the decimal
    number the argument starts with (after blanks and a sign), whatever
    follows it, and 0 when it starts with no number.  An argument of [-k]
    that [strtol] does not read to its end is rejected: [main] ends with
    the fatal error and status 1, having done nothing but print. *)
Theorem j_unchecked_k_checked (argv : list string) (pre : list getopt_ret)
    (rk : getopt_ret) (post : list getopt_ret) (er : list string)
    (l1 : Locals) (w w1 : W) (t1 : list Event) (fuel : nat)
    (rj : getopt_ret) (lj : Locals) (wj : W) :
  ret_opt rj = char "j" ->
  getopt_long env argv
  = {| calls := (pre ++ rk :: post)%list; end_rest := er |} ->
  Forall (fun c => ret_opt c <> -1) pre ->
  main_options pre [] (main_init env argv) w = (Val l1, w1, t1) ->
  tool l1 = EmptyString ->
  ret_opt rk = char "k" ->
  not_numeric (ret_optarg rk) ->
  main_switch rj lj wj
  = (Val (with_config lj
            (with_parallelism (config (globals lj))
               (LibC.atoi (ret_optarg rj)))), wj, []) /\
  LibC.atoi (ret_optarg rj)
  = (if starts_with_number (ret_optarg rj)
     then CInt.to_int (LibC.strtol (ret_optarg rj)).1 else 0) /\
  main env fuel argv w
  = (Exit 1, w1,
     (t1 ++ [EvFatal "-k parameter not numeric; did you mean -k0?"])%list) /\
  count is_work (events (main env fuel argv w)) = 0%nat.
Proof.
  intros Hj Hg Hpre Hopt Htool Hk Hnn.
  assert (Hmain : main env fuel argv w
    = (Exit 1, w1,
       (t1 ++ [EvFatal "-k parameter not numeric; did you mean -k0?"])%list)).
  { apply (main_exits_in_switch argv pre rk post er l1 w w1 t1 fuel); auto.
    - rewrite Hk. discriminate.
    - switch_on Hk. unfold not_numeric in Hnn.
      destruct (LibC.strtol (ret_optarg rk)) as [v end_]. cbn [snd] in Hnn.
      destruct end_; [congruence | reflexivity]. }
  split; [switch_on Hj; reflexivity|].
  split.
  { destruct (starts_with_number (ret_optarg rj)) eqn:E; [reflexivity|].
    unfold LibC.atoi. rewrite (strtol_no_number _ E). reflexivity. }
  split; [exact Hmain|].
  rewrite Hmain. unfold events. cbn [snd]. rewrite count_app.
  pose proof (main_options_prints pre [] (main_init env argv) w) as [Hc _].
  rewrite Hopt in Hc. cbn [snd] in Hc.
  change (count is_work [EvFatal "-k parameter not numeric; did you mean -k0?"])
    with 0%nat. lia.
Qed.

(** C1 (as the code has it).  For every [N] (an [int] whose predecessor is
    an [int]) given to [-k] in decimal, the driver stores
    [swallow_failures = N - 1]: the builder is to ignore the first [N - 1]
    failures and stop at the next, the [N]th.  For [N >= 1] this is the
    budget of the spec, and the default is the configuration of [-k 1].
    [N < 1] is not a special case: the number stored is then negative. *)
Theorem k_stores_N_minus_1 (N : Z) (r : getopt_ret) (l : Locals) (w : W)
    (argv : list string) :
  ret_opt r = char "k" ->
  ret_optarg r = LibC.string_of_Z N ->
  CInt.INT_MIN < N <= CInt.INT_MAX ->
  let c := with_swallow_failures (config (globals l)) (N - 1) in
  main_switch r l w = (Val (with_config l c), w, []) /\
  swallow_failures c = N - 1 /\
  config_tolerance c
  = (if 1 <=? N then spec_tolerance N else Tolerate (N - 1)) /\
  config_tolerance (config (globals (main_init env argv))) = spec_tolerance 1.
Proof.
  intros Hk Harg HN c. subst c. repeat apply conj.
  - switch_on Hk. rewrite Harg.
    rewrite strtol_string_of_Z
      by (unfold CInt.INT_MIN, CInt.INT_MAX, CInt.LONG_MIN, CInt.LONG_MAX in *;
          lia).
    cbn [is_empty negb]. rewrite ret_bind.
    rewrite (to_int_id N) by (unfold CInt.in_int; lia).
    rewrite (to_int_id (N - 1))
      by (unfold CInt.in_int, CInt.INT_MIN, CInt.INT_MAX in *; lia).
    reflexivity.
  - reflexivity.
  - unfold config_tolerance, spec_tolerance.
    cbn [swallow_failures with_swallow_failures].
    destruct (Z.leb_spec 1 N); [|reflexivity].
    destruct (Z.ltb_spec N 1); [lia | reflexivity].
  - reflexivity.
Qed.

Lemma main_switch_parallelism r l w l' w' t :
  ret_opt r <> char "j" ->
  main_switch (W:=W) r l w = (Val l', w', t) ->
  parallelism (config (globals l')) = parallelism (config (globals l)).
Proof.
  intros Hj. unfold main_switch.
  destruct (ret_opt r =? char "d").
  { unfold DebugEnable, mbind, M_bind, bind, printf, emit, exit, ret.
    destruct (String.eqb (ret_optarg r) "list"); [discriminate|].
    destruct (String.eqb (ret_optarg r) "stats"); [|discriminate].
    cbn. intros H. injection H; intros; subst. reflexivity. }
  destruct (ret_opt r =? char "f");
    [intros H; injection H; intros; subst; reflexivity|].
  destruct (Z.eqb_spec (ret_opt r) (char "j")) as [E|E]; [contradiction|].
  destruct (ret_opt r =? char "k").
  { destruct (LibC.strtol (ret_optarg r)) as [v end_].
    unfold mbind, M_bind, bind, Fatal, emit, exit, ret.
    destruct (is_empty end_); cbn; [|discriminate].
    intros H; injection H; intros; subst. reflexivity. }
  destruct (ret_opt r =? char "n");
    [intros H; injection H; intros; subst; reflexivity|].
  destruct (ret_opt r =? char "v");
    [intros H; injection H; intros; subst; reflexivity|].
  destruct (ret_opt r =? char "t");
    [intros H; injection H; intros; subst; reflexivity|].
  destruct (ret_opt r =? char "C");
    [intros H; injection H; intros; subst; reflexivity|].
  discriminate.
Qed.

Lemma main_options_parallelism cs er l w l' w' t :
  Forall (fun c => ret_opt c <> char "j") cs ->
  main_options (W:=W) cs er l w = (Val l', w', t) ->
  parallelism (config (globals l')) = parallelism (config (globals l)).
Proof.
  intros Hcs. revert l w t. induction Hcs as [|c cs Hc Hcs IH]; intros l w t.
  - rewrite main_options_nil.
    destruct (is_empty (tool l)); cbn; intros H; injection H; intros; subst;
      reflexivity.
  - rewrite main_options_cons.
    destruct (is_empty (tool l)); cbn [negb];
      [|intros H; injection H; intros; subst; reflexivity].
    destruct (ret_opt c =? -1);
      [intros H; injection H; intros; subst; reflexivity|].
    unfold mbind, M_bind, bind.
    destruct (main_switch c (with_args l (ret_rest c)) w)
      as [[[l1|c1] w1] t1] eqn:Hsw; [|discriminate].
    destruct (main_options cs er l1 w1) as [[x w2] t2] eqn:Hrest.
    intros H. injection H; intros; subst.
    rewrite (IH _ _ _ Hrest).
    apply (main_switch_parallelism _ _ _ _ _ _ Hc Hsw).
Qed.

Lemma GuessParallelism_of_spec n :
  0 <= n <= CInt.INT_MAX - 2 ->
  GuessParallelism_of n = default_jobs n.
Proof.
  intros Hn. unfold default_jobs.
  destruct (Z.leb_spec n 1) as [H1|H1].
  { assert (n = 0 \/ n = 1) as [-> | ->] by lia; reflexivity. }
  destruct (Z.eqb_spec n 2) as [->|H2]; [reflexivity|].
  assert (Hd : GuessParallelism_of n = CInt.to_int (n + 2)).
  { unfold GuessParallelism_of.
    destruct n as [|[p|[p|p|]|]|p]; try reflexivity; lia. }
  rewrite Hd. apply to_int_id.
  unfold CInt.in_int, CInt.INT_MIN, CInt.INT_MAX in *. lia.
Qed.

(** C2 (as the code has it).  When [getopt_long] returns no [-j], the
    parallelism the option loop ends with is the guess made at the start of
    [main]: with [n] processors detected ([n + 2] being an [int]) it is 2
    for [n = 0] and [n = 1], 3 for [n = 2] and [n + 2] from [n = 3] on.  It
    is at least 2 and at most [n + 2]. *)
Theorem default_parallelism (argv : list string) (l : Locals) (w w' : W)
    (t : list Event) :
  let n := detected_processors (platform env) in
  let run := getopt_long env argv in
  0 <= n <= CInt.INT_MAX - 2 ->
  Forall (fun c => ret_opt c <> char "j") (calls run) ->
  main_options (calls run) (end_rest run) (main_init env argv) w
  = (Val l, w', t) ->
  parallelism (config (globals l)) = default_jobs n /\
  2 <= parallelism (config (globals l)) <= n + 2.
Proof.
  intros n run Hn Hj Hopt.
  rewrite (main_options_parallelism _ _ _ _ _ _ _ Hj Hopt).
  cbn [main_init globals config parallelism with_parallelism].
  unfold GuessParallelism. fold n. rewrite (GuessParallelism_of_spec n Hn).
  split; [reflexivity|]. unfold default_jobs.
  destruct (Z.leb_spec n 1); [lia|].
  destruct (Z.eqb_spec n 2); lia.
Qed.

End DriverFacts.

(** ** The theorems at work on concrete command lines *)

Lemma k_stores_N_minus_1_witness :
  ret_opt (Getopt.mk_ret (char "k") "3" []) = char "k" /\
  ret_optarg (Getopt.mk_ret (char "k") "3" []) = LibC.string_of_Z 3 /\
  CInt.INT_MIN < 3 <= CInt.INT_MAX /\
  exists l,
    main_switch (Getopt.mk_ret (char "k") "3" [])
      (Sample.locals "" "" []) Sample.no_dirs = (Val l, Sample.no_dirs, []) /\
    swallow_failures (config (globals l)) = 2.
Proof.
  assert (H1 : ret_opt (Getopt.mk_ret (char "k") "3" []) = char "k")
    by reflexivity.
  assert (H2 : ret_optarg (Getopt.mk_ret (char "k") "3" [])
               = LibC.string_of_Z 3) by reflexivity.
  assert (H3 : CInt.INT_MIN < 3 <= CInt.INT_MAX)
    by (vm_compute; intuition discriminate).
  split; [exact H1|]. split; [exact H2|]. split; [exact H3|].
  destruct (k_stores_N_minus_1 Sample.quiet_env 3
              (Getopt.mk_ret (char "k") "3" []) (Sample.locals "" "" [])
              Sample.no_dirs ["ninja"] H1 H2 H3) as [H _].
  eexists. split; [exact H | reflexivity].
Defined.

(** [-k 0] configures a tolerance of -1 failures, where the spec has no
    limit. *)
Lemma k_zero_stores_minus_1 :
  exists l,
    main_options (W:=list string)
      (calls (Getopt.getopt_long ["ninja"; "-k"; "0"]))
      (end_rest (Getopt.getopt_long ["ninja"; "-k"; "0"]))
      (main_init Sample.quiet_env ["ninja"; "-k"; "0"]) Sample.no_dirs
    = (Val l, Sample.no_dirs, []) /\
    swallow_failures (config (globals l)) = -1 /\
    config_tolerance (config (globals l)) = Tolerate (-1) /\
    spec_tolerance 0 = NoLimit /\
    config_tolerance (config (globals l)) <> spec_tolerance 0.
Proof.
  eexists. split; [reflexivity|]. split; [reflexivity|].
  split; [reflexivity|]. split; [reflexivity|]. discriminate.
Qed.

Lemma default_parallelism_witness :
  0 <= detected_processors (platform Sample.quiet_env) <= CInt.INT_MAX - 2 /\
  Forall (fun c => ret_opt c <> char "j")
    (calls (getopt_long Sample.quiet_env ["ninja"; "-n"; "foo.o"])) /\
  exists l,
    main_options (W:=list string)
      (calls (getopt_long Sample.quiet_env ["ninja"; "-n"; "foo.o"]))
      (end_rest (getopt_long Sample.quiet_env ["ninja"; "-n"; "foo.o"]))
      (main_init Sample.quiet_env ["ninja"; "-n"; "foo.o"]) Sample.no_dirs
    = (Val l, Sample.no_dirs, []) /\
    parallelism (config (globals l)) = 6.
Proof.
  assert (H1 : 0 <= detected_processors (platform Sample.quiet_env)
               <= CInt.INT_MAX - 2) by (vm_compute; intuition discriminate).
  assert (H2 : Forall (fun c => ret_opt c <> char "j")
                 (calls (getopt_long Sample.quiet_env ["ninja"; "-n"; "foo.o"]))).
  { vm_compute. repeat constructor. discriminate. }
  split; [exact H1|]. split; [exact H2|].
  eexists. split; [reflexivity|].
  exact (proj1 (default_parallelism Sample.quiet_env
                  ["ninja"; "-n"; "foo.o"] _ Sample.no_dirs Sample.no_dirs []
                  H1 H2 eq_refl)).
Defined.

(** With one processor the default is 2, not 1 + 2. *)
Lemma one_processor_two_jobs :
  GuessParallelism (Linux 1) = 2 /\
  GuessParallelism (Linux 1) <> detected_processors (Linux 1) + 2.
Proof. split; [reflexivity | discriminate]. Qed.

Lemma unknown_flag_usage_exit_1_witness :
  getopt_long Sample.quiet_env ["ninja"; "-n"; "-x"]
  = {| calls := ([Getopt.mk_ret (char "n") "" ["-x"]] ++
                 Getopt.mk_ret (char "?") "" [] :: [])%list;
       end_rest := [] |} /\
  Forall (fun c => ret_opt c <> -1) [Getopt.mk_ret (char "n") "" ["-x"]] /\
  ret_opt (Getopt.mk_ret (char "?") "" []) = char "?" /\
  exists l1,
    main_options [Getopt.mk_ret (char "n") "" ["-x"]] []
      (main_init Sample.quiet_env ["ninja"; "-n"; "-x"]) Sample.no_dirs
    = (Val l1, Sample.no_dirs, []) /\
    tool l1 = EmptyString /\
    main Sample.quiet_env 2 ["ninja"; "-n"; "-x"] Sample.no_dirs
    = (Exit 1, Sample.no_dirs,
       [Stderr (usage_text (config (globals l1)))]).
Proof.
  assert (H1 : getopt_long Sample.quiet_env ["ninja"; "-n"; "-x"]
    = {| calls := ([Getopt.mk_ret (char "n") "" ["-x"]] ++
                   Getopt.mk_ret (char "?") "" [] :: [])%list;
         end_rest := [] |}) by reflexivity.
  assert (H2 : Forall (fun c => ret_opt c <> -1)
                 [Getopt.mk_ret (char "n") "" ["-x"]]).
  { repeat constructor. discriminate. }
  assert (H3 : ret_opt (Getopt.mk_ret (char "?") "" []) = char "?")
    by reflexivity.
  split; [exact H1|]. split; [exact H2|]. split; [exact H3|].
  eexists. split; [reflexivity|]. split; [reflexivity|].
  exact (unknown_flag_usage_exit_1 Sample.quiet_env ["ninja"; "-n"; "-x"]
           _ _ _ _ _ Sample.no_dirs Sample.no_dirs [] 2
           H1 H2 eq_refl eq_refl H3).
Defined.

(** An unknown flag ends [main] with status 1, not 2. *)
Lemma unknown_flag_exits_1_not_2 :
  ret_opt <$> calls (Getopt.getopt_long ["ninja"; "-x"]) = [char "?"] /\
  exit_status (main Sample.quiet_env 2 ["ninja"; "-x"] Sample.no_dirs)
  = Some 1 /\
  exit_status (main Sample.quiet_env 2 ["ninja"; "-x"] Sample.no_dirs)
  <> Some 2.
Proof. split; [reflexivity|]. split; [reflexivity | discriminate]. Qed.

Lemma caret_target_first_output_witness :
  CanonicalizePath Sample.quiet_env "foo.cc^" ""
  = (true, "foo.cc" +:+ "^", "") /\
  LookupNode (Sample.graph "") "foo.cc" = Some 0%nat /\
  CollectTargetsFromArgs Sample.quiet_env (Sample.graph "") ["foo.cc^"] []
    "" Sample.no_dirs
  = (Val (true, [1%nat], ""), Sample.no_dirs, []).
Proof.
  assert (H1 : CanonicalizePath Sample.quiet_env "foo.cc^" ""
               = (true, "foo.cc" +:+ "^", "")) by reflexivity.
  assert (H2 : LookupNode (Sample.graph "") "foo.cc" = Some 0%nat)
    by reflexivity.
  split; [exact H1|]. split; [exact H2|].
  exact (proj2 (caret_target_first_output Sample.quiet_env (Sample.graph "")
                  "foo.cc^" [] [] "" "" "foo.cc" 0%nat Sample.no_dirs H1 H2)).
Defined.

Lemma unknown_target_is_fatal_witness :
  args (Sample.locals "" "" ["foo.cc^"; "foo.c"])
  = (["foo.cc^"] ++ "foo.c" :: [])%list /\
  CollectTargets_loop Sample.quiet_env (Sample.graph "") ["foo.cc^"] [] ""
    Sample.no_dirs
  = (Val (true, [1%nat], ""), Sample.no_dirs, []) /\
  CanonicalizePath Sample.quiet_env "foo.c" "" = (true, "foo.c", "") /\
  LookupNode (Sample.graph "") (split_caret "foo.c").1 = None /\
  RunBuild Sample.quiet_env (globals (Sample.locals "" "" ["foo.cc^"; "foo.c"]))
    ["foo.cc^"; "foo.c"] Sample.no_dirs
  = (Val 1, Sample.no_dirs,
     [EvError "unknown target 'foo.c', did you mean 'foo.cc'?"]) /\
  exit_status (main_build Sample.quiet_env
                 (Sample.locals "" "" ["foo.cc^"; "foo.c"]) Sample.no_dirs)
  = Some 1.
Proof.
  assert (H1 : args (Sample.locals "" "" ["foo.cc^"; "foo.c"])
               = (["foo.cc^"] ++ "foo.c" :: [])%list) by reflexivity.
  assert (H2 : CollectTargets_loop Sample.quiet_env (Sample.graph "")
                 ["foo.cc^"] [] "" Sample.no_dirs
               = (Val (true, [1%nat], ""), Sample.no_dirs, []))
    by reflexivity.
  assert (H3 : CanonicalizePath Sample.quiet_env "foo.c" ""
               = (true, "foo.c", "")) by reflexivity.
  assert (H4 : LookupNode (Sample.graph "") (split_caret "foo.c").1 = None)
    by reflexivity.
  split; [exact H1|]. split; [exact H2|]. split; [exact H3|].
  split; [exact H4|].
  destruct (unknown_target_is_fatal Sample.quiet_env
              (Sample.locals "" "" ["foo.cc^"; "foo.c"]) ["foo.cc^"] "foo.c"
              [] [1%nat] "" "foo.c" "" Sample.no_dirs Sample.no_dirs []
              H1 H2 H3 H4) as (Hr & Hs & _).
  split; [exact Hr | exact Hs].
Defined.

Lemma no_work_or_build_stopped_witness :
  CollectTargetsFromArgs Sample.failing_env
    (state (globals (Sample.locals "out" "" ["foo.o"]))) ["foo.o"] [] ""
    Sample.no_dirs
  = (Val (true, [1%nat], ""), Sample.no_dirs, []) /\
  RunBuild_add_targets Sample.failing_env
    (Builder_new Sample.failing_env
       (state (globals (Sample.locals "out" "" ["foo.o"])))
       (config (globals (Sample.locals "out" "" ["foo.o"]))))
    [1%nat] "" Sample.no_dirs
  = (Val (inl (false, "")), Sample.no_dirs, [EvAddTarget 1%nat]) /\
  Builder_Build Sample.failing_env false "" Sample.no_dirs
  = (false, "subcommand failed", Sample.no_dirs) /\
  RunBuild Sample.failing_env (globals (Sample.locals "out" "" ["foo.o"]))
    ["foo.o"] Sample.no_dirs
  = (Val 1, Sample.no_dirs,
     [EvAddTarget 1%nat; EvBuild;
      Stdout ("ninja: build stopped: subcommand failed." +:+ nl)]) /\
  exit_status (main_build Sample.failing_env
                 (Sample.locals "out" "" ["foo.o"]) Sample.no_dirs)
  = Some 1.
Proof.
  assert (H1 : CollectTargetsFromArgs Sample.failing_env
    (state (globals (Sample.locals "out" "" ["foo.o"]))) ["foo.o"] [] ""
    Sample.no_dirs
    = (Val (true, [1%nat], ""), Sample.no_dirs, [])) by reflexivity.
  assert (H2 : RunBuild_add_targets Sample.failing_env
    (Builder_new Sample.failing_env
       (state (globals (Sample.locals "out" "" ["foo.o"])))
       (config (globals (Sample.locals "out" "" ["foo.o"]))))
    [1%nat] "" Sample.no_dirs
    = (Val (inl (false, "")), Sample.no_dirs, [EvAddTarget 1%nat]))
    by reflexivity.
  assert (H3 : Builder_Build Sample.failing_env false "" Sample.no_dirs
    = (false, "subcommand failed", Sample.no_dirs)) by reflexivity.
  split; [exact H1|]. split; [exact H2|]. split; [exact H3|].
  exact (no_work_or_build_stopped Sample.failing_env
           (Sample.locals "out" "" ["foo.o"]) [1%nat] "" ""
           "subcommand failed" Sample.no_dirs Sample.no_dirs Sample.no_dirs
           Sample.no_dirs [] [EvAddTarget 1%nat] false false H1 H2 H3).
Defined.

Lemma build_log_path_witness :
  tool (Sample.locals "out" "" ["foo.o"]) = EmptyString /\
  MakeDir Sample.failing_env
    (LookupVariable (state (globals (Sample.locals "out" "" ["foo.o"])))
       "builddir") ["out"]
  = (-1, ["out"]) /\
  errno Sample.failing_env ["out"] = EEXIST /\
  (forall p,
     EvBuildLogLoad p ∈
       events (main_loaded Sample.failing_env
                 (Sample.locals "out" "" ["foo.o"]) true "" ["out"]) \/
     EvBuildLogOpenForWrite p ∈
       events (main_loaded Sample.failing_env
                 (Sample.locals "out" "" ["foo.o"]) true "" ["out"]) ->
     p = "out/.ninja_log") /\
  exists t,
    events (main_loaded Sample.failing_env
              (Sample.locals "out" "" ["foo.o"]) true "" ["out"])
    = EvMakeDir "out" :: EvBuildLogLoad "out/.ninja_log" :: t.
Proof.
  assert (H1 : tool (Sample.locals "out" "" ["foo.o"]) = EmptyString)
    by reflexivity.
  assert (H2 : MakeDir Sample.failing_env
    (LookupVariable (state (globals (Sample.locals "out" "" ["foo.o"])))
       "builddir") ["out"] = (-1, ["out"])) by reflexivity.
  split; [exact H1|]. split; [exact H2|]. split; [reflexivity|].
  destruct (build_log_path Sample.failing_env
              (Sample.locals "out" "" ["foo.o"]) "" ["out"] (-1) ["out"]
              H1 H2) as [Hp Hrest].
  split; [exact Hp|].
  vm_compute in Hrest. destruct Hrest as [_ Hrest]. exact Hrest.
Defined.

Lemma tool_mode_skips_log_and_rebuild_witness :
  tool (Sample.locals "" "browse" ["foo.o"]) <> EmptyString /\
  ManifestParser_Load Sample.quiet_env
    (state (globals (Sample.locals "" "browse" ["foo.o"]))) "build.ninja" ""
    Sample.no_dirs
  = (true, Sample.graph "", "", Sample.no_dirs) /\
  ("browse", "browse dependency graph in a web browser",
   ToolBrowse Sample.quiet_env) ∈ tools Sample.quiet_env /\
  count is_log_or_rebuild
    (events (main_reload Sample.quiet_env 2
               (Sample.locals "" "browse" ["foo.o"]) Sample.no_dirs))
  = 0%nat /\
  main_reload Sample.quiet_env 2 (Sample.locals "" "browse" ["foo.o"])
    Sample.no_dirs
  = (Exit 1, Sample.no_dirs,
     [EvParserLoad "build.ninja"; EvTool "browse" ["foo.o"]]).
Proof.
  assert (H1 : tool (Sample.locals "" "browse" ["foo.o"]) <> EmptyString)
    by discriminate.
  assert (H2 : ManifestParser_Load Sample.quiet_env
      (state (globals (Sample.locals "" "browse" ["foo.o"]))) "build.ninja"
      "" Sample.no_dirs
    = (true, Sample.graph "", "", Sample.no_dirs)) by reflexivity.
  assert (H3 : ("browse", "browse dependency graph in a web browser",
                ToolBrowse Sample.quiet_env) ∈ tools Sample.quiet_env).
  { apply (list_elem_of_lookup_2 _ 0%nat). reflexivity. }
  split; [exact H1|]. split; [exact H2|]. split; [exact H3|].
  destruct (tool_mode_skips_log_and_rebuild Sample.quiet_env
              (Sample.locals "" "browse" ["foo.o"]) 1 Sample.no_dirs true
              (Sample.graph "") "" Sample.no_dirs [] []
              (Sample.locals "" "browse" ["foo.o"]) Sample.no_dirs H1 H2)
    as (Hc & _ & _ & _ & Hx).
  split; [exact Hc|].
  exact (Hx ("browse", "browse dependency graph in a web browser",
             ToolBrowse Sample.quiet_env) H3 eq_refl).
Defined.

Lemma j_unchecked_k_checked_witness :
  ret_opt (Getopt.mk_ret (char "j") "4x" []) = char "j" /\
  getopt_long Sample.quiet_env ["ninja"; "-n"; "-k"; "1x"]
  = {| calls := ([Getopt.mk_ret (char "n") "" ["-k"; "1x"]] ++
                 Getopt.mk_ret (char "k") "1x" [] :: [])%list;
       end_rest := [] |} /\
  Forall (fun c => ret_opt c <> -1)
    [Getopt.mk_ret (char "n") "" ["-k"; "1x"]] /\
  ret_opt (Getopt.mk_ret (char "k") "1x" []) = char "k" /\
  not_numeric (ret_optarg (Getopt.mk_ret (char "k") "1x" [])) /\
  LibC.atoi "4x" = 4 /\
  main Sample.quiet_env 2 ["ninja"; "-n"; "-k"; "1x"] Sample.no_dirs
  = (Exit 1, Sample.no_dirs,
     [EvFatal "-k parameter not numeric; did you mean -k0?"]).
Proof.
  assert (H1 : ret_opt (Getopt.mk_ret (char "j") "4x" []) = char "j")
    by reflexivity.
  assert (H2 : getopt_long Sample.quiet_env ["ninja"; "-n"; "-k"; "1x"]
    = {| calls := ([Getopt.mk_ret (char "n") "" ["-k"; "1x"]] ++
                   Getopt.mk_ret (char "k") "1x" [] :: [])%list;
         end_rest := [] |}) by reflexivity.
  assert (H3 : Forall (fun c => ret_opt c <> -1)
                 [Getopt.mk_ret (char "n") "" ["-k"; "1x"]]).
  { repeat constructor. discriminate. }
  assert (H4 : ret_opt (Getopt.mk_ret (char "k") "1x" []) = char "k")
    by reflexivity.
  assert (H5 : not_numeric (ret_optarg (Getopt.mk_ret (char "k") "1x" [])))
    by discriminate.
  split; [exact H1|]. split; [exact H2|]. split; [exact H3|].
  split; [exact H4|]. split; [exact H5|]. split; [reflexivity|].
  destruct (j_unchecked_k_checked Sample.quiet_env
              ["ninja"; "-n"; "-k"; "1x"] _ _ _ _ _ Sample.no_dirs
              Sample.no_dirs [] 2 (Getopt.mk_ret (char "j") "4x" [])
              (Sample.locals "" "" []) Sample.no_dirs
              H1 H2 H3 eq_refl eq_refl H4 H5) as (_ & _ & Hm & _).
  exact Hm.
Defined.

(** [-j 4x] is not numeric by the test of [-k], and sets the parallelism
    to 4. *)
Lemma j_4x_runs_four_jobs :
  not_numeric "4x" /\
  exists l,
    main_options (W:=list string)
      (calls (Getopt.getopt_long ["ninja"; "-j"; "4x"]))
      (end_rest (Getopt.getopt_long ["ninja"; "-j"; "4x"]))
      (main_init Sample.quiet_env ["ninja"; "-j"; "4x"]) Sample.no_dirs
    = (Val l, Sample.no_dirs, []) /\
    parallelism (config (globals l)) = 4 /\
    parallelism (config (globals l)) <> 0.
Proof.
  split; [discriminate|].
  eexists. split; [reflexivity|]. split; [reflexivity | discriminate].
Qed.

(** A manifest whose rebuild always does work: one rebuild, one reset, a
    second pass without rebuild, then the build of the default target. *)
Example always_dirty_manifest_reloads_once :
  let r := main (Sample.env "out" (Some 2%nat) true false true) 9
             ["ninja"] Sample.no_dirs in
  exit_status r = Some 0 /\
  events r
  = [ EvParserLoad "build.ninja"; EvMakeDir "out";
      EvBuildLogLoad "out/.ninja_log";
      EvBuildLogOpenForWrite "out/.ninja_log";
      EvRebuildManifest "build.ninja"; EvAddTarget 2%nat; EvBuild;
      EvResetState;
      EvParserLoad "build.ninja"; EvMakeDir "out";
      EvBuildLogLoad "out/.ninja_log";
      EvBuildLogOpenForWrite "out/.ninja_log";
      EvAddTarget 1%nat; EvBuild ].
Proof. split; reflexivity. Qed.

(** The options are read up to the tool; what follows is for the tool. *)
Example tool_ends_the_options :
  let r := main Sample.quiet_env 2 ["ninja"; "-n"; "-t"; "clean"; "-g"]
             Sample.no_dirs in
  exit_status r = Some 0 /\
  events r = [EvParserLoad "build.ninja"; EvTool "clean" ["-g"]].
Proof. split; reflexivity. Qed.

(** [strtol] and [atoi] on a few arguments. *)
Example strtol_examples :
  LibC.strtol " -12ab" = (-12, "ab") /\
  LibC.strtol "abc" = (0, "abc") /\
  LibC.strtol "" = (0, "") /\
  LibC.strtol "-" = (0, "-") /\
  LibC.atoi "abc" = 0 /\
  LibC.atoi "0" = 0 /\
  LibC.atoi "12" = 12.
Proof. repeat split; reflexivity. Qed.

(** * Further properties of the driver *)

Section MoreDriverFacts.

Context {W B : Type} (env : Env W B).

(** ** The manifest rebuild *)

(** X1.  [RebuildManifest] never leaves [main] by itself, and it reports a
    rebuild only when the canonical manifest path is a node of the graph,
    the node was added to a builder that then had work to do, and the build
    ran and succeeded: its events are then the addition of that node and one
    build.  When the path is no node of the graph it answers [false]
    without touching a builder. *)
Theorem RebuildManifest_true_iff_built (st : State) (c : BuildConfig)
    (file err : string) (w : W) :
  exists rebuilt err' w' t,
    RebuildManifest env st c file err w = (Val (rebuilt, err'), w', t) /\
    (rebuilt = true ->
     exists path err0 node b err1 w1,
       CanonicalizePath env file err = (true, path, err0) /\
       LookupNode st path = Some node /\
       Builder_AddTarget env (Builder_new env st c) node err0 w
       = (true, b, err1, w1) /\
       Builder_AlreadyUpToDate env b = false /\
       Builder_Build env b err1 w1 = (true, err', w') /\
       t = [EvRebuildManifest file; EvAddTarget node; EvBuild]) /\
    ((forall path err0,
        CanonicalizePath env file err = (true, path, err0) ->
        LookupNode st path = None) ->
     rebuilt = false /\ w' = w /\ t = [EvRebuildManifest file]).
Proof.
  unfold RebuildManifest, mbind, M_bind, bind, emit, call, ret.
  destruct (CanonicalizePath env file err) as [[ok path] err0] eqn:Hc.
  destruct ok; cbn [negb].
  2:{ eexists _, _, _, _. split; [reflexivity|]. split; [discriminate|].
      intros _. auto. }
  destruct (LookupNode st path) as [node|] eqn:Hl.
  2:{ eexists _, _, _, _. split; [reflexivity|]. split; [discriminate|].
      intros _. auto. }
  destruct (Builder_AddTarget env (Builder_new env st c) node err0 w)
    as [[[ok1 b] err1] w1] eqn:Ha.
  destruct ok1; cbn [negb].
  2:{ eexists _, _, _, _. split; [reflexivity|]. split; [discriminate|].
      intros H. rewrite (H _ _ eq_refl) in Hl. discriminate. }
  destruct (Builder_AlreadyUpToDate env b) eqn:Hu.
  { eexists _, _, _, _. split; [reflexivity|]. split; [discriminate|].
    intros H. rewrite (H _ _ eq_refl) in Hl. discriminate. }
  destruct (Builder_Build env b err1 w1) as [[ok2 err2] w2] eqn:Hb.
  eexists _, _, _, _. split; [reflexivity|]. split.
  - intros ->. exists path, err0, node, b, err1, w1. auto 10.
  - intros H. rewrite (H _ _ eq_refl) in Hl. discriminate.
Qed.

(** ** The targets of the command line *)

(** X2.  When [CollectTargetsFromArgs] succeeds on a non-empty command
    line, it has touched nothing and emitted nothing, the targets
    collected before are kept in front, and exactly one target is added per
    argument, in the order of the arguments, each being the node the
    argument stands for. *)
Theorem CollectTargets_one_target_per_argument (st : State)
    (argv : list string) (targets : list NodeP) (err : string) (w : W)
    (ts : list NodeP) (err' : string) (w' : W) (t : list Event) :
  CollectTargets_loop env st argv targets err w
  = (Val (true, ts, err'), w', t) ->
  w' = w /\ t = [] /\
  exists new,
    ts = (targets ++ new)%list /\
    length new = length argv /\
    Forall2 (resolves env st) argv new.
Proof.
  revert targets err. induction argv as [|arg argv IH]; intros targets err H.
  - cbn in H. injection H; intros; subst.
    split; [reflexivity|]. split; [reflexivity|].
    exists []. rewrite app_nil_r. split; [reflexivity|].
    split; [reflexivity | constructor].
  - cbn [CollectTargets_loop] in H.
    destruct (CanonicalizePath env arg err) as [[ok path] err0] eqn:Hc.
    destruct ok; cbn [negb] in H; [|discriminate H].
    destruct (split_caret path) as [path0 fd] eqn:Hs.
    destruct (LookupNode st path0) as [node|] eqn:Hl; [|discriminate H].
    assert (Hstep : forall n,
      resolves env st arg n ->
      CollectTargets_loop env st argv (targets ++ [n])%list err0 w
      = (Val (true, ts, err'), w', t) ->
      w' = w /\ t = [] /\
      exists new, ts = (targets ++ new)%list /\
                  length new = length (arg :: argv) /\
                  Forall2 (resolves env st) (arg :: argv) new).
    { intros n Hn Hrec.
      destruct (IH _ _ Hrec) as (-> & -> & new & -> & Hlen & Hall).
      split; [reflexivity|]. split; [reflexivity|].
      exists (n :: new). rewrite <- app_assoc. split; [reflexivity|].
      split; [cbn; lia | constructor; assumption]. }
    destruct fd.
    + destruct (out_edges st node) as [|edge es] eqn:Ho; [discriminate H|].
      destruct (outputs_ st edge) as [|out os] eqn:Hout; [discriminate H|].
      apply (Hstep out); [|exact H].
      exists err, path, err0. split; [exact Hc|].
      exists node. rewrite Hs. cbn [fst snd]. split; [exact Hl|].
      exists edge. rewrite Ho, Hout. auto.
    + apply (Hstep node); [|exact H].
      exists err, path, err0. split; [exact Hc|].
      exists node. rewrite Hs. cbn [fst snd]. auto.
Qed.

(** ** The table of subtools *)

Lemma print_tools_events (ts : list (string * string * ToolFunc)) (w : W) :
  print_tools ts w
  = (Val tt, w,
     map (fun t => Stdout (LibC.pad_left 10 (tool_name t) +:+ "  " +:+
                           tool_desc t +:+ nl)) ts).
Proof.
  induction ts as [|x ts IH]; [reflexivity|].
  cbn [print_tools map]. unfold mbind, M_bind, bind, printf, emit.
  rewrite IH. reflexivity.
Qed.

Lemma find_tool_none name (ts : list (string * string * ToolFunc (W:=W))) :
  name ∉ map tool_name ts ->
  List.find (fun t => String.eqb name (tool_name t)) ts = None.
Proof.
  induction ts as [|x ts IH]; intros Hn; [reflexivity|].
  cbn [List.find]. destruct (String.eqb_spec name (tool_name x)) as [E|E].
  - exfalso. apply Hn. rewrite E. cbn. left.
  - apply IH. intros H. apply Hn. cbn. right. exact H.
Qed.

(** X3.  Whatever is in the table of [RunTool] under a name is what runs
    for that name: for every entry of the table, [RunTool] on its name
    calls the function of that very entry, once, on the arguments given,
    and returns its status, or ends the process as that function does: no
    entry is hidden by an earlier one or by [list]. *)
Theorem RunTool_runs_the_entry_of_the_name
    (x : string * string * ToolFunc) (g : Globals) (argv : list string)
    (w : W) :
  x ∈ tools env ->
  RunTool env (tool_name x) g argv w
  = ((tool_func x g argv w).1, (tool_func x g argv w).2,
     [EvTool (tool_name x) argv]).
Proof. apply RunTool_entry. Qed.

(** X4.  [RunTool] runs no tool for the name [list] or for a name that is
    not in its table: [list] prints a header and one line per tool of the
    table and returns 0; an unknown name is reported, with the suggestion
    of the spellchecker if there is one, and returns 1.  In both cases the
    world is left as it was. *)
Theorem RunTool_list_and_unknown (name : string) (g : Globals)
    (argv : list string) (w : W) :
  name ∉ map tool_name (tools env) ->
  RunTool env name g argv w
  = if String.eqb name "list" then
      (Val 0, w,
       Stdout ("ninja subtools:" +:+ nl) ::
       map (fun t => Stdout (LibC.pad_left 10 (tool_name t) +:+ "  " +:+
                             tool_desc t +:+ nl)) (tools env))
    else
      (Val 1, w,
       [EvError
          match SpellcheckStringV env name (map tool_name (tools env)) with
          | Some suggestion =>
              "unknown tool '" +:+ name +:+ "', did you mean '" +:+
              suggestion +:+ "'?"
          | None => "unknown tool '" +:+ name +:+ "'"
          end]).
Proof.
  intros Hn. unfold RunTool.
  destruct (String.eqb name "list").
  - unfold mbind, M_bind, bind, printf, emit. rewrite print_tools_events.
    cbn. rewrite app_nil_r. reflexivity.
  - rewrite (find_tool_none name _ Hn).
    destruct (SpellcheckStringV env name (map tool_name (tools env)));
      reflexivity.
Qed.

(** ** The end of the option loop *)

Lemma main_options_tool_named cs er l (w : W) :
  tool l <> EmptyString -> main_options cs er l w = (Val l, w, []).
Proof.
  intros Ht. destruct cs; cbn [main_options];
    destruct (tool l); try congruence; reflexivity.
Qed.

(** X5.  [-t TOOL] ends the options: once the loop has read a [-t] with a
    non-empty name, the variables of [main] are those the options before
    it left, with that tool, and the arguments are what follows [-t TOOL]
    on the command line: whatever [getopt_long] would return for the
    rest of the command line is never asked for. *)
Theorem tool_ends_the_option_loop (pre : list getopt_ret) (rt : getopt_ret)
    (post : list getopt_ret) (er : list string) (l0 l1 : Locals)
    (w w1 : W) (t1 : list Event) :
  Forall (fun c => ret_opt c <> -1) pre ->
  main_options pre [] l0 w = (Val l1, w1, t1) ->
  tool l1 = EmptyString ->
  ret_opt rt = char "t" ->
  ret_optarg rt <> EmptyString ->
  main_options (pre ++ rt :: post)%list er l0 w
  = (Val (with_tool (with_args l1 (ret_rest rt)) (ret_optarg rt)), w1, t1).
Proof.
  intros Hpre Hopt Htool Ht Harg.
  rewrite (main_options_app pre rt post er [] l0 w Hpre).
  unfold mbind at 1. unfold M_bind, bind. rewrite Hopt.
  rewrite main_options_cons. rewrite Htool. cbn [is_empty negb].
  rewrite Ht. change (char "t" =? -1) with false. cbv iota.
  unfold main_switch. rewrite Ht.
  repeat match goal with
  | |- context [char ?a =? char ?b] =>
      let v := eval vm_compute in (char a =? char b) in
      change (char a =? char b) with v
  end.
  cbv iota. rewrite ret_bind.
  rewrite main_options_tool_named by (cbn [tool with_tool]; exact Harg).
  rewrite app_nil_r. reflexivity.
Qed.

End MoreDriverFacts.

(** ** Outcomes: the rules of [unless], [reports] and [tainted] *)

Section OutcomeFacts.

Context {W : Type}.

Lemma count_app_0 p (t1 t2 : list Event) :
  count p (t1 ++ t2)%list = 0%nat -> count p t1 = 0%nat /\ count p t2 = 0%nat.
Proof. rewrite count_app. lia. Qed.

Lemma count_cons_true p e (t : list Event) :
  p e = true -> count p (e :: t) = S (count p t).
Proof.
  intros H. unfold count. rewrite filter_cons, decide_True by exact H.
  reflexivity.
Qed.

Lemma count_cons_false p e (t : list Event) :
  p e = false -> count p (e :: t) = count p t.
Proof.
  intros H. unfold count. rewrite filter_cons, decide_False by congruence.
  reflexivity.
Qed.

Lemma unless_ret {A} p (a : A) (Q : A -> Prop) E :
  Q a -> unless (W:=W) p (ret a) Q E.
Proof. intros H w _. exact H. Qed.

Lemma unless_exit {A} p c (Q : A -> Prop) (E : Z -> Prop) :
  E c -> unless (W:=W) p (exit c) Q E.
Proof. intros H w _. exact H. Qed.

Lemma unless_gets {A} p (f : W -> A) (Q : A -> Prop) E :
  (forall w, Q (f w)) -> unless p (gets f) Q E.
Proof. intros H w _. apply H. Qed.

Lemma unless_emit p e (Q : unit -> Prop) E :
  Q tt -> unless (W:=W) p (emit e) Q E.
Proof. intros H w _. exact H. Qed.

Lemma unless_call {A} p e (f : W -> A * W) (Q : A -> Prop) E :
  (forall w, Q (f w).1) -> unless p (call e f) Q E.
Proof.
  intros H w _. unfold call. specialize (H w). destruct (f w). exact H.
Qed.

Lemma unless_call_counted {A} p e (f : W -> A * W) (Q : A -> Prop) E :
  p e = true -> unless p (call e f) Q E.
Proof.
  intros H w Hc. unfold call in Hc. destruct (f w). cbn [snd] in Hc.
  rewrite count_cons_true in Hc by exact H. discriminate.
Qed.

Lemma unless_call_or_exit_counted {A} p e (f : W -> Res A * W)
    (Q : A -> Prop) E :
  p e = true -> unless p (call_or_exit e f) Q E.
Proof.
  intros H w Hc. unfold call_or_exit in Hc. destruct (f w). cbn [snd] in Hc.
  rewrite count_cons_true in Hc by exact H. discriminate.
Qed.

Lemma unless_Fatal {A} p msg (Q : A -> Prop) (E : Z -> Prop) :
  E 1 -> unless (W:=W) p (Fatal msg) Q E.
Proof. intros H w _. exact H. Qed.

Lemma unless_bind {A C} p (m : M W A) (k : A -> M W C)
    (Q1 : A -> Prop) (Q2 : C -> Prop) E :
  unless p m Q1 E ->
  (forall a, Q1 a -> unless p (k a) Q2 E) ->
  unless p (m ≫= k) Q2 E.
Proof.
  intros Hm Hk w. specialize (Hm w).
  unfold mbind, M_bind, bind.
  destruct (m w) as [[[a|c] w1] t1]; cbn [fst snd] in *.
  - specialize (Hk a). destruct (k a w1) as [[r w2] t2] eqn:Hka.
    cbn [fst snd]. intros Hc. apply count_app_0 in Hc as [H1 H2].
    specialize (Hk (Hm H1) w1). rewrite Hka in Hk. apply Hk. exact H2.
  - exact Hm.
Qed.

Lemma unless_weaken {A} p (m : M W A) (Q Q' : A -> Prop) E :
  unless p m Q E -> (forall a, Q a -> Q' a) -> unless p m Q' E.
Proof.
  intros H HQ w Hc. specialize (H w Hc).
  destruct ((m w).1.1); auto.
Qed.

Lemma reports_ret {A} (a : A) (Q : A -> Prop) : reports (W:=W) (ret a) Q.
Proof. intros w. left. reflexivity. Qed.

Lemma reports_exit {A} c (Q : A -> Prop) : reports (W:=W) (exit c) Q.
Proof. intros w. cbn. unfold count. cbn. lia. Qed.

Lemma reports_gets {A} (f : W -> A) (Q : A -> Prop) : reports (gets f) Q.
Proof. intros w. left. reflexivity. Qed.

Lemma reports_emit e (Q : unit -> Prop) :
  is_report e = false -> reports (W:=W) (emit e) Q.
Proof. intros H w. left. cbn [emit snd]. apply count_cons_false. exact H. Qed.

Lemma reports_call {A} e (f : W -> A * W) (Q : A -> Prop) :
  is_report e = false -> reports (call e f) Q.
Proof.
  intros H w. unfold call. destruct (f w). left. cbn [snd].
  apply count_cons_false. exact H.
Qed.

Lemma reports_call_or_exit {A} e (f : W -> Res A * W) (Q : A -> Prop) :
  is_report e = false -> reports (call_or_exit e f) Q.
Proof.
  intros H w. unfold call_or_exit. destruct (f w) as [[a|c] w'];
    cbn [fst snd]; rewrite (count_cons_false _ _ _ H).
  - left. reflexivity.
  - cbn. lia.
Qed.

Lemma reports_Fatal {A} msg (Q : A -> Prop) : reports (W:=W) (Fatal msg) Q.
Proof. intros w. cbn [fst snd]. intros _. reflexivity. Qed.

Lemma reports_Error_exit {A} msg (Q : A -> Prop) :
  reports (W:=W) (Error msg;; exit 1) Q.
Proof. intros w. cbn [fst snd]. intros _. reflexivity. Qed.

Lemma reports_Error_ret {A} msg (a : A) (Q : A -> Prop) :
  Q a -> reports (W:=W) (Error msg;; ret a) Q.
Proof. intros H w. right. exact H. Qed.

Lemma reports_bind {A C} (m : M W A) (k : A -> M W C)
    (Q1 : A -> Prop) (Q2 : C -> Prop) :
  reports m Q1 ->
  (forall a, reports (k a) Q2) ->
  (forall a, Q1 a -> tainted (k a) Q2) ->
  reports (m ≫= k) Q2.
Proof.
  intros Hm Hk Ht w. specialize (Hm w).
  unfold mbind, M_bind, bind.
  destruct (m w) as [[[a|c] w1] t1]; cbn [fst snd] in *.
  - specialize (Hk a w1). specialize (Ht a).
    destruct Hm as [H0|HQ].
    + destruct (k a w1) as [[[b|c] w2] t2]; cbn [fst snd] in *;
        rewrite count_app, H0; exact Hk.
    + specialize (Ht HQ w1).
      destruct (k a w1) as [[[b|c] w2] t2]; cbn [fst snd] in *; auto.
  - exact Hm.
Qed.

Lemma reports_bind_clean {A C} (m : M W A) (k : A -> M W C)
    (Q2 : C -> Prop) :
  reports m (fun _ => False) ->
  (forall a, reports (k a) Q2) ->
  reports (m ≫= k) Q2.
Proof.
  intros Hm Hk. apply (reports_bind m k (fun _ => False) Q2 Hm Hk).
  intros a [].
Qed.







End OutcomeFacts.

(** One step through a computation that emits no diagnostic. *)
Ltac reports_step :=
  lazymatch goal with
  | |- reports (ret _) _ => apply reports_ret
  | |- reports (exit _) _ => apply reports_exit
  | |- reports (Fatal _) _ => apply reports_Fatal
  | |- reports (gets _) _ => apply reports_gets
  | |- reports (emit _) _ => apply reports_emit; reflexivity
  | |- reports (printf _) _ => apply reports_emit; reflexivity
  | |- reports (Usage _) _ => apply reports_emit; reflexivity
  | |- reports (call _ _) _ => apply reports_call; reflexivity
  | |- reports (call_or_exit _ _) _ =>
      apply reports_call_or_exit; reflexivity
  | |- reports (mbind (fun _ => exit 1) (Error _)) _ =>
      apply reports_Error_exit
  | |- reports (mbind (fun _ => ret _) (Error _)) _ =>
      apply reports_Error_ret; reflexivity
  | |- reports (mbind _ _) _ => apply reports_bind_clean; [| intros ?]
  | |- reports (match ?x with _ => _ end) _ => destruct x
  end.

(** One step through a computation that leaves with status 0 or 1. *)
Ltac unless_step :=
  lazymatch goal with
  | |- unless _ (ret _) _ _ =>
      apply unless_ret;
      first [exact I | left; reflexivity | right; reflexivity]
  | |- unless _ (exit _) _ _ =>
      apply unless_exit;
      first [assumption | left; reflexivity | right; reflexivity]
  | |- unless _ (Fatal _) _ _ => apply unless_Fatal; right; reflexivity
  | |- unless _ (gets _) (fun _ => True) _ =>
      apply unless_gets; intros; exact I
  | |- unless _ (emit _) (fun _ => True) _ => apply unless_emit; exact I
  | |- unless _ (printf _) (fun _ => True) _ => apply unless_emit; exact I
  | |- unless _ (Error _) (fun _ => True) _ => apply unless_emit; exact I
  | |- unless _ (Usage _) (fun _ => True) _ => apply unless_emit; exact I
  | |- unless _ (call _ _) (fun _ => True) _ =>
      apply unless_call; intros; exact I
  | |- unless _ (mbind _ _) _ _ =>
      eapply unless_bind with (Q1 := fun _ => True); [| intros ? _]
  | |- unless _ (match ?x with _ => _ end) _ _ => destruct x
  end.

Section OutcomesOfTheDriver.

Context {W B : Type} (env : Env W B).

(** ** Diagnostics and the exit status *)

Lemma CollectTargets_loop_reports st argv targets err :
  reports (CollectTargets_loop env st argv targets err) (fun _ => False).
Proof.
  revert targets err. induction argv as [|arg argv IH]; intros targets err;
    cbn [CollectTargets_loop].
  - reports_step.
  - repeat first [apply IH | reports_step].
Qed.

Lemma CollectTargetsFromArgs_reports st argv targets err :
  reports (CollectTargetsFromArgs env st argv targets err) (fun _ => False).
Proof.
  unfold CollectTargetsFromArgs. destruct argv.
  - repeat reports_step.
  - apply CollectTargets_loop_reports.
Qed.

Lemma RunBuild_add_targets_reports builder targets err :
  reports (RunBuild_add_targets env builder targets err)
    (fun r => r = inr 1).
Proof.
  revert builder err. induction targets as [|t targets IH];
    intros builder err; cbn [RunBuild_add_targets].
  - reports_step.
  - repeat first [apply IH | reports_step].
Qed.
















(** ** The exit status *)

Lemma CollectTargets_loop_status st argv targets err :
  unless is_tool (CollectTargets_loop env st argv targets err)
    (fun _ => True) status_0_or_1.
Proof.
  revert targets err. induction argv as [|arg argv IH]; intros targets err;
    cbn [CollectTargets_loop].
  - unless_step.
  - repeat first [apply IH | unless_step].
Qed.

Lemma RunBuild_add_targets_status builder targets err :
  unless is_tool (RunBuild_add_targets env builder targets err)
    (fun r => match r with inr c => status_0_or_1 c | inl _ => True end)
    status_0_or_1.
Proof.
  revert builder err. induction targets as [|t targets IH];
    intros builder err; cbn [RunBuild_add_targets].
  - apply unless_ret. exact I.
  - eapply unless_bind with (Q1 := fun _ => True); [unless_step|].
    intros [[ok b] e] _. destruct ok; cbn [negb]; [apply IH|].
    destruct (is_empty e); cbn [negb]; [apply IH|].
    eapply unless_bind with (Q1 := fun _ => True); [unless_step|].
    intros _ _. apply unless_ret. right. reflexivity.
Qed.

Lemma RunBuild_status g argv :
  unless is_tool (RunBuild env g argv) status_0_or_1 status_0_or_1.
Proof.
  unfold RunBuild, CollectTargetsFromArgs.
  eapply unless_bind with (Q1 := fun _ => True).
  { destruct argv; [repeat unless_step | apply CollectTargets_loop_status]. }
  intros [[ok targets] err] _. destruct ok; cbn [negb].
  2:{ eapply unless_bind with (Q1 := fun _ => True); [unless_step|].
      intros _ _. apply unless_ret. right. reflexivity. }
  eapply unless_bind; [apply RunBuild_add_targets_status|].
  intros [[b e]|c] Hc.
  - destruct (Builder_AlreadyUpToDate env b).
    + eapply unless_bind with (Q1 := fun _ => True); [unless_step|].
      intros _ _. apply unless_ret. left. reflexivity.
    + eapply unless_bind with (Q1 := fun _ => True); [unless_step|].
      intros [ok2 e2] _. destruct ok2; cbn [negb].
      * apply unless_ret. left. reflexivity.
      * eapply unless_bind with (Q1 := fun _ => True); [unless_step|].
        intros _ _. apply unless_ret. right. reflexivity.
  - apply unless_ret. exact Hc.
Qed.

Lemma print_tools_status (ts : list (string * string * ToolFunc)) :
  unless (W:=W) is_tool (print_tools ts) (fun _ => True) status_0_or_1.
Proof.
  induction ts as [|t ts IH]; cbn [print_tools].
  - unless_step.
  - repeat first [apply IH | unless_step].
Qed.

(** Without a tool run, [RunTool] returns 0 or 1. *)
Lemma RunTool_status tool g argv :
  unless is_tool (RunTool env tool g argv) status_0_or_1 status_0_or_1.
Proof.
  unfold RunTool. destruct (String.eqb tool "list").
  - eapply unless_bind with (Q1 := fun _ => True); [unless_step|].
    intros _ _.
    eapply unless_bind with (Q1 := fun _ => True);
      [apply print_tools_status|].
    intros _ _. apply unless_ret. left. reflexivity.
  - destruct (find _ _).
    + apply unless_call_or_exit_counted. reflexivity.
    + destruct (SpellcheckStringV env tool _);
        (eapply unless_bind with (Q1 := fun _ => True); [unless_step|]);
        intros _ _; apply unless_ret; right; reflexivity.
Qed.

Lemma main_build_exits l Q :
  unless is_tool (main_build env l) Q status_0_or_1.
Proof.
  unfold main_build. eapply unless_bind; [apply RunBuild_status|].
  intros result Hr.
  eapply unless_bind with (Q1 := fun _ => True); [repeat unless_step|].
  intros _ _. apply unless_exit. exact Hr.
Qed.

Lemma main_with_log_status l log_path err :
  unless is_tool (main_with_log env l log_path err) (fun _ => True)
    status_0_or_1.
Proof.
  unfold main_with_log, RebuildManifest.
  repeat first [apply main_build_exits | unless_step].
Qed.

Lemma main_loaded_status l ok err :
  unless is_tool (main_loaded env l ok err) (fun _ => True) status_0_or_1.
Proof.
  unfold main_loaded. destruct ok; cbn [negb]; [|repeat unless_step].
  destruct (is_empty (tool l)); cbn [negb].
  - repeat first [apply main_with_log_status | unless_step].
  - eapply unless_bind; [apply RunTool_status|].
    intros status Hs. apply unless_exit. exact Hs.
Qed.

Lemma main_reload_status fuel l :
  unless is_tool (main_reload env fuel l) (fun _ => True) status_0_or_1.
Proof.
  revert l. induction fuel as [|fuel IH]; intros l; cbn [main_reload].
  - unless_step.
  - unfold main_pass.
    repeat first [apply IH | apply main_loaded_status | unless_step].
Qed.

Lemma main_options_status cs er l :
  unless (W:=W) is_tool (main_options cs er l) (fun _ => True) status_0_or_1.
Proof.
  revert l. induction cs as [|r cs IH]; intros l; cbn [main_options].
  - repeat unless_step.
  - unfold main_switch, DebugEnable. repeat first [apply IH | unless_step].
Qed.

(** X7.  Unless a subtool has run, a run of [main] ends with the exit
    status 0 or 1, whatever the collaborators do: the driver has no other
    exit status of its own. *)
Theorem exit_status_0_or_1_unless_a_tool_ran (k : nat) (argv : list string)
    (w : W) :
  count is_tool (events (main env (2 + k) argv w)) = 0%nat ->
  exists status,
    exit_status (main env (2 + k) argv w) = Some status /\
    (status = 0 \/ status = 1).
Proof.
  intros Hc.
  assert (Hu : unless is_tool (main env (2 + k) argv) (fun _ => True)
                 status_0_or_1).
  { unfold main, main_chdir.
    repeat first [apply main_options_status | apply main_reload_status
                 | unless_step]. }
  specialize (Hu w Hc).
  pose proof (main_bounded env is_reset (2 + k) argv
                ltac:(intros e H; rewrite H; reflexivity)
                ltac:(intros l0; apply main_reload_reset) w) as [_ Hb].
  unfold exit_status, events in *.
  destruct ((main env (2 + k) argv w).1.1) as [a|c].
  - lia.
  - exists c. split; [reflexivity | exact Hu].
Qed.

(** ** Going back to [reload] *)

Lemma bind_inv {A C} (m : M W A) (k : A -> M W C) w c w' t :
  (m ≫= k) w = (Val c, w', t) ->
  exists a w1 t1 t2,
    m w = (Val a, w1, t1) /\ k a w1 = (Val c, w', t2) /\
    t = (t1 ++ t2)%list.
Proof.
  unfold mbind, M_bind, bind.
  destruct (m w) as [[[a|x] w1] t1]; [|discriminate].
  destruct (k a w1) as [[r w2] t2] eqn:Hk. intros H.
  injection H; intros; subst. eauto 10.
Qed.

Lemma main_build_never_returns l w l' w' t :
  main_build env l w <> (Val l', w', t).
Proof.
  intros H. pose proof (main_build_quiet env l (fun _ => False) w) as [_ Hq].
  rewrite H in Hq. exact Hq.
Qed.

Lemma Error_exit_never_returns {A} msg c w (a : A) w' t :
  (Error (W:=W) msg;; exit c) w <> (Val a, w', t).
Proof. discriminate. Qed.

Lemma main_pass_returns (l l' : Locals) (w w' : W) (t : list Event) :
  main_pass env l w = (Val l', w', t) ->
  rebuilt_manifest l = false /\
  l' = {| globals := {| ninja_command := ninja_command (globals l);
                        config := config (globals l);
                        state := State_new |};
          input_file := input_file l;
          working_dir := working_dir l;
          tool := tool l;
          g_metrics := g_metrics l;
          args := args l;
          rebuilt_manifest := true |} /\
  exists file, EvRebuildManifest file ∈ t /\ last t = Some EvResetState.
Proof.
  unfold main_pass. intros H.
  apply bind_inv in H as ([[ok st] err] & w1 & t1 & t2 & _ & H & ->).
  unfold main_loaded in H. destruct ok; cbn [negb] in H;
    [|exfalso; exact (Error_exit_never_returns _ _ _ _ _ _ H)].
  cbn [tool with_globals] in H.
  destruct (is_empty (tool l)); cbn [negb] in H.
  2:{ apply bind_inv in H as (status & w2 & t3 & t4 & _ & H & _).
      discriminate H. }
  apply bind_inv in H as ([] & w2 & t3 & t4 & _ & H & ->).
  unfold main_with_log in H.
  apply bind_inv in H as ([ok1 err1] & w3 & t5 & t6 & _ & H & ->).
  destruct ok1; cbn [negb] in H;
    [|exfalso; exact (Error_exit_never_returns _ _ _ _ _ _ H)].
  apply bind_inv in H as ([ok2 err2] & w4 & t7 & t8 & _ & H & ->).
  destruct ok2; cbn [negb] in H;
    [|exfalso; exact (Error_exit_never_returns _ _ _ _ _ _ H)].
  cbn [rebuilt_manifest with_globals] in H.
  destruct (rebuilt_manifest l); cbn [negb] in H;
    [exfalso; exact (main_build_never_returns _ _ _ _ _ H)|].
  apply bind_inv in H as ([rebuilt err3] & w5 & t9 & t10 & Hre & H & ->).
  destruct rebuilt.
  2:{ destruct (is_empty err3); cbn [negb] in H;
        [exfalso; exact (main_build_never_returns _ _ _ _ _ H)
        |exfalso; exact (Error_exit_never_returns _ _ _ _ _ _ H)]. }
  cbn in H. injection H; intros; subst.
  split; [reflexivity|]. split; [reflexivity|].
  unfold RebuildManifest in Hre.
  apply bind_inv in Hre as ([] & w6 & t11 & t12 & He & _ & ->).
  cbn in He. injection He; intros; subst.
  eexists. split.
  - rewrite !elem_of_app. right. right. right. right. left. left.
    apply list_elem_of_singleton. reflexivity.
  - rewrite !app_assoc. apply last_snoc.
Qed.

(** X8.  Control goes back to [reload] only from a first pass whose
    manifest rebuild has reported a rebuild, and with everything the
    command line has set unchanged: the second pass has the same
    configuration, input file, working directory, tool, metrics switch and
    arguments; only the state is a new, empty one and [rebuilt_manifest] is
    set. *)
Theorem reload_keeps_the_command_line (l l' : Locals) (w w' : W)
    (t : list Event) :
  main_pass env l w = (Val l', w', t) ->
  rebuilt_manifest l = false /\
  l' = {| globals := {| ninja_command := ninja_command (globals l);
                        config := config (globals l);
                        state := State_new |};
          input_file := input_file l;
          working_dir := working_dir l;
          tool := tool l;
          g_metrics := g_metrics l;
          args := args l;
          rebuilt_manifest := true |} /\
  exists file, EvRebuildManifest file ∈ t /\ last t = Some EvResetState.
Proof.
  exact (main_pass_returns l l' w w' t).
Qed.

Lemma bounded_strengthen {A} p n (m : M W A) (Q Q' : A -> Prop) :
  bounded p n m Q ->
  (forall w a w' t, m w = (Val a, w', t) -> Q' a) ->
  bounded p n m Q'.
Proof.
  intros H HQ w. destruct (H w) as [Hc _]. split; [exact Hc|].
  specialize (HQ w). destruct (m w) as [[[a|c] w'] t]; cbn; [|exact I].
  eapply HQ. reflexivity.
Qed.

Lemma main_with_log_manifest l log_path err :
  bounded (is_other_manifest (input_file l)) 0
    (main_with_log env l log_path err) (fun _ => True).
Proof.
  assert (Hq : forall e, is_other_manifest (input_file l) e = true ->
                         is_driver_step e = true).
  { intros [] H; first [reflexivity | discriminate H]. }
  unfold main_with_log, RebuildManifest.
  repeat first
    [ eapply bounded_mono;
        [exact Hq | apply (main_build_quiet env l (fun _ => True))]
    | bounded_step ].
Qed.

Lemma main_pass_manifest l :
  bounded (is_other_manifest (input_file l)) 0 (main_pass env l)
    (fun l' => input_file l' = input_file l).
Proof.
  apply bounded_strengthen with (Q := fun _ => True).
  - unfold main_pass.
    eapply bounded_bind_0 with (Q1 := fun _ => True); [bounded_step|].
    intros [[ok st] err] _. apply main_loaded_lift.
    + intros [] H; first [reflexivity | discriminate H].
    + reflexivity.
    + apply (main_with_log_manifest
               (with_globals l (set_state (globals l) st))).
  - intros w l' w' t H.
    destruct (main_pass_returns _ _ _ _ _ H) as (_ & -> & _). reflexivity.
Qed.

Lemma main_reload_manifest fuel l :
  bounded (is_other_manifest (input_file l)) 0 (main_reload env fuel l)
    (fun _ => True).
Proof.
  revert l. induction fuel as [|fuel IH]; intros l; cbn [main_reload].
  - bounded_step.
  - eapply bounded_bind_0; [apply main_pass_manifest|].
    intros l' Hl. cbn beta in Hl. rewrite <- Hl. apply IH.
Qed.

Lemma main_switch_input_file r l (w : W) l' w' t :
  ret_opt r <> char "f" ->
  main_switch r l w = (Val l', w', t) ->
  input_file l' = input_file l.
Proof.
  intros Hf. unfold main_switch.
  destruct (ret_opt r =? char "d").
  { unfold DebugEnable, mbind, M_bind, bind, printf, emit, exit, ret.
    destruct (String.eqb (ret_optarg r) "list"); [discriminate|].
    destruct (String.eqb (ret_optarg r) "stats"); [|discriminate].
    cbn. intros H. injection H; intros; subst. reflexivity. }
  destruct (Z.eqb_spec (ret_opt r) (char "f")) as [E|E]; [contradiction|].
  destruct (ret_opt r =? char "j");
    [intros H; injection H; intros; subst; reflexivity|].
  destruct (ret_opt r =? char "k").
  { destruct (LibC.strtol (ret_optarg r)) as [v end_].
    unfold mbind, M_bind, bind, Fatal, emit, exit, ret.
    destruct (is_empty end_); cbn; [|discriminate].
    intros H; injection H; intros; subst. reflexivity. }
  destruct (ret_opt r =? char "n");
    [intros H; injection H; intros; subst; reflexivity|].
  destruct (ret_opt r =? char "v");
    [intros H; injection H; intros; subst; reflexivity|].
  destruct (ret_opt r =? char "t");
    [intros H; injection H; intros; subst; reflexivity|].
  destruct (ret_opt r =? char "C");
    [intros H; injection H; intros; subst; reflexivity|].
  discriminate.
Qed.

Lemma main_options_input_file cs er l (w : W) l' w' t :
  Forall (fun c => ret_opt c <> char "f") cs ->
  main_options cs er l w = (Val l', w', t) ->
  input_file l' = input_file l.
Proof.
  intros Hcs. revert l w t. induction Hcs as [|c cs Hc Hcs IH]; intros l w t.
  - rewrite main_options_nil.
    destruct (is_empty (tool l)); cbn; intros H; injection H; intros; subst;
      reflexivity.
  - rewrite main_options_cons.
    destruct (is_empty (tool l)); cbn [negb];
      [|intros H; injection H; intros; subst; reflexivity].
    destruct (ret_opt c =? -1);
      [intros H; injection H; intros; subst; reflexivity|].
    intros H. apply bind_inv in H as (l1 & w1 & t1 & t2 & Hsw & Hrest & _).
    rewrite (IH _ _ _ Hrest).
    apply (main_switch_input_file _ _ _ _ _ _ Hc Hsw).
Qed.

(** X9.  One manifest file per run: every load of a manifest and every
    attempt to rebuild it, in the first pass and after the reload, is for
    the input file the option loop ended with; and that is [build.ninja]
    when [getopt_long] has returned no [-f]. *)
Theorem one_manifest_file_per_run (fuel : nat) (argv : list string)
    (l : Locals) (w w1 : W) (t1 : list Event) (f : string) :
  main_options (calls (getopt_long env argv)) (end_rest (getopt_long env argv))
    (main_init env argv) w = (Val l, w1, t1) ->
  EvParserLoad f ∈ events (main env fuel argv w) \/
  EvRebuildManifest f ∈ events (main env fuel argv w) ->
  f = input_file l /\
  (Forall (fun c => ret_opt c <> char "f") (calls (getopt_long env argv)) ->
   f = "build.ninja").
Proof.
  intros Hopt Hin.
  assert (Hf : f = input_file l).
  { assert (Hb : bounded (is_other_manifest (input_file l)) 0
                   (main_chdir env l;; main_reload env fuel l)
                   (fun _ => True)).
    { eapply bounded_bind_0 with (Q1 := fun _ => True).
      - apply main_chdir_quiet; [|reflexivity].
        intros [] H; first [reflexivity | discriminate H].
      - intros _ _. apply main_reload_manifest. }
    destruct (Hb w1) as [Hc _]. apply count_le_0 in Hc.
    pose proof (main_options_prints
                  (calls (getopt_long env argv))
                  (end_rest (getopt_long env argv))
                  (main_init env argv) w) as [Hp _].
    rewrite Hopt in Hp. cbn [snd] in Hp. apply count_le_0 in Hp.
    unfold main, events in Hin. rewrite (bind_val _ _ _ _ _ _ Hopt) in Hin.
    destruct ((main_chdir env l;; main_reload env fuel l) w1)
      as [[r w2] t2].
    cbn [snd] in *. rewrite !elem_of_app in Hin.
    destruct Hin as [[Hin|Hin]|[Hin|Hin]];
      try (apply (count_0_elem _ _ _ Hp) in Hin; discriminate Hin);
      apply (count_0_elem _ _ _ Hc) in Hin; cbn in Hin;
      apply negb_false_iff, String.eqb_eq in Hin; exact Hin. }
  split; [exact Hf|]. intros Hall. rewrite Hf.
  apply (main_options_input_file _ _ _ _ _ _ _ Hall Hopt).
Qed.

(** ** The build log comes first *)

Lemma opened_before_build_true (t : list Event) :
  opened_before_build true t = true.
Proof. induction t as [|e t IH]; [reflexivity|]. destruct e; exact IH. Qed.

Lemma opened_before_build_prefix b (t1 t2 : list Event) :
  count is_build_step t1 = 0%nat ->
  opened_before_build b t2 = true ->
  opened_before_build b (t1 ++ t2)%list = true.
Proof.
  revert b. induction t1 as [|e t1 IH]; intros b Hc H2; [exact H2|].
  destruct (is_build_step e) eqn:E.
  - rewrite count_cons_true in Hc by exact E. discriminate.
  - rewrite count_cons_false in Hc by exact E.
    destruct e; try discriminate E; cbn [app opened_before_build];
      try (apply IH; assumption).
    apply IH; [exact Hc | apply opened_before_build_true].
Qed.

Lemma opened_before_build_elim (t : list Event) :
  opened_before_build false t = true ->
  forall t1 e t2,
    t = (t1 ++ e :: t2)%list -> is_build_step e = true ->
    exists p, EvBuildLogOpenForWrite p ∈ t1.
Proof.
  induction t as [|e0 t IH]; intros H t1 e t2 Heq He.
  - destruct t1; discriminate Heq.
  - destruct t1 as [|e1 t1]; cbn [app] in Heq; injection Heq; intros; subst.
    + destruct e; try discriminate He; discriminate H.
    + destruct e1; cbn [opened_before_build] in H;
        try (destruct (IH H t1 e t2 eq_refl He) as [p Hp];
             exists p; right; exact Hp);
        try discriminate H.
      eexists. left.
Qed.

Lemma events_call_bind {A C} e (f : W -> A * W) (k : A -> M W C) w :
  ((call e f ≫= k) w).2 = e :: (k (f w).1 (f w).2).2.
Proof.
  unfold mbind, M_bind, bind, call. destruct (f w) as [a w1]. cbn [fst snd].
  destruct (k a w1) as [[r w2] t2]. reflexivity.
Qed.

Lemma main_with_log_opens_first b l log_path err w :
  opened_before_build b (events (main_with_log env l log_path err w)) = true.
Proof.
  unfold main_with_log, events. rewrite events_call_bind.
  cbn [opened_before_build].
  destruct (BuildLog_Load env log_path err w) as [[ok1 err1] w1].
  cbn [fst snd]. destruct ok1; cbn [negb].
  2:{ cbn. destruct b; reflexivity. }
  rewrite events_call_bind. cbn [opened_before_build].
  apply opened_before_build_true.
Qed.

Lemma RunTool_no_build_step tool g argv :
  bounded is_build_step 0 (RunTool env tool g argv) (fun _ => True).
Proof.
  assert (Hp : forall ts : list (string * string * ToolFunc),
            bounded (W:=W) is_build_step 0 (print_tools ts) (fun _ => True)).
  { induction ts as [|t ts IH]; cbn [print_tools];
      repeat first [apply IH | bounded_step]. }
  unfold RunTool. repeat first [apply Hp | bounded_step].
Qed.

Lemma main_pass_opens_first l w :
  opened_before_build false (events (main_pass env l w)) = true.
Proof.
  unfold main_pass, events, mbind at 1, M_bind, bind, call.
  destruct (ManifestParser_Load env _ _ _ w) as [[[ok st] err] w1].
  set (l1 := with_globals l (set_state (globals l) st)).
  assert (H : opened_before_build false (main_loaded env l1 ok err w1).2
              = true).
  { unfold main_loaded. destruct ok; cbn [negb]; [|reflexivity].
    destruct (is_empty (tool l1)); cbn [negb].
    - unfold mbind at 1. unfold M_bind, bind.
      match goal with
      | |- context [match ?m w1 with _ => _ end] =>
          assert (Hm : bounded is_build_step 0 m (fun _ => True))
            by repeat bounded_step;
          destruct (Hm w1) as [Hc _]; destruct (m w1) as [[[[]|c] w2] t2]
      end; cbn [snd] in *; apply count_le_0 in Hc.
      + pose proof (main_with_log_opens_first false l1
                      (log_path_of (LookupVariable (state (globals l1))
                                      "builddir")) err w2) as Ho.
        unfold events in Ho.
        destruct (main_with_log env l1 _ err w2) as [[x w3] t3].
        cbn [snd] in *. apply opened_before_build_prefix; assumption.
      + rewrite <- (app_nil_r t2).
        apply opened_before_build_prefix; [exact Hc | reflexivity].
    - assert (Hm : bounded is_build_step 0
                     (status ← RunTool env (tool l1) (globals l1) (args l1);
                      exit status) (fun _ : Locals => True)).
      { eapply bounded_bind_0; [apply RunTool_no_build_step|].
        intros; apply bounded_exit. }
      destruct (Hm w1) as [Hc _]. apply count_le_0 in Hc.
      rewrite <- (app_nil_r (_.2)).
      apply opened_before_build_prefix; [exact Hc | reflexivity]. }
  destruct (main_loaded env l1 ok err w1) as [[x w2] t2].
  cbn [snd] in *. exact H.
Qed.

(** X10.  In every pass of [main], no target is added to a plan and
    nothing is built before the build log has been opened for write in
    that pass: an [AddTarget] or a [Build] among the events of a pass
    always comes after an [OpenForWrite] of the build log. *)
Theorem no_build_before_the_log_is_open (l : Locals) (w : W)
    (t1 : list Event) (e : Event) (t2 : list Event) :
  events (main_pass env l w) = (t1 ++ e :: t2)%list ->
  is_build_step e = true ->
  exists log_path, EvBuildLogOpenForWrite log_path ∈ t1.
Proof.
  intros Heq He.
  exact (opened_before_build_elim _ (main_pass_opens_first l w)
           t1 e t2 Heq He).
Qed.

(** ** The build proper *)

Lemma CollectTargets_loop_no_Build st argv targets err :
  bounded is_Build 0 (CollectTargets_loop env st argv targets err)
    (fun _ => True).
Proof.
  revert targets err. induction argv as [|arg argv IH]; intros targets err;
    cbn [CollectTargets_loop].
  - bounded_step.
  - repeat first [apply IH | bounded_step].
Qed.

Lemma RunBuild_add_targets_no_Build builder targets err :
  bounded is_Build 0 (RunBuild_add_targets env builder targets err)
    (fun _ => True).
Proof.
  revert builder err. induction targets as [|t targets IH];
    intros builder err; cbn [RunBuild_add_targets].
  - bounded_step.
  - repeat first [apply IH | bounded_step].
Qed.

Lemma events_bind_val {A C} (m : M W A) (k : A -> M W C) w a w1 t1 :
  m w = (Val a, w1, t1) -> ((m ≫= k) w).2 = (t1 ++ (k a w1).2)%list.
Proof.
  intros H. rewrite (bind_val _ _ _ _ _ _ H).
  destruct (k a w1) as [[r w2] t2]. reflexivity.
Qed.

(** X11.  [RunBuild] starts at most one build, and none at all once it has
    reported an error: when a target of the command line is unknown or
    cannot be added to the plan, no command runs. *)
Theorem RunBuild_builds_once_and_not_after_an_error (g : Globals)
    (argv : list string) (w : W) :
  (count is_Build (events (RunBuild env g argv w)) <= 1)%nat /\
  ((0 < count is_report (events (RunBuild env g argv w)))%nat ->
   count is_Build (events (RunBuild env g argv w)) = 0%nat).
Proof.
  unfold RunBuild, events.
  assert (Hcb : bounded is_Build 0
            (CollectTargetsFromArgs env (state g) argv [] EmptyString)
            (fun _ => True)).
  { unfold CollectTargetsFromArgs. destruct argv;
      [repeat bounded_step | apply CollectTargets_loop_no_Build]. }
  destruct (Hcb w) as [Hc1 _].
  pose proof (CollectTargetsFromArgs_reports (state g) argv [] EmptyString w)
    as Hr1.
  destruct (CollectTargetsFromArgs env (state g) argv [] EmptyString w)
    as [[[[[ok targets] err]|c] w1] t1] eqn:Hcoll; cbn [fst snd] in *.
  2:{ rewrite (bind_exit _ _ _ _ _ _ Hcoll). cbn [snd]. lia. }
  rewrite (events_bind_val _ _ _ _ _ _ Hcoll), !count_app.
  destruct Hr1 as [Hr1|[]].
  destruct ok; cbn [negb].
  2:{ match goal with
      | |- context [(?m w1).2] => change ((m w1).2) with [EvError err]
      end.
      change (count is_Build [EvError err]) with 0%nat. lia. }
  destruct (RunBuild_add_targets_no_Build
              (Builder_new env (state g) (config g)) targets err w1)
    as [Hc2 _].
  pose proof (RunBuild_add_targets_reports
                (Builder_new env (state g) (config g)) targets err w1) as Hr2.
  destruct (RunBuild_add_targets env _ targets err w1)
    as [[[[[b e]|status]|c] w2] t2] eqn:Hadd; cbn [fst snd] in *.
  - rewrite (events_bind_val _ _ _ _ _ _ Hadd), !count_app.
    destruct Hr2 as [Hr2|Hr2]; [|discriminate Hr2].
    destruct (Builder_AlreadyUpToDate env b).
    + match goal with
      | |- context [(?m w2).2] =>
          change ((m w2).2) with [Stdout ("ninja: no work to do." +:+ nl)]
      end.
      change (count is_Build [Stdout ("ninja: no work to do." +:+ nl)])
        with 0%nat. lia.
    + rewrite events_call_bind, !count_cons_true by reflexivity.
      rewrite count_cons_false by reflexivity.
      destruct (Builder_Build env b e w2) as [[ok2 e2] w3].
      cbn [fst snd negb]. destruct ok2; cbn [negb].
      * change ((ret 0 w3).2) with (@nil Event).
        change (count is_Build []) with 0%nat.
        change (count is_report []) with 0%nat. lia.
      * match goal with
        | |- context [(?m w3).2] =>
            change ((m w3).2)
              with [Stdout ("ninja: build stopped: " +:+ e2 +:+ "." +:+ nl)]
        end.
        rewrite !count_cons_false by reflexivity.
        change (count is_Build []) with 0%nat.
        change (count is_report []) with 0%nat. lia.
  - rewrite (events_bind_val _ _ _ _ _ _ Hadd), !count_app.
    change ((ret status w2).2) with (@nil Event).
    change (count is_Build []) with 0%nat. lia.
  - rewrite (bind_exit _ _ _ _ _ _ Hadd). cbn [snd]. lia.
Qed.

(** ** Metrics *)

Lemma RunBuild_no_metrics g argv :
  bounded is_metrics 0 (RunBuild env g argv) (fun _ => True).
Proof.
  assert (Hloop : forall st argv targets err,
            bounded is_metrics 0 (CollectTargets_loop env st argv targets err)
              (fun _ => True)).
  { intros st. induction argv0 as [|arg argv0 IH]; intros targets err;
      cbn [CollectTargets_loop]; repeat first [apply IH | bounded_step]. }
  assert (Hadd : forall targets builder err,
            bounded is_metrics 0
              (RunBuild_add_targets env builder targets err) (fun _ => True)).
  { induction targets as [|t targets IH]; intros builder err;
      cbn [RunBuild_add_targets]; repeat first [apply IH | bounded_step]. }
  unfold RunBuild, CollectTargetsFromArgs.
  repeat first [apply Hloop | apply Hadd | bounded_step].
Qed.

Lemma RunTool_no_metrics tool g argv :
  bounded is_metrics 0 (RunTool env tool g argv) (fun _ => True).
Proof.
  assert (Hp : forall ts : list (string * string * ToolFunc),
            bounded (W:=W) is_metrics 0 (print_tools ts) (fun _ => True)).
  { induction ts as [|t ts IH]; cbn [print_tools];
      repeat first [apply IH | bounded_step]. }
  unfold RunTool. repeat first [apply Hp | bounded_step].
Qed.

Lemma main_pass_no_metrics l :
  g_metrics l = false ->
  bounded is_metrics 0 (main_pass env l) (fun l' => g_metrics l' = false).
Proof.
  intros Hg. apply bounded_strengthen with (Q := fun _ => True).
  - unfold main_pass, main_loaded, main_with_log, RebuildManifest,
      main_build.
    cbn [g_metrics with_globals]. rewrite Hg.
    repeat first [apply RunBuild_no_metrics | apply RunTool_no_metrics
                 | bounded_step].
  - intros w l' w' t H.
    destruct (main_pass_returns _ _ _ _ _ H) as (_ & -> & _). exact Hg.
Qed.

Lemma main_reload_no_metrics fuel l :
  g_metrics l = false ->
  bounded is_metrics 0 (main_reload env fuel l) (fun _ => True).
Proof.
  revert l. induction fuel as [|fuel IH]; intros l Hg; cbn [main_reload].
  - bounded_step.
  - eapply bounded_bind_0; [apply main_pass_no_metrics; exact Hg|].
    intros l' Hl. apply IH. exact Hl.
Qed.

Lemma main_switch_g_metrics r l (w : W) l' w' t :
  (ret_opt r = char "d" -> ret_optarg r <> "stats") ->
  main_switch r l w = (Val l', w', t) ->
  g_metrics l' = g_metrics l.
Proof.
  intros Hd. unfold main_switch.
  destruct (Z.eqb_spec (ret_opt r) (char "d")) as [E|E].
  { unfold DebugEnable, mbind, M_bind, bind, printf, emit, exit, ret.
    destruct (String.eqb (ret_optarg r) "list"); [discriminate|].
    destruct (String.eqb_spec (ret_optarg r) "stats") as [Es|Es];
      [destruct (Hd E Es) | discriminate]. }
  destruct (ret_opt r =? char "f");
    [intros H; injection H; intros; subst; reflexivity|].
  destruct (ret_opt r =? char "j");
    [intros H; injection H; intros; subst; reflexivity|].
  destruct (ret_opt r =? char "k").
  { destruct (LibC.strtol (ret_optarg r)) as [v end_].
    unfold mbind, M_bind, bind, Fatal, emit, exit, ret.
    destruct (is_empty end_); cbn; [|discriminate].
    intros H; injection H; intros; subst. reflexivity. }
  destruct (ret_opt r =? char "n");
    [intros H; injection H; intros; subst; reflexivity|].
  destruct (ret_opt r =? char "v");
    [intros H; injection H; intros; subst; reflexivity|].
  destruct (ret_opt r =? char "t");
    [intros H; injection H; intros; subst; reflexivity|].
  destruct (ret_opt r =? char "C");
    [intros H; injection H; intros; subst; reflexivity|].
  discriminate.
Qed.

Lemma main_options_g_metrics cs er l (w : W) l' w' t :
  Forall (fun c => ret_opt c = char "d" -> ret_optarg c <> "stats") cs ->
  main_options cs er l w = (Val l', w', t) ->
  g_metrics l' = g_metrics l.
Proof.
  intros Hcs. revert l w t. induction Hcs as [|c cs Hc Hcs IH]; intros l w t.
  - rewrite main_options_nil.
    destruct (is_empty (tool l)); cbn; intros H; injection H; intros; subst;
      reflexivity.
  - rewrite main_options_cons.
    destruct (is_empty (tool l)); cbn [negb];
      [|intros H; injection H; intros; subst; reflexivity].
    destruct (ret_opt c =? -1);
      [intros H; injection H; intros; subst; reflexivity|].
    intros H. apply bind_inv in H as (l1 & w1 & t1 & t2 & Hsw & Hrest & _).
    rewrite (IH _ _ _ Hrest).
    apply (main_switch_g_metrics _ _ _ _ _ _ Hc Hsw).
Qed.

(** X12.  Metrics are reported only on request: in a run in which
    [getopt_long] has returned no [-d stats], no metrics report is ever
    made, in either pass. *)
Theorem no_metrics_without_d_stats (fuel : nat) (argv : list string)
    (w : W) :
  Forall (fun c => ret_opt c = char "d" -> ret_optarg c <> "stats")
    (calls (getopt_long env argv)) ->
  count is_metrics (events (main env fuel argv w)) = 0%nat.
Proof.
  intros Hd. unfold main, events.
  pose proof (main_options_prints
                (calls (getopt_long env argv))
                (end_rest (getopt_long env argv))
                (main_init env argv) w) as [Hp _].
  pose proof (count_mono is_metrics is_work
                (main_options (calls (getopt_long env argv))
                   (end_rest (getopt_long env argv)) (main_init env argv) w).2
                ltac:(intros [] H; first [reflexivity | discriminate H]))
    as Hm.
  destruct (main_options _ _ _ w) as [[[l|c] w1] t1] eqn:Hopt;
    cbn [snd] in *.
  2:{ rewrite (bind_exit _ _ _ _ _ _ Hopt). cbn [snd]. lia. }
  rewrite (events_bind_val _ _ _ _ _ _ Hopt), count_app.
  assert (Hg : g_metrics l = false).
  { rewrite (main_options_g_metrics _ _ _ _ _ _ _ Hd Hopt). reflexivity. }
  assert (Hb : bounded is_metrics 0
                 (main_chdir env l;; main_reload env fuel l)
                 (fun _ => True)).
  { unfold main_chdir.
    repeat first [apply main_reload_no_metrics; exact Hg | bounded_step]. }
  destruct (Hb w1) as [Hc _]. lia.
Qed.

(** X13.  A directory of [-C] that cannot be entered ends the run before
    the manifest is read: after the line [Entering directory] and the one
    call of [chdir], the run is a fatal error with the message of [errno]
    and the exit status 1, whatever the fuel. *)
Theorem failed_chdir_is_fatal (fuel : nat) (argv : list string) (w : W)
    (l : Locals) (w' : W) (t : list Event) (dir : string) :
  main_options (calls (getopt_long env argv))
    (end_rest (getopt_long env argv)) (main_init env argv) w
  = (Val l, w', t) ->
  working_dir l = Some dir ->
  (chdir env dir w').1 < 0 ->
  exit_status (main env fuel argv w) = Some 1 /\
  events (main env fuel argv w)
  = (t ++ [Stdout ("ninja: Entering directory `" +:+ dir +:+ "'" +:+ nl);
           EvChdir dir;
           EvFatal ("chdir to '" +:+ dir +:+ "' - " +:+
                    strerror env (errno env (chdir env dir w').2))])%list.
Proof.
  intros Hopt Hdir Hneg.
  unfold main, exit_status, events, mbind, M_bind, bind. rewrite Hopt.
  unfold main_chdir. rewrite Hdir.
  unfold mbind, M_bind, bind, printf, emit, call, gets.
  destruct (chdir env dir w') as [r w1]. cbn [fst snd] in *.
  apply Z.ltb_lt in Hneg. rewrite Hneg.
  unfold Fatal, mbind, M_bind, bind, emit, exit. cbn. auto.
Qed.

End OutcomesOfTheDriver.

(** * Properties of the subtools *)

(** ** Sets of strings *)

Lemma set_insert_elem x (s : list string) p :
  p ∈ set_insert x s <-> p = x \/ p ∈ s.
Proof.
  induction s as [|y s IH]; cbn [set_insert].
  - rewrite list_elem_of_singleton, elem_of_nil. tauto.
  - destruct (String.compare x y) eqn:E.
    + apply String.compare_eq_iff in E. subst y.
      rewrite elem_of_cons. tauto.
    + rewrite !elem_of_cons. tauto.
    + rewrite !elem_of_cons, IH. tauto.
Qed.

Lemma set_insert_sorted x (s : list string) :
  StronglySorted String_as_OT.lt s ->
  StronglySorted String_as_OT.lt (set_insert x s).
Proof.
  induction 1 as [|y s Hs IH Hy]; cbn [set_insert].
  - repeat constructor.
  - destruct (String.compare x y) eqn:E.
    + constructor; assumption.
    + apply String_as_OT.cmp_lt in E.
      constructor; [constructor; assumption|].
      constructor; [exact E|].
      eapply Forall_impl; [exact Hy|].
      intros z Hz. eapply String_as_OT.lt_trans; eassumption.
    + constructor; [exact IH|].
      rewrite Forall_forall. intros z Hz.
      apply set_insert_elem in Hz as [->|Hz].
      * apply String_as_OT.cmp_lt.
        change String_as_OT.cmp with String.compare.
        rewrite String.compare_antisym, E. reflexivity.
      * rewrite Forall_forall in Hy. apply Hy. exact Hz.
Qed.

Section ToolFacts.

Context {W B : Type} (env : Env W B) (tenv : ToolEnv W) (gr : Graph).

(** ** [targets rule NAME] *)

Lemma print_lines_events (lines : list string) (w : W) :
  Tools.print_lines lines w
  = (Val tt, w, map (fun line => Stdout (line +:+ nl)) lines).
Proof.
  induction lines as [|x lines IH]; [reflexivity|].
  cbn [Tools.print_lines map]. unfold mbind, M_bind, bind, printf, emit.
  rewrite IH. reflexivity.
Qed.

Lemma fold_set_insert_elem (f : NodeP -> string) outs (s : list string) p :
  p ∈ fold_left (fun rules out => set_insert (f out) rules) outs s
  <-> p ∈ s \/ exists out, out ∈ outs /\ f out = p.
Proof.
  revert s. induction outs as [|o outs IH]; intros s; cbn [fold_left].
  - split; [auto|]. intros [H|(out & H & _)]; [exact H|].
    apply elem_of_nil in H. destruct H.
  - rewrite IH, set_insert_elem. split.
    + intros [[->|H]|(out & H & E)]; eauto.
      * right. exists o. split; [left | reflexivity].
      * right. exists out. split; [right; exact H | exact E].
    + intros [H|(out & H & E)]; [auto|].
      apply elem_of_cons in H as [->|H]; eauto.
Qed.

Lemma fold_set_insert_sorted (f : NodeP -> string) outs (s : list string) :
  StronglySorted String_as_OT.lt s ->
  StronglySorted String_as_OT.lt
    (fold_left (fun rules out => set_insert (f out) rules) outs s).
Proof.
  revert s. induction outs as [|o outs IH]; intros s Hs; [exact Hs|].
  cbn [fold_left]. apply IH, set_insert_sorted, Hs.
Qed.

(** X14.  [targets rule NAME] prints the paths of the outputs of the edges
    of the rule [NAME], one per line, each once however many edges produce
    it, in increasing order of the paths, and returns 0 without touching
    the world. *)
Theorem targets_of_a_rule_sorted_and_unique (st : State) (rule : string)
    (w : W) :
  Tools.ToolTargetsList_rule gr st rule w
  = (Val 0, w,
     map (fun line => Stdout (line +:+ nl)) (Tools.rule_outputs gr st rule))
  /\
  StronglySorted String_as_OT.lt (Tools.rule_outputs gr st rule) /\
  forall p,
    p ∈ Tools.rule_outputs gr st rule <->
    exists e out,
      e ∈ edges_ gr /\ rule_name gr e = rule /\
      out ∈ outputs_ st e /\ node_path st out = p.
Proof.
  split; [|split].
  - unfold Tools.ToolTargetsList_rule, mbind, M_bind, bind.
    rewrite print_lines_events. cbn. rewrite app_nil_r. reflexivity.
  - unfold Tools.rule_outputs.
    assert (H : forall es s, StronglySorted String_as_OT.lt s ->
              StronglySorted String_as_OT.lt
                (fold_left
                   (fun rules e =>
                      if String.eqb (rule_name gr e) rule
                      then fold_left
                             (fun rules out =>
                                set_insert (node_path st out) rules)
                             (outputs_ st e) rules
                      else rules) es s)).
    { induction es as [|e es IH]; intros s Hs; [exact Hs|].
      cbn [fold_left]. apply IH.
      destruct (String.eqb (rule_name gr e) rule); [|exact Hs].
      apply fold_set_insert_sorted, Hs. }
    apply H. constructor.
  - unfold Tools.rule_outputs.
    assert (H : forall es s p,
              p ∈ fold_left
                    (fun rules e =>
                       if String.eqb (rule_name gr e) rule
                       then fold_left
                              (fun rules out =>
                                 set_insert (node_path st out) rules)
                              (outputs_ st e) rules
                       else rules) es s
              <-> p ∈ s \/
                  exists e out,
                    e ∈ es /\ rule_name gr e = rule /\
                    out ∈ outputs_ st e /\ node_path st out = p).
    { induction es as [|e es IH]; intros s p; cbn [fold_left].
      - split; [auto|]. intros [H|(e & out & H & _)]; [exact H|].
        apply elem_of_nil in H. destruct H.
      - rewrite IH. destruct (String.eqb_spec (rule_name gr e) rule) as [E|E].
        + rewrite fold_set_insert_elem. split.
          * intros [[H|(out & Ho & Hp)]|(e' & out & He & Hr & Ho & Hp)];
              eauto.
            -- right. exists e, out. split; [left|]. auto.
            -- right. exists e', out. split; [right; exact He|]. auto.
          * intros [H|(e' & out & He & Hr & Ho & Hp)]; [auto|].
            apply elem_of_cons in He as [->|He]; eauto 10.
        + split.
          * intros [H|(e' & out & He & Hr & Ho & Hp)]; [auto|].
            right. exists e', out. split; [right; exact He|]. auto.
          * intros [H|(e' & out & He & Hr & Ho & Hp)]; [auto|].
            apply elem_of_cons in He as [->|He]; [contradiction|].
            eauto 10. }
    intros p. rewrite H. split.
    + intros [Hn|Hx]; [apply elem_of_nil in Hn; destruct Hn | exact Hx].
    + auto.
Qed.

(** ** [query] *)

Lemma query_inputs_returns st edge inputs index (w : W) :
  exists t, Tools.query_inputs gr st edge inputs index w = (Val tt, w, t).
Proof.
  revert index. induction inputs as [|i inputs IH]; intros index;
    cbn [Tools.query_inputs].
  - eexists. reflexivity.
  - destruct (IH (S index)) as [t Ht].
    unfold mbind, M_bind, bind, printf, emit. rewrite Ht.
    eexists. reflexivity.
Qed.

Lemma query_outputs_returns st outs (w : W) :
  exists t, Tools.query_outputs st outs w = (Val tt, w, t).
Proof.
  induction outs as [|o outs [t Ht]]; cbn [Tools.query_outputs].
  - eexists. reflexivity.
  - unfold mbind, M_bind, bind, printf, emit. rewrite Ht.
    eexists. reflexivity.
Qed.

Lemma query_out_edges_returns st edges (w : W) :
  exists t, Tools.query_out_edges st edges w = (Val tt, w, t).
Proof.
  induction edges as [|e edges [t Ht]]; cbn [Tools.query_out_edges].
  - eexists. reflexivity.
  - destruct (query_outputs_returns st (outputs_ st e) w) as [t1 H1].
    unfold mbind, M_bind, bind. rewrite H1, Ht. eexists. reflexivity.
Qed.

Lemma ToolQuery_loop_status st argv (w : W) :
  exists status t,
    Tools.ToolQuery_loop env gr st argv w = (Val status, w, t) /\
    (status = 0 \/ status = 1) /\
    (status = 0 <-> Forall (fun a => is_Some (LookupNode st a)) argv).
Proof.
  induction argv as [|arg argv IH]; cbn [Tools.ToolQuery_loop].
  - exists 0, []. split; [reflexivity|]. split; [auto|].
    split; [constructor | reflexivity].
  - destruct (LookupNode st arg) as [node|] eqn:Hl.
    + destruct IH as (status & t & Hrec & H01 & Hiff).
      assert (Hin : exists t1,
        match in_edge gr node with
        | Some edge =>
            printf ("  input: " +:+ rule_name gr edge +:+ nl);;
            Tools.query_inputs gr st edge (inputs_ gr edge) 0
        | None => ret tt
        end w = (Val tt, w, t1)).
      { destruct (in_edge gr node) as [edge|]; [|eexists; reflexivity].
        destruct (query_inputs_returns st edge (inputs_ gr edge) 0%nat w)
          as [t1 H1].
        unfold mbind, M_bind, bind, printf, emit. rewrite H1.
        eexists. reflexivity. }
      destruct Hin as [t1 H1].
      destruct (query_out_edges_returns st (out_edges st node) w) as [t2 H2].
      exists status. eexists. split; [|split; [exact H01|]].
      * unfold mbind, M_bind, bind, printf, emit in *.
        rewrite H1, H2, Hrec. reflexivity.
      * rewrite Hiff. split.
        -- intros H. constructor; [rewrite Hl; eauto | exact H].
        -- intros H. inversion H; assumption.
    + exists 1.
      assert (Ht : exists t,
        (match SpellcheckNode env st arg with
         | Some suggestion =>
             printf (arg +:+ " unknown, did you mean " +:+
                     node_path st suggestion +:+ "?" +:+ nl)
         | None => printf (arg +:+ " unknown" +:+ nl)
         end;; ret 1) w = (Val 1, w, t)).
      { destruct (SpellcheckNode env st arg); eexists; reflexivity. }
      destruct Ht as [t Ht]. exists t. split; [exact Ht|]. split; [auto|].
      split; [discriminate|]. intros H. inversion H as [|? ? Hs _].
      rewrite Hl in Hs. destruct Hs as [? Hs]. discriminate Hs.
Qed.

(** X15.  [query] returns 0 exactly when it is given at least one
    argument and every argument is, as it is written, the path of a node;
    it returns 1 otherwise.  It never exits by itself and leaves the world
    as it was. *)
Theorem ToolQuery_status (g : Globals) (argv : list string) (w : W) :
  exists status t,
    Tools.ToolQuery env gr g argv w = (Val status, w, t) /\
    (status = 0 \/ status = 1) /\
    (status = 0 <->
     argv <> [] /\
     Forall (fun a => is_Some (LookupNode (state g) a)) argv).
Proof.
  unfold Tools.ToolQuery. destruct argv as [|arg argv].
  - exists 1. eexists. split; [reflexivity|]. split; [auto|].
    split; [discriminate | intros [H _]; congruence].
  - destruct (ToolQuery_loop_status (state g) (arg :: argv) w)
      as (status & t & Hrun & H01 & Hiff).
    exists status, t. split; [exact Hrun|]. split; [exact H01|].
    rewrite Hiff. split; [intros H; split; [discriminate | exact H]|].
    intros [_ H]. exact H.
Qed.

(** ** [targets depth N] *)

Lemma print_indent_events indent (w : W) :
  Tools.print_indent indent w = (Val tt, w, replicate indent (Stdout "  ")).
Proof.
  induction indent as [|n IH]; [reflexivity|].
  cbn [Tools.print_indent replicate].
  unfold mbind, M_bind, bind, printf, emit. rewrite IH. reflexivity.
Qed.


Lemma ToolTargetsList_nodes_nil fuel st depth indent :
  Tools.ToolTargetsList_nodes (W:=W) gr (S fuel) st [] depth indent
  = ret (Some 0).
Proof. reflexivity. Qed.

Lemma ToolTargetsList_nodes_cons fuel st n ns depth indent :
  Tools.ToolTargetsList_nodes (W:=W) gr (S fuel) st (n :: ns) depth indent
  = (Tools.print_indent indent;;
     r ← match in_edge gr n with
         | Some edge =>
             printf (node_path st n +:+ ": " +:+ rule_name gr edge +:+ nl);;
             if (1 <? depth) || (depth <=? 0) then
               Tools.ToolTargetsList_nodes gr fuel st (inputs_ gr edge)
                 (CInt.to_int (depth - 1)) (S indent)
             else ret (Some 0)
         | None => printf (node_path st n +:+ nl);; ret (Some 0)
         end;
     match r with
     | None => ret None
     | Some _ => Tools.ToolTargetsList_nodes gr (S fuel) st ns depth indent
     end).
Proof. reflexivity. Qed.

Lemma ToolTargetsList_nodes_terminates fuel st nodes depth indent (w : W) :
  1 <= depth <= CInt.INT_MAX ->
  (Z.to_nat depth <= fuel)%nat ->
  exists t,
    Tools.ToolTargetsList_nodes gr fuel st nodes depth indent w
    = (Val (Some 0), w, t).
Proof.
  revert nodes depth indent.
  induction fuel as [|fuel IH]; intros nodes depth indent Hd Hf; [lia|].
  induction nodes as [|n ns IHn].
  - rewrite ToolTargetsList_nodes_nil. eexists. reflexivity.
  - rewrite ToolTargetsList_nodes_cons.
    destruct IHn as [tn Hn].
    assert (Hr : exists t1,
      match in_edge gr n with
      | Some edge =>
          printf (node_path st n +:+ ": " +:+ rule_name gr edge +:+ nl);;
          if (1 <? depth) || (depth <=? 0) then
            Tools.ToolTargetsList_nodes gr fuel st (inputs_ gr edge)
              (CInt.to_int (depth - 1)) (S indent)
          else ret (Some 0)
      | None => printf (node_path st n +:+ nl);; ret (Some 0)
      end w = (Val (Some 0), w, t1)).
    { destruct (in_edge gr n) as [edge|]; [|eexists; reflexivity].
      destruct (Z.leb_spec depth 0) as [H0|H0]; [lia|].
      destruct (Z.ltb_spec 1 depth) as [H1|H1]; cbn [orb].
      - rewrite to_int_id
          by (unfold CInt.in_int, CInt.INT_MIN, CInt.INT_MAX in *; lia).
        destruct (IH (inputs_ gr edge) (depth - 1) (S indent)
                    ltac:(lia) ltac:(lia)) as [t1 H1'].
        unfold mbind, M_bind, bind, printf, emit. rewrite H1'.
        eexists. reflexivity.
      - eexists. reflexivity. }
    destruct Hr as [t1 Hr].
    unfold mbind, M_bind, bind in *.
    rewrite print_indent_events, Hr, Hn. eexists. reflexivity.
Qed.

Lemma ToolTargetsList_nodes_depth_1 fuel st nodes indent (w : W) :
  Tools.ToolTargetsList_nodes gr (S fuel) st nodes 1 indent w
  = (Val (Some 0), w,
     flat_map (fun n => replicate indent (Stdout "  ") ++
                        [Stdout (Tools.target_line gr st n)])%list nodes).
Proof.
  induction nodes as [|n ns IHn]; [reflexivity|].
  rewrite ToolTargetsList_nodes_cons.
  unfold mbind, M_bind, bind in *.
  rewrite print_indent_events. cbn [flat_map].
  unfold Tools.target_line at 1.
  destruct (in_edge gr n) as [edge|];
    try change ((1 <? 1) || (1 <=? 0)) with false; cbv iota;
    unfold printf, emit, ret; rewrite IHn;
    rewrite <- !app_assoc; reflexivity.
Qed.

(** X16.  [targets depth N] with [N >= 1] always ends, loops in the graph
    or not: the listing goes at most [N] levels down, so that [N] units of
    fuel are enough for it to return 0 with the world as it was.  With
    depth 1 (the default of [targets]) it prints exactly the nodes given,
    in order, one line each after the indentation: the path, followed by
    the rule of the edge that produces the node if there is one. *)
Theorem targets_depth_ends (fuel : nat) (st : State) (nodes : list NodeP)
    (depth : Z) (indent : nat) (w : W) :
  1 <= depth <= CInt.INT_MAX ->
  (Z.to_nat depth <= fuel)%nat ->
  exists t,
    Tools.ToolTargetsList_nodes gr fuel st nodes depth indent w
    = (Val (Some 0), w, t) /\
    (depth = 1 ->
     t = flat_map (fun n => replicate indent (Stdout "  ") ++
                            [Stdout (Tools.target_line gr st n)])%list
           nodes).
Proof.
  intros Hd Hf.
  destruct (ToolTargetsList_nodes_terminates fuel st nodes depth indent w
              Hd Hf) as [t Ht].
  exists t. split; [exact Ht|]. intros ->.
  destruct fuel as [|fuel]; [cbn in Hf; lia|].
  rewrite ToolTargetsList_nodes_depth_1 in Ht.
  injection Ht; intros; subst. reflexivity.
Qed.

(** ** [commands] *)

Lemma seen_more_left_less (E s s' : gset EdgeP) :
  s ⊆ s' -> E ∖ s' ⊆ E ∖ s.
Proof.
  intros Hs x Hx. apply elem_of_difference in Hx as [Hx1 Hx2].
  apply elem_of_difference. split; [exact Hx1|].
  intros Hx3. apply Hx2, Hs, Hx3.
Qed.

Lemma new_edge_left_less (E seen : gset EdgeP) (e : EdgeP) :
  e ∈ E -> e ∉ seen -> E ∖ ({[e]} ∪ seen) ⊂ E ∖ seen.
Proof.
  intros He Hin. split.
  - apply seen_more_left_less, union_subseteq_r.
  - intros Hsub.
    assert (Hx : e ∈ E ∖ ({[e]} ∪ seen)).
    { apply Hsub, elem_of_difference. split; [exact He | exact Hin]. }
    apply elem_of_difference in Hx as [_ Hx].
    apply Hx, elem_of_union_l, elem_of_singleton. reflexivity.
Qed.

Lemma seen_grows_twice (E s s1 s2 : gset EdgeP) :
  s ⊆ s1 -> s1 ⊆ E ∪ s -> s1 ⊆ s2 -> s2 ⊆ E ∪ s1 ->
  s ⊆ s2 /\ s2 ⊆ E ∪ s.
Proof.
  intros H1 H1' H2 H2'. split; [etrans; eassumption|].
  intros x Hx. apply H2', elem_of_union in Hx as [Hx|Hx].
  - apply elem_of_union_l, Hx.
  - apply H1', Hx.
Qed.

Lemma seen_grows_with_edge (E seen s1 : gset EdgeP) (e : EdgeP) :
  e ∈ E -> {[e]} ∪ seen ⊆ s1 -> s1 ⊆ E ∪ ({[e]} ∪ seen) ->
  seen ⊆ s1 /\ s1 ⊆ E ∪ seen.
Proof.
  intros He H1 H1'. split.
  - etrans; [apply union_subseteq_r | exact H1].
  - intros x Hx. apply H1', elem_of_union in Hx as [Hx|Hx].
    + apply elem_of_union_l, Hx.
    + apply elem_of_union in Hx as [Hx|Hx].
      * apply elem_of_singleton in Hx as ->. apply elem_of_union_l, He.
      * apply elem_of_union_r, Hx.
Qed.

Lemma PrintCommands_inputs_frame
    (rec : option EdgeP -> gset EdgeP -> M W (option (gset EdgeP))) :
  (forall edge seen w seen' w' t,
     rec edge seen w = (Val (Some seen'), w', t) ->
     w' = w /\ seen ⊆ seen' /\ (length t + size seen <= size seen')%nat) ->
  forall inputs seen w seen' w' t,
    Tools.PrintCommands_inputs gr rec inputs seen w
    = (Val (Some seen'), w', t) ->
    w' = w /\ seen ⊆ seen' /\ (length t + size seen <= size seen')%nat.
Proof.
  intros Hrec. induction inputs as [|i inputs IH]; intros seen w seen' w' t H.
  - cbn in H. injection H as <- <- <-. cbn. split; [|split]; auto; lia.
  - cbn [Tools.PrintCommands_inputs] in H.
    apply bind_inv in H as ([s1|] & w1 & t1 & t2 & H1 & H2 & ->);
      [|discriminate H2].
    apply Hrec in H1 as (-> & Hs1 & Hl1).
    apply IH in H2 as (-> & Hs2 & Hl2).
    split; [reflexivity|]. split; [etrans; eassumption|].
    rewrite length_app. lia.
Qed.

Lemma PrintCommands_frame fuel edge seen (w : W) seen' w' t :
  Tools.PrintCommands gr fuel edge seen w = (Val (Some seen'), w', t) ->
  w' = w /\ seen ⊆ seen' /\ (length t + size seen <= size seen')%nat.
Proof.
  revert edge seen w seen' w' t.
  induction fuel as [|fuel IH]; intros edge seen w seen' w' t H;
    [discriminate H|].
  cbn [Tools.PrintCommands] in H.
  destruct edge as [e|].
  2:{ injection H as <- <- <-. cbn. split; [|split]; auto; lia. }
  destruct (bool_decide (e ∈ seen)) eqn:Hin.
  { injection H as <- <- <-. cbn. split; [|split]; auto; lia. }
  apply bool_decide_eq_false in Hin.
  apply bind_inv in H as ([s1|] & w1 & t1 & t2 & H1 & H2 & ->);
    [|discriminate H2].
  apply (PrintCommands_inputs_frame _ IH) in H1 as (-> & Hs1 & Hl1).
  rewrite size_union in Hl1 by (apply disjoint_singleton_l, Hin). rewrite size_singleton in Hl1.
  apply bind_inv in H2 as ([] & w2 & t3 & t4 & H3 & H4 & ->).
  injection H4 as <- <- <-.
  assert (Hp : w2 = w /\ (length t3 <= 1)%nat).
  { destruct (is_phony gr e); cbn in H3; injection H3 as <- <-;
      cbn; auto. }
  destruct Hp as [-> Hp].
  split; [reflexivity|].
  split; [etrans; [apply union_subseteq_r | exact Hs1]|].
  rewrite !length_app. cbn. lia.
Qed.

(** X17.  [PrintCommands] prints at most one command per edge it sees for
    the first time: the number of lines it prints is at most the number of
    edges it adds to the set of the edges seen, which only grows; for an
    edge already seen, or for no edge, it prints nothing.  It leaves the
    world as it was. *)
Theorem PrintCommands_one_command_per_new_edge (fuel : nat)
    (edge : option EdgeP) (seen : gset EdgeP) (w : W)
    (seen' : gset EdgeP) (w' : W) (t : list Event) :
  Tools.PrintCommands gr fuel edge seen w = (Val (Some seen'), w', t) ->
  w' = w /\ seen ⊆ seen' /\
  (length t + size seen <= size seen')%nat /\
  ((forall e, edge = Some e -> e ∈ seen) -> seen' = seen /\ t = []).
Proof.
  intros H.
  destruct (PrintCommands_frame _ _ _ _ _ _ _ H) as (Hw & Hs & Hl).
  split; [exact Hw|]. split; [exact Hs|]. split; [exact Hl|].
  intros Hseen. destruct fuel as [|fuel]; [discriminate H|].
  cbn [Tools.PrintCommands] in H. destruct edge as [e|].
  - rewrite bool_decide_eq_true_2 in H by (apply Hseen; reflexivity).
    injection H as <- <- <-. auto.
  - injection H as <- <- <-. auto.
Qed.

Lemma PrintCommands_inputs_terminates
    (rec : option EdgeP -> gset EdgeP -> M W (option (gset EdgeP)))
    (E : gset EdgeP) (bound : nat) :
  (forall edge seen w,
     (forall e, edge = Some e -> e ∈ E) ->
     (size (E ∖ seen) < bound)%nat ->
     exists seen' t,
       rec edge seen w = (Val (Some seen'), w, t) /\
       seen ⊆ seen' /\ seen' ⊆ E ∪ seen) ->
  forall inputs seen w,
    (forall input e, input ∈ inputs -> in_edge gr input = Some e -> e ∈ E) ->
    (size (E ∖ seen) < bound)%nat ->
    exists seen' t,
      Tools.PrintCommands_inputs gr rec inputs seen w
      = (Val (Some seen'), w, t) /\
      seen ⊆ seen' /\ seen' ⊆ E ∪ seen.
Proof.
  intros Hrec. induction inputs as [|i inputs IH]; intros seen w Hin Hsz.
  - exists seen, []. split; [reflexivity|].
    split; [reflexivity | apply union_subseteq_r].
  - destruct (Hrec (in_edge gr i) seen w) as (s1 & t1 & H1 & Hs1 & Hs1');
      [intros e He; apply (Hin i); [left | exact He] | exact Hsz |].
    destruct (IH s1 w) as (s2 & t2 & H2 & Hs2 & Hs2').
    { intros input e Hi. apply Hin. right. exact Hi. }
    { eapply Nat.le_lt_trans; [|exact Hsz].
      apply subseteq_size, seen_more_left_less, Hs1. }
    exists s2, (t1 ++ t2)%list.
    split; [|exact (seen_grows_twice E seen s1 s2 Hs1 Hs1' Hs2 Hs2')].
    cbn [Tools.PrintCommands_inputs].
    unfold mbind, M_bind, bind. rewrite H1, H2. reflexivity.
Qed.

Lemma PrintCommands_terminates (E : gset EdgeP) :
  Tools.closed_under_inputs gr E ->
  forall fuel edge seen (w : W),
    (forall e, edge = Some e -> e ∈ E) ->
    (size (E ∖ seen) < fuel)%nat ->
    exists seen' t,
      Tools.PrintCommands gr fuel edge seen w = (Val (Some seen'), w, t) /\
      seen ⊆ seen' /\ seen' ⊆ E ∪ seen.
Proof.
  intros Hcl. induction fuel as [|fuel IH]; intros edge seen w He Hsz;
    [lia|].
  cbn [Tools.PrintCommands]. destruct edge as [e|].
  2:{ exists seen, []. split; [reflexivity|].
      split; [reflexivity | apply union_subseteq_r]. }
  specialize (He e eq_refl).
  destruct (bool_decide (e ∈ seen)) eqn:Hin.
  { exists seen, []. split; [reflexivity|].
    split; [reflexivity | apply union_subseteq_r]. }
  apply bool_decide_eq_false in Hin.
  destruct (PrintCommands_inputs_terminates _ E fuel IH (inputs_ gr e)
              ({[e]} ∪ seen) w) as (s1 & t1 & H1 & Hs1 & Hs1').
  { intros input e' Hi Hie. exact (Hcl e input e' He Hi Hie). }
  { assert (Hlt : (size (E ∖ ({[e]} ∪ seen)) < size (E ∖ seen))%nat).
    { apply subset_size, new_edge_left_less; assumption. }
    lia. }
  unfold mbind, M_bind, bind. rewrite H1.
  destruct (is_phony gr e); cbn.
  - exists s1, (t1 ++ [])%list. split; [reflexivity|].
    exact (seen_grows_with_edge E seen s1 e He Hs1 Hs1').
  - eexists s1, _. split; [reflexivity|].
    exact (seen_grows_with_edge E seen s1 e He Hs1 Hs1').
Qed.

(** X18.  [PrintCommands] ends on every finite graph, cycles included: for
    a finite set of edges that holds the edge asked for and, with each
    edge, the edges that produce its inputs, a recursion depth above the
    number of the edges of the set not seen yet is enough.  The result
    leaves the world as it was and adds only edges of that set to the
    edges seen. *)
Theorem PrintCommands_ends_on_a_finite_graph (E : gset EdgeP)
    (fuel : nat) (edge : option EdgeP) (seen : gset EdgeP) (w : W) :
  Tools.closed_under_inputs gr E ->
  (forall e, edge = Some e -> e ∈ E) ->
  (size (E ∖ seen) < fuel)%nat ->
  exists seen' t,
    Tools.PrintCommands gr fuel edge seen w = (Val (Some seen'), w, t) /\
    seen ⊆ seen' /\ seen' ⊆ E ∪ seen.
Proof.
  intros Hcl. apply PrintCommands_terminates. exact Hcl.
Qed.

Lemma ToolCommands_loop_bound (E : gset EdgeP) (fuel : nat) :
  (forall n e, in_edge gr n = Some e -> e ∈ E) ->
  (size E < fuel)%nat ->
  forall nodes seen (w : W),
    seen ⊆ E ->
    exists t,
      Tools.ToolCommands_loop gr fuel nodes seen w = (Val (Some 0), w, t) /\
      (length t + size seen <= size E)%nat.
Proof.
  intros HE Hfuel.
  assert (Hcl : Tools.closed_under_inputs gr E).
  { intros e input e' _ _ H. exact (HE _ _ H). }
  induction nodes as [|n nodes IH]; intros seen w Hseen.
  - exists []. split; [reflexivity|]. cbn.
    apply subseteq_size. exact Hseen.
  - destruct (PrintCommands_terminates E Hcl fuel (in_edge gr n) seen w)
      as (s1 & t1 & H1 & Hs1 & Hs1').
    { intros e He. exact (HE _ _ He). }
    { eapply Nat.le_lt_trans; [|exact Hfuel].
      apply subseteq_size. intros x Hx.
      apply elem_of_difference in Hx as [Hx _]. exact Hx. }
    destruct (PrintCommands_frame _ _ _ _ _ _ _ H1) as (_ & _ & Hl1).
    destruct (IH s1 w) as (t2 & H2 & Hl2); 
      [intros x Hx; apply Hs1', elem_of_union in Hx as [Hx|Hx];
       [exact Hx | apply Hseen, Hx]|].
    exists (t1 ++ t2)%list. split.
    + cbn [Tools.ToolCommands_loop]. unfold mbind, M_bind, bind.
      rewrite H1, H2. reflexivity.
    + rewrite length_app. lia.
Qed.

Lemma CollectTargets_loop_outcome st argv targets err (w : W) :
  exists r t,
    CollectTargets_loop env st argv targets err w = (r, w, t) /\
    match r with
    | Val (ok, _, _) => t = []
    | Exit c => c = 1
    end.
Proof.
  revert targets err. induction argv as [|arg argv IH]; intros targets err.
  - eexists _, _. split; [reflexivity|]. reflexivity.
  - cbn [CollectTargets_loop].
    destruct (CanonicalizePath env arg err) as [[ok path] err0].
    destruct ok; cbn [negb];
      [|eexists _, _; split; [reflexivity|]; reflexivity].
    destruct (split_caret path) as [path0 fd].
    destruct (LookupNode st path0) as [node|];
      [|eexists _, _; split; [reflexivity|]; reflexivity].
    destruct fd; [|apply IH].
    destruct (out_edges st node) as [|edge es];
      [eexists _, _; split; [reflexivity|]; reflexivity|].
    destruct (outputs_ st edge) as [|out os]; [|apply IH].
    eexists _, _; split; [reflexivity|]; reflexivity.
Qed.

Lemma CollectTargetsFromArgs_outcome st argv targets err (w : W) :
  exists r t,
    CollectTargetsFromArgs env st argv targets err w = (r, w, t) /\
    match r with
    | Val (ok, _, _) => t = []
    | Exit c => c = 1
    end.
Proof.
  destruct argv as [|arg argv]; [|apply CollectTargets_loop_outcome].
  cbn [CollectTargetsFromArgs].
  destruct (DefaultNodes env st err) as [nodes err'].
  destruct (negb (is_empty err')); eexists _, _; split; reflexivity.
Qed.

(** X19.  The tool [commands] ends on every finite graph, cycles included,
    and prints each command once at most: with a recursion depth above the
    number of the edges of the graph, it returns 0 after at most as many
    lines as there are edges, or returns 1 after the one error message of
    a target that could not be collected, or stops with the status 1 of a
    fatal error.  It leaves the world as it was. *)
Theorem ToolCommands_each_command_once_at_most (E : gset EdgeP)
    (fuel : nat) (g : Globals) (argv : list string) (w : W) :
  (forall n e, in_edge gr n = Some e -> e ∈ E) ->
  (size E < fuel)%nat ->
  exists r t,
    Tools.ToolCommands env gr fuel g argv w = (r, w, t) /\
    match r with
    | Val (Some status) =>
        (status = 0 /\ (length t <= size E)%nat) \/
        (status = 1 /\ exists err, t = [EvError err])
    | Val None => False
    | Exit c => c = 1
    end.
Proof.
  intros HE Hfuel. unfold Tools.ToolCommands.
  destruct (CollectTargetsFromArgs_outcome (state g) argv [] EmptyString w)
    as (r & t & Hr & Ht).
  unfold mbind, M_bind, bind. rewrite Hr.
  destruct r as [[[ok nodes] err]|c].
  - subst t. destruct ok; cbn [negb].
    + destruct (ToolCommands_loop_bound E fuel HE Hfuel nodes ∅ w)
        as (t & Hl & Hb); [apply empty_subseteq|].
      rewrite Hl. eexists _, _. split; [reflexivity|].
      left. split; [reflexivity|]. cbn. lia.
    + eexists _, _. split; [reflexivity|].
      right. split; [reflexivity|]. eexists. reflexivity.
  - eexists _, _. split; [reflexivity|]. exact Ht.
Qed.

(** ** [clean] *)

Lemma ToolClean_options_flags (cs : list getopt_ret) (generator rules : bool) :
  Forall (fun r => ret_opt r = char "g" \/ ret_opt r = char "r") cs ->
  Tools.ToolClean_options cs generator rules
  = Some (generator || existsb (fun r => ret_opt r =? char "g") cs,
          rules || existsb (fun r => ret_opt r =? char "r") cs).
Proof.
  revert generator rules.
  induction cs as [|c cs IH]; intros generator rules H.
  - cbn. rewrite !orb_false_r. reflexivity.
  - inversion H as [|? ? Hc Hcs]; subst.
    cbn [Tools.ToolClean_options existsb].
    destruct Hc as [Hc|Hc]; rewrite Hc.
    + change (char "g" =? -1) with false.
      change (char "g" =? char "g") with true.
      change (char "g" =? char "r") with false. cbv iota.
      rewrite (IH _ _ Hcs). cbn [orb]. rewrite orb_true_r. reflexivity.
    + change (char "r" =? -1) with false.
      change (char "r" =? char "g") with false.
      change (char "r" =? char "r") with true. cbv iota.
      rewrite (IH _ _ Hcs). cbn [orb]. rewrite orb_true_r. reflexivity.
Qed.

Lemma ToolClean_rest_flags (cs : list getopt_ret) (er : list string) :
  Forall (fun r => ret_opt r = char "g" \/ ret_opt r = char "r") cs ->
  Tools.ToolClean_rest cs er = er.
Proof.
  induction cs as [|c cs IH]; intros H; [reflexivity|].
  inversion H as [|? ? Hc Hcs]; subst. cbn [Tools.ToolClean_rest].
  destruct Hc as [Hc|Hc]; rewrite Hc.
  - change (char "g" =? -1) with false. cbv iota. exact (IH Hcs).
  - change (char "r" =? -1) with false. cbv iota. exact (IH Hcs).
Qed.

Lemma ToolClean_options_bad (pre : list getopt_ret) (c : getopt_ret)
    (post : list getopt_ret) (generator rules : bool) :
  Forall (fun r => ret_opt r = char "g" \/ ret_opt r = char "r") pre ->
  ret_opt c <> -1 -> ret_opt c <> char "g" -> ret_opt c <> char "r" ->
  Tools.ToolClean_options (pre ++ c :: post) generator rules = None.
Proof.
  intros Hpre H1 Hg Hr. revert generator rules.
  induction pre as [|p pre IH]; intros generator rules.
  - cbn [app Tools.ToolClean_options].
    apply Z.eqb_neq in H1, Hg, Hr. rewrite H1, Hg, Hr. reflexivity.
  - inversion Hpre as [|? ? Hp Hps]; subst.
    cbn [app Tools.ToolClean_options].
    destruct Hp as [Hp|Hp]; rewrite Hp.
    + change (char "g" =? -1) with false.
      change (char "g" =? char "g") with true. cbv iota. apply (IH Hps).
    + change (char "r" =? -1) with false.
      change (char "r" =? char "g") with false.
      change (char "r" =? char "r") with true. cbv iota. apply (IH Hps).
Qed.

(** X20.  An option of [clean] other than [-g] and [-r] cleans nothing,
    wherever it stands among the options: the tool prints its usage and
    returns 1 without calling the cleaner. *)
Theorem ToolClean_bad_option_cleans_nothing (name : string) (g : Globals)
    (argv : list string) (w : W) (pre : list getopt_ret) (c : getopt_ret)
    (post : list getopt_ret) :
  calls (getopt tenv (name :: argv) "hgr") = (pre ++ c :: post)%list ->
  Forall (fun r => ret_opt r = char "g" \/ ret_opt r = char "r") pre ->
  ret_opt c <> -1 -> ret_opt c <> char "g" -> ret_opt c <> char "r" ->
  Tools.ToolClean tenv name g argv w = (Val 1, w, [Stdout Tools.clean_usage]).
Proof.
  intros Hcalls Hpre H1 Hg Hr. unfold Tools.ToolClean.
  rewrite Hcalls, (ToolClean_options_bad pre c post _ _ Hpre H1 Hg Hr).
  reflexivity.
Qed.

(** X21.  When every option of [clean] is [-g] or [-r], their order and
    number do not matter, and one cleaner at most is called: with [-r],
    the rules named, or the error [expected a rule to clean] and the
    status 1 when none is; without [-r], the targets named, or everything
    when none is.  [-g] only reaches the cleaning of everything. *)
Theorem ToolClean_cleans_what_the_options_say (name : string) (g : Globals)
    (argv : list string) (run : getopt_run) :
  getopt tenv (name :: argv) "hgr" = run ->
  Forall (fun r => ret_opt r = char "g" \/ ret_opt r = char "r")
    (calls run) ->
  Tools.ToolClean tenv name g argv
  = match end_rest run with
    | [] =>
        if existsb (fun r => ret_opt r =? char "r") (calls run)
        then Error "expected a rule to clean";; ret 1
        else call (EvTool "Cleaner::CleanAll" [])
               (Cleaner_CleanAll tenv (state g) (config g)
                  (existsb (fun r => ret_opt r =? char "g") (calls run)))
    | rest =>
        if existsb (fun r => ret_opt r =? char "r") (calls run) then
          call (EvTool "Cleaner::CleanRules" rest)
            (Cleaner_CleanRules tenv (state g) (config g) rest)
        else
          call (EvTool "Cleaner::CleanTargets" rest)
            (Cleaner_CleanTargets tenv (state g) (config g) rest)
    end.
Proof.
  intros <- H. unfold Tools.ToolClean.
  rewrite (ToolClean_options_flags _ _ _ H).
  rewrite (ToolClean_rest_flags _ _ H). cbn [orb].
  destruct (end_rest (getopt tenv (name :: argv) "hgr")) as [|a rest];
    destruct (existsb (fun r => ret_opt r =? char "r")
                (calls (getopt tenv (name :: argv) "hgr")));
    reflexivity.
Qed.

(** ** [targets] *)

Lemma to_int_le_INT_MAX z : CInt.to_int z <= CInt.INT_MAX.
Proof.
  unfold CInt.to_int, CInt.INT_MAX.
  pose proof (Z.mod_pos_bound (z + 2 ^ 31) (2 ^ 32) ltac:(lia)). lia.
Qed.

Lemma source_inputs_returns st inputs (w : W) :
  exists t, Tools.source_inputs gr st inputs w = (Val tt, w, t).
Proof.
  induction inputs as [|i inputs [t IH]]; [eexists; reflexivity|].
  cbn [Tools.source_inputs]. unfold mbind, M_bind, bind.
  destruct (in_edge gr i); cbn; rewrite IH; eexists; reflexivity.
Qed.

Lemma ToolTargetsSourceList_returns st edges (w : W) :
  exists t, Tools.ToolTargetsSourceList_edges gr st edges w = (Val 0, w, t).
Proof.
  induction edges as [|e edges [t IH]]; [eexists; reflexivity|].
  cbn [Tools.ToolTargetsSourceList_edges]. unfold mbind, M_bind, bind.
  destruct (source_inputs_returns st (inputs_ gr e) w) as [t1 H1].
  rewrite H1, IH. eexists; reflexivity.
Qed.

Lemma all_outputs_returns st e outs (w : W) :
  exists t, Tools.all_outputs gr st e outs w = (Val tt, w, t).
Proof.
  induction outs as [|o outs [t IH]]; [eexists; reflexivity|].
  cbn [Tools.all_outputs]. unfold mbind, M_bind, bind, printf, emit.
  rewrite IH. eexists; reflexivity.
Qed.

Lemma ToolTargetsList_all_returns st edges (w : W) :
  exists t, Tools.ToolTargetsList_all_edges gr st edges w = (Val 0, w, t).
Proof.
  induction edges as [|e edges [t IH]]; [eexists; reflexivity|].
  cbn [Tools.ToolTargetsList_all_edges]. unfold mbind, M_bind, bind.
  destruct (all_outputs_returns st e (outputs_ st e) w) as [t1 H1].
  rewrite H1, IH. eexists; reflexivity.
Qed.

Lemma targets_mode_depth argv d :
  Tools.targets_mode argv = Tools.DepthList d -> d <= CInt.INT_MAX.
Proof.
  unfold Tools.targets_mode. destruct argv as [|mode rest].
  { intros H. injection H as <-. unfold CInt.INT_MAX. lia. }
  destruct (String.eqb mode "rule").
  { destruct rest as [|rule ?]; [discriminate|].
    destruct (is_empty rule); discriminate. }
  destruct (String.eqb mode "depth").
  { destruct rest as [|a ?]; intros H; injection H as <-.
    - unfold CInt.INT_MAX. lia.
    - apply to_int_le_INT_MAX. }
  destruct (String.eqb mode "all"); discriminate.
Qed.

(** X22.  The tool [targets] returns 1 only for a mode it does not know and
    when the root nodes cannot be determined, and 0 otherwise; it leaves
    the world as it was.  This holds for the modes [rule] and [all] on
    every graph and for a depth of at least 1 that the recursion may
    reach. *)
Theorem ToolTargets_status (fuel : nat) (g : Globals) (argv : list string)
    (w : W) :
  (forall d, Tools.targets_mode argv = Tools.DepthList d ->
             1 <= d /\ (Z.to_nat d <= fuel)%nat) ->
  exists status t,
    Tools.ToolTargets tenv gr fuel g argv w = (Val (Some status), w, t) /\
    (status = 0 \/ status = 1) /\
    (status = 1 <->
     (exists mode, Tools.targets_mode argv = Tools.UnknownMode mode) \/
     (exists d, Tools.targets_mode argv = Tools.DepthList d /\
                (RootNodes tenv (state g) EmptyString).2 <> EmptyString)).
Proof.
  intros Hd. unfold Tools.ToolTargets.
  pose proof (targets_mode_depth argv) as Hmax.
  destruct (Tools.targets_mode argv) as [|rule| |depth|mode].
  - destruct (ToolTargetsSourceList_returns (state g) (edges_ gr) w)
      as [t Ht].
    exists 0. eexists. unfold Tools.ToolTargetsSourceList.
    unfold mbind, M_bind, bind. rewrite Ht. split; [reflexivity|].
    split; [auto|]. split; [discriminate|].
    intros [[? H]|(? & H & _)]; discriminate H.
  - exists 0. eexists. unfold Tools.ToolTargetsList_rule.
    unfold mbind, M_bind, bind. rewrite print_lines_events.
    split; [reflexivity|].
    split; [auto|]. split; [discriminate|].
    intros [[? H]|(? & H & _)]; discriminate H.
  - destruct (ToolTargetsList_all_returns (state g) (edges_ gr) w)
      as [t Ht].
    exists 0. eexists. unfold Tools.ToolTargetsList_all.
    unfold mbind, M_bind, bind. rewrite Ht. split; [reflexivity|].
    split; [auto|]. split; [discriminate|].
    intros [[? H]|(? & H & _)]; discriminate H.
  - destruct (Hd depth eq_refl) as [H1 Hf].
    specialize (Hmax depth eq_refl).
    destruct (RootNodes tenv (state g) EmptyString) as [roots err].
    cbn [snd]. destruct err as [|c err]; cbn [is_empty].
    + destruct (ToolTargetsList_nodes_terminates fuel (state g) roots depth
                  0%nat w) as [t Ht]; [lia | exact Hf |].
      exists 0, t. change (is_empty EmptyString) with true. cbv iota.
      split; [exact Ht|]. split; [auto|]. split; [discriminate|].
      intros [[? H]|(? & _ & H)]; [discriminate H | contradiction].
    + exists 1. eexists. split; [reflexivity|]. split; [auto|].
      split; [|reflexivity]. intros _. right. exists depth.
      split; [reflexivity | discriminate].
  - exists 1.
    assert (Ht : exists t,
      (match SpellcheckString tenv mode ["rule"; "depth"; "all"] with
       | Some suggestion =>
           Error ("unknown target tool mode '" +:+ mode +:+
                  "', did you mean '" +:+ suggestion +:+ "'?")
       | None => Error ("unknown target tool mode '" +:+ mode +:+ "'")
       end;; ret (Some 1)) w = (Val (Some 1), w, t)).
    { destruct (SpellcheckString tenv mode _); eexists; reflexivity. }
    destruct Ht as [t Ht]. exists t. split; [exact Ht|]. split; [auto|].
    split; [|reflexivity]. intros _. left. exists mode. reflexivity.
Qed.

End ToolFacts.

(** * The further properties on concrete runs *)

Lemma CollectTargets_one_target_per_argument_witness :
  CollectTargets_loop Sample.quiet_env (Sample.graph "")
    ["foo.cc^"; "lonely"] [] "" Sample.no_dirs
  = (Val (true, [1%nat; 2%nat], ""), Sample.no_dirs, []) /\
  exists new,
    [1%nat; 2%nat] = ([] ++ new)%list /\
    length new = 2%nat /\
    Forall2 (resolves Sample.quiet_env (Sample.graph ""))
      ["foo.cc^"; "lonely"] new.
Proof.
  assert (H : CollectTargets_loop Sample.quiet_env (Sample.graph "")
                ["foo.cc^"; "lonely"] [] "" Sample.no_dirs
              = (Val (true, [1%nat; 2%nat], ""), Sample.no_dirs, []))
    by reflexivity.
  split; [exact H|].
  destruct (CollectTargets_one_target_per_argument Sample.quiet_env
              (Sample.graph "") ["foo.cc^"; "lonely"] [] "" Sample.no_dirs
              [1%nat; 2%nat] "" Sample.no_dirs [] H) as (_ & _ & Hnew).
  exact Hnew.
Defined.

Lemma RunTool_runs_the_entry_of_the_name_witness :
  ("clean", "clean built files", ToolClean Sample.quiet_env)
    ∈ tools Sample.quiet_env /\
  RunTool Sample.quiet_env "clean"
    (globals (Sample.locals "" "clean" ["-g"])) ["-g"] Sample.no_dirs
  = (Val 0, Sample.no_dirs, [EvTool "clean" ["-g"]]).
Proof.
  assert (H : ("clean", "clean built files", ToolClean Sample.quiet_env)
                ∈ tools Sample.quiet_env).
  { apply (list_elem_of_lookup_2 _ 1%nat). reflexivity. }
  split; [exact H|].
  exact (RunTool_runs_the_entry_of_the_name Sample.quiet_env
           ("clean", "clean built files", ToolClean Sample.quiet_env)
           (globals (Sample.locals "" "clean" ["-g"])) ["-g"]
           Sample.no_dirs H).
Defined.

Lemma RunTool_list_and_unknown_witness :
  ("clena" ∉ map tool_name (tools Sample.quiet_env)) /\
  RunTool Sample.quiet_env "clena"
    (globals (Sample.locals "" "clena" [])) [] Sample.no_dirs
  = (Val 1, Sample.no_dirs, [EvError "unknown tool 'clena'"]).
Proof.
  assert (H : "clena" ∉ map tool_name (tools Sample.quiet_env)).
  { apply (bool_decide_unpack _). vm_compute. exact I. }
  split; [exact H|].
  exact (RunTool_list_and_unknown Sample.quiet_env "clena"
           (globals (Sample.locals "" "clena" [])) [] Sample.no_dirs H).
Defined.

Lemma tool_ends_the_option_loop_witness :
  Forall (fun c => ret_opt c <> -1)
    [Getopt.mk_ret (char "n") "" ["-t"; "clean"; "-x"]] /\
  tool (with_args
          (with_config
             (main_init Sample.quiet_env
                ["ninja"; "-n"; "-t"; "clean"; "-x"])
             (with_dry_run
                (config (globals (main_init Sample.quiet_env
                                    ["ninja"; "-n"; "-t"; "clean"; "-x"])))
                true)) []) = EmptyString /\
  calls (Getopt.getopt_long ["ninja"; "-n"; "-t"; "clean"; "-x"])
  = ([Getopt.mk_ret (char "n") "" ["-t"; "clean"; "-x"]] ++
     Getopt.mk_ret (char "t") "clean" ["-x"] ::
     [Getopt.mk_ret (char "?") "" []])%list /\
  exists l,
    main_options
      ([Getopt.mk_ret (char "n") "" ["-t"; "clean"; "-x"]] ++
       Getopt.mk_ret (char "t") "clean" ["-x"] ::
       [Getopt.mk_ret (char "?") "" []])%list []
      (main_init Sample.quiet_env ["ninja"; "-n"; "-t"; "clean"; "-x"])
      Sample.no_dirs
    = (Val l, Sample.no_dirs, []) /\
    tool l = "clean" /\ args l = ["-x"] /\
    dry_run (config (globals l)) = true.
Proof.
  pose (argv := ["ninja"; "-n"; "-t"; "clean"; "-x"]).
  pose (pre := [Getopt.mk_ret (char "n") "" ["-t"; "clean"; "-x"]]).
  pose (rt := Getopt.mk_ret (char "t") "clean" ["-x"]).
  pose (post := [Getopt.mk_ret (char "?") "" []]).
  pose (l0 := main_init Sample.quiet_env argv).
  pose (l1 := with_args
                (with_config l0 (with_dry_run (config (globals l0)) true))
                []).
  assert (H1 : Forall (fun c => ret_opt c <> -1) pre)
    by (repeat constructor; discriminate).
  assert (H2 : main_options pre [] l0 Sample.no_dirs
               = (Val l1, Sample.no_dirs, [])) by reflexivity.
  assert (H3 : tool l1 = EmptyString) by reflexivity.
  assert (H4 : ret_opt rt = char "t") by reflexivity.
  assert (H5 : ret_optarg rt <> EmptyString) by discriminate.
  split; [exact H1|]. split; [exact H3|]. split; [reflexivity|].
  exists (with_tool (with_args l1 (ret_rest rt)) (ret_optarg rt)).
  split; [|repeat split].
  exact (tool_ends_the_option_loop pre rt post [] l0 l1 Sample.no_dirs
           Sample.no_dirs [] H1 H2 H3 H4 H5).
Defined.


Lemma exit_status_0_or_1_unless_a_tool_ran_witness :
  count is_tool
    (events (main Sample.failing_env (2 + 0) ["ninja"; "foo.o"]
               Sample.no_dirs)) = 0%nat /\
  exists status,
    exit_status (main Sample.failing_env (2 + 0) ["ninja"; "foo.o"]
                   Sample.no_dirs) = Some status /\
    (status = 0 \/ status = 1).
Proof.
  assert (H : count is_tool
                (events (main Sample.failing_env (2 + 0) ["ninja"; "foo.o"]
                           Sample.no_dirs)) = 0%nat) by reflexivity.
  split; [exact H|].
  exact (exit_status_0_or_1_unless_a_tool_ran Sample.failing_env 0
           ["ninja"; "foo.o"] Sample.no_dirs H).
Defined.

Lemma reload_keeps_the_command_line_witness :
  main_pass (Sample.env "" (Some 3%nat) true true true)
    (Sample.locals "" "" ["foo.o"]) Sample.no_dirs
  = (Val (with_globals
            (with_rebuilt_manifest (Sample.locals "" "" ["foo.o"]) true)
            (ResetState (globals (Sample.locals "" "" ["foo.o"])))),
     Sample.no_dirs,
     [EvParserLoad "build.ninja"; EvBuildLogLoad ".ninja_log";
      EvBuildLogOpenForWrite ".ninja_log";
      EvRebuildManifest "build.ninja"; EvAddTarget 3%nat; EvBuild;
      EvResetState]) /\
  rebuilt_manifest (Sample.locals "" "" ["foo.o"]) = false /\
  args (with_globals
          (with_rebuilt_manifest (Sample.locals "" "" ["foo.o"]) true)
          (ResetState (globals (Sample.locals "" "" ["foo.o"]))))
  = ["foo.o"].
Proof.
  pose (env := Sample.env "" (Some 3%nat) true true true).
  pose (l := Sample.locals "" "" ["foo.o"]).
  pose (l' := with_globals (with_rebuilt_manifest l true)
                (ResetState (globals l))).
  pose (t := [EvParserLoad "build.ninja"; EvBuildLogLoad ".ninja_log";
              EvBuildLogOpenForWrite ".ninja_log";
              EvRebuildManifest "build.ninja"; EvAddTarget 3%nat; EvBuild;
              EvResetState]).
  assert (H : main_pass env l Sample.no_dirs = (Val l', Sample.no_dirs, t))
    by reflexivity.
  split; [exact H|].
  destruct (reload_keeps_the_command_line env l l' Sample.no_dirs
              Sample.no_dirs t H) as (Hr & Hl & _).
  split; [exact Hr|]. fold l l'. rewrite Hl. reflexivity.
Defined.

Lemma one_manifest_file_per_run_witness :
  main_options
    (calls (getopt_long Sample.quiet_env ["ninja"; "-f"; "other.ninja"]))
    (end_rest (getopt_long Sample.quiet_env ["ninja"; "-f"; "other.ninja"]))
    (main_init Sample.quiet_env ["ninja"; "-f"; "other.ninja"])
    Sample.no_dirs
  = (Val (with_args
            (with_input_file
               (main_init Sample.quiet_env ["ninja"; "-f"; "other.ninja"])
               "other.ninja") []),
     Sample.no_dirs, []) /\
  (EvParserLoad "other.ninja"
     ∈ events (main Sample.quiet_env 2 ["ninja"; "-f"; "other.ninja"]
                 Sample.no_dirs) \/
   EvRebuildManifest "other.ninja"
     ∈ events (main Sample.quiet_env 2 ["ninja"; "-f"; "other.ninja"]
                 Sample.no_dirs)) /\
  "other.ninja"
  = input_file
      (with_args
         (with_input_file
            (main_init Sample.quiet_env ["ninja"; "-f"; "other.ninja"])
            "other.ninja") []).
Proof.
  pose (argv := ["ninja"; "-f"; "other.ninja"]).
  pose (l := with_args
               (with_input_file (main_init Sample.quiet_env argv)
                  "other.ninja") []).
  assert (H1 : main_options (calls (getopt_long Sample.quiet_env argv))
                 (end_rest (getopt_long Sample.quiet_env argv))
                 (main_init Sample.quiet_env argv) Sample.no_dirs
               = (Val l, Sample.no_dirs, [])) by reflexivity.
  assert (H2 : EvParserLoad "other.ninja"
                 ∈ events (main Sample.quiet_env 2 argv Sample.no_dirs) \/
               EvRebuildManifest "other.ninja"
                 ∈ events (main Sample.quiet_env 2 argv Sample.no_dirs)).
  { left. apply (list_elem_of_lookup_2 _ 0%nat). reflexivity. }
  split; [exact H1|]. split; [exact H2|].
  destruct (one_manifest_file_per_run Sample.quiet_env 2 argv l
              Sample.no_dirs Sample.no_dirs [] "other.ninja" H1 H2)
    as [Hf _].
  exact Hf.
Defined.

Lemma no_build_before_the_log_is_open_witness :
  events (main_pass Sample.failing_env (Sample.locals "out" "" ["foo.o"])
            Sample.no_dirs)
  = ([EvParserLoad "build.ninja"; EvMakeDir "out";
      EvBuildLogLoad "out/.ninja_log";
      EvBuildLogOpenForWrite "out/.ninja_log";
      EvRebuildManifest "build.ninja"; EvAddTarget 1%nat] ++
     EvBuild ::
     [Stdout ("ninja: build stopped: subcommand failed." +:+ nl)])%list /\
  is_build_step EvBuild = true /\
  exists log_path,
    EvBuildLogOpenForWrite log_path
      ∈ [EvParserLoad "build.ninja"; EvMakeDir "out";
         EvBuildLogLoad "out/.ninja_log";
         EvBuildLogOpenForWrite "out/.ninja_log";
         EvRebuildManifest "build.ninja"; EvAddTarget 1%nat].
Proof.
  pose (l := Sample.locals "out" "" ["foo.o"]).
  pose (t1 := [EvParserLoad "build.ninja"; EvMakeDir "out";
               EvBuildLogLoad "out/.ninja_log";
               EvBuildLogOpenForWrite "out/.ninja_log";
               EvRebuildManifest "build.ninja"; EvAddTarget 1%nat]).
  pose (t2 := [Stdout ("ninja: build stopped: subcommand failed." +:+ nl)]).
  assert (H1 : events (main_pass Sample.failing_env l Sample.no_dirs)
               = (t1 ++ EvBuild :: t2)%list) by reflexivity.
  assert (H2 : is_build_step EvBuild = true) by reflexivity.
  split; [exact H1|]. split; [exact H2|].
  exact (no_build_before_the_log_is_open Sample.failing_env l Sample.no_dirs
           t1 EvBuild t2 H1 H2).
Defined.

Lemma no_metrics_without_d_stats_witness :
  Forall (fun c => ret_opt c = char "d" -> ret_optarg c <> "stats")
    (calls (getopt_long Sample.quiet_env ["ninja"; "-n"; "-d"; "list"])) /\
  count is_metrics
    (events (main Sample.quiet_env 2 ["ninja"; "-n"; "-d"; "list"]
               Sample.no_dirs)) = 0%nat.
Proof.
  assert (H : Forall (fun c => ret_opt c = char "d" ->
                               ret_optarg c <> "stats")
                (calls (getopt_long Sample.quiet_env
                          ["ninja"; "-n"; "-d"; "list"]))).
  { vm_compute. repeat constructor; intros _ H; discriminate H. }
  split; [exact H|].
  exact (no_metrics_without_d_stats Sample.quiet_env 2
           ["ninja"; "-n"; "-d"; "list"] Sample.no_dirs H).
Defined.

Lemma failed_chdir_is_fatal_witness :
  working_dir
    (with_args
       (with_working_dir
          (main_init ToolSample.locked_env ["ninja"; "-C"; "nowhere"])
          "nowhere") []) = Some "nowhere" /\
  (chdir ToolSample.locked_env "nowhere" Sample.no_dirs).1 < 0 /\
  exit_status (main ToolSample.locked_env 2 ["ninja"; "-C"; "nowhere"]
                 Sample.no_dirs) = Some 1 /\
  events (main ToolSample.locked_env 2 ["ninja"; "-C"; "nowhere"]
            Sample.no_dirs)
  = [Stdout ("ninja: Entering directory `nowhere'" +:+ nl);
     EvChdir "nowhere";
     EvFatal "chdir to 'nowhere' - No such file or directory"].
Proof.
  pose (argv := ["ninja"; "-C"; "nowhere"]).
  pose (l := with_args
               (with_working_dir (main_init ToolSample.locked_env argv)
                  "nowhere") []).
  assert (H1 : main_options (calls (getopt_long ToolSample.locked_env argv))
                 (end_rest (getopt_long ToolSample.locked_env argv))
                 (main_init ToolSample.locked_env argv) Sample.no_dirs
               = (Val l, Sample.no_dirs, [])) by reflexivity.
  assert (H2 : working_dir l = Some "nowhere") by reflexivity.
  assert (H3 : (chdir ToolSample.locked_env "nowhere" Sample.no_dirs).1 < 0)
    by reflexivity.
  split; [exact H2|]. split; [exact H3|].
  exact (failed_chdir_is_fatal ToolSample.locked_env 2 argv Sample.no_dirs
           l Sample.no_dirs [] "nowhere" H1 H2 H3).
Defined.

Lemma targets_depth_ends_witness :
  1 <= 2 <= CInt.INT_MAX /\
  (Z.to_nat 2 <= 2)%nat /\
  exists t,
    Tools.ToolTargetsList_nodes ToolSample.cycle 2 (Sample.graph "")
      [0%nat] 2 0 Sample.no_dirs
    = (Val (Some 0), Sample.no_dirs, t).
Proof.
  assert (H1 : 1 <= 2 <= CInt.INT_MAX) by (vm_compute; split; discriminate).
  assert (H2 : (Z.to_nat 2 <= 2)%nat) by (vm_compute; lia).
  split; [exact H1|]. split; [exact H2|].
  destruct (targets_depth_ends ToolSample.cycle 2 (Sample.graph "")
              [0%nat] 2 0 Sample.no_dirs H1 H2) as (t & Ht & _).
  exists t. exact Ht.
Defined.

Lemma PrintCommands_one_command_per_new_edge_witness :
  Tools.PrintCommands ToolSample.cycle 3 (Some 0%nat) ∅ Sample.no_dirs
  = (Val (Some {[ 0%nat; 1%nat ]}), Sample.no_dirs,
     [Stdout ("cp in out" +:+ nl)]) /\
  (length [Stdout ("cp in out" +:+ nl)] + size (∅ : gset EdgeP)
   <= size ({[ 0%nat; 1%nat ]} : gset EdgeP))%nat.
Proof.
  assert (H : Tools.PrintCommands ToolSample.cycle 3 (Some 0%nat) ∅
                Sample.no_dirs
              = (Val (Some {[ 0%nat; 1%nat ]}), Sample.no_dirs,
                 [Stdout ("cp in out" +:+ nl)])) by reflexivity.
  split; [exact H|].
  destruct (PrintCommands_one_command_per_new_edge ToolSample.cycle 3
              (Some 0%nat) ∅ Sample.no_dirs {[ 0%nat; 1%nat ]}
              Sample.no_dirs [Stdout ("cp in out" +:+ nl)] H)
    as (_ & _ & Hl & _).
  exact Hl.
Defined.

Lemma cycle_closed_under_inputs :
  Tools.closed_under_inputs ToolSample.cycle {[ 0%nat; 1%nat ]}.
Proof.
  intros e input e' _ _ H.
  destruct input as [|[|input]]; cbn in H; [| |discriminate H];
    injection H as <-.
  - apply elem_of_union_l, elem_of_singleton. reflexivity.
  - apply elem_of_union_r, elem_of_singleton. reflexivity.
Defined.

Lemma PrintCommands_ends_on_a_finite_graph_witness :
  Tools.closed_under_inputs ToolSample.cycle {[ 0%nat; 1%nat ]} /\
  (forall e, Some 0%nat = Some e -> e ∈ ({[ 0%nat; 1%nat ]} : gset EdgeP)) /\
  (size (({[ 0%nat; 1%nat ]} : gset EdgeP) ∖ ∅) < 3)%nat /\
  exists seen' t,
    Tools.PrintCommands ToolSample.cycle 3 (Some 0%nat) ∅ Sample.no_dirs
    = (Val (Some seen'), Sample.no_dirs, t).
Proof.
  assert (H2 : forall e, Some 0%nat = Some e ->
                         e ∈ ({[ 0%nat; 1%nat ]} : gset EdgeP)).
  { intros e H. injection H as <-.
    apply elem_of_union_l, elem_of_singleton. reflexivity. }
  assert (H3 : (size (({[ 0%nat; 1%nat ]} : gset EdgeP) ∖ ∅) < 3)%nat)
    by (vm_compute; lia).
  split; [exact cycle_closed_under_inputs|]. split; [exact H2|].
  split; [exact H3|].
  destruct (PrintCommands_ends_on_a_finite_graph ToolSample.cycle
              {[ 0%nat; 1%nat ]} 3 (Some 0%nat) ∅ Sample.no_dirs
              cycle_closed_under_inputs H2 H3) as (seen' & t & H & _).
  exists seen', t. exact H.
Defined.

Lemma ToolCommands_each_command_once_at_most_witness :
  (forall n e, in_edge ToolSample.cycle n = Some e ->
               e ∈ ({[ 0%nat; 1%nat ]} : gset EdgeP)) /\
  (size ({[ 0%nat; 1%nat ]} : gset EdgeP) < 3)%nat /\
  exists r t,
    Tools.ToolCommands Sample.quiet_env ToolSample.cycle 3
      (globals (Sample.locals "" "commands" ["foo.o"])) ["foo.o"]
      Sample.no_dirs = (r, Sample.no_dirs, t) /\
    match r with
    | Val (Some status) =>
        (status = 0 /\ (length t <= 2)%nat) \/
        (status = 1 /\ exists err, t = [EvError err])
    | Val None => False
    | Exit c => c = 1
    end.
Proof.
  assert (H1 : forall n e, in_edge ToolSample.cycle n = Some e ->
                           e ∈ ({[ 0%nat; 1%nat ]} : gset EdgeP)).
  { intros n e H.
    destruct n as [|[|n]]; cbn in H; [| |discriminate H];
      injection H as <-.
    - apply elem_of_union_l, elem_of_singleton. reflexivity.
    - apply elem_of_union_r, elem_of_singleton. reflexivity. }
  assert (H2 : (size ({[ 0%nat; 1%nat ]} : gset EdgeP) < 3)%nat)
    by (vm_compute; lia).
  split; [exact H1|]. split; [exact H2|].
  exact (ToolCommands_each_command_once_at_most Sample.quiet_env
           ToolSample.cycle {[ 0%nat; 1%nat ]} 3
           (globals (Sample.locals "" "commands" ["foo.o"])) ["foo.o"]
           Sample.no_dirs H1 H2).
Defined.

Lemma ToolClean_bad_option_cleans_nothing_witness :
  calls (getopt ToolSample.tenv ("clean" :: ["-g"; "-x"; "foo"]) "hgr")
  = ([Getopt.mk_ret (char "g") "" ["-x"; "foo"]] ++
     Getopt.mk_ret (char "?") "" ["foo"] :: [])%list /\
  Forall (fun r => ret_opt r = char "g" \/ ret_opt r = char "r")
    [Getopt.mk_ret (char "g") "" ["-x"; "foo"]] /\
  Tools.ToolClean ToolSample.tenv "clean"
    (globals (Sample.locals "" "clean" ["-g"; "-x"; "foo"]))
    ["-g"; "-x"; "foo"] Sample.no_dirs
  = (Val 1, Sample.no_dirs, [Stdout Tools.clean_usage]).
Proof.
  pose (pre := [Getopt.mk_ret (char "g") "" ["-x"; "foo"]]).
  pose (c := Getopt.mk_ret (char "?") "" ["foo"]).
  assert (H1 : calls (getopt ToolSample.tenv
                        ("clean" :: ["-g"; "-x"; "foo"]) "hgr")
               = (pre ++ c :: [])%list) by reflexivity.
  assert (H2 : Forall (fun r => ret_opt r = char "g" \/
                                ret_opt r = char "r") pre)
    by (repeat constructor).
  assert (H3 : ret_opt c <> -1) by discriminate.
  assert (H4 : ret_opt c <> char "g") by discriminate.
  assert (H5 : ret_opt c <> char "r") by discriminate.
  split; [exact H1|]. split; [exact H2|].
  exact (ToolClean_bad_option_cleans_nothing ToolSample.tenv "clean"
           (globals (Sample.locals "" "clean" ["-g"; "-x"; "foo"]))
           ["-g"; "-x"; "foo"] Sample.no_dirs pre c [] H1 H2 H3 H4 H5).
Defined.

Lemma ToolClean_cleans_what_the_options_say_witness :
  getopt ToolSample.tenv ("clean" :: ["-r"; "-g"; "cc"]) "hgr"
  = {| calls := [Getopt.mk_ret (char "r") "" ["-g"; "cc"];
                 Getopt.mk_ret (char "g") "" ["cc"]];
       end_rest := ["cc"] |} /\
  Forall (fun r => ret_opt r = char "g" \/ ret_opt r = char "r")
    [Getopt.mk_ret (char "r") "" ["-g"; "cc"];
     Getopt.mk_ret (char "g") "" ["cc"]] /\
  Tools.ToolClean ToolSample.tenv "clean"
    (globals (Sample.locals "" "clean" ["-r"; "-g"; "cc"]))
    ["-r"; "-g"; "cc"] Sample.no_dirs
  = (Val 0, Sample.no_dirs, [EvTool "Cleaner::CleanRules" ["cc"]]).
Proof.
  pose (run := {| calls := [Getopt.mk_ret (char "r") "" ["-g"; "cc"];
                            Getopt.mk_ret (char "g") "" ["cc"]];
                  end_rest := ["cc"] |}).
  assert (H1 : getopt ToolSample.tenv ("clean" :: ["-r"; "-g"; "cc"]) "hgr"
               = run) by reflexivity.
  assert (H2 : Forall (fun r => ret_opt r = char "g" \/
                                ret_opt r = char "r") (calls run)).
  { constructor; [right; reflexivity|].
    constructor; [left; reflexivity|]. constructor. }
  split; [exact H1|]. split; [exact H2|].
  rewrite (ToolClean_cleans_what_the_options_say ToolSample.tenv "clean"
             (globals (Sample.locals "" "clean" ["-r"; "-g"; "cc"]))
             ["-r"; "-g"; "cc"] run H1 H2).
  reflexivity.
Defined.

Lemma ToolTargets_status_witness :
  (forall d, Tools.targets_mode ["depth"; "2"] = Tools.DepthList d ->
             1 <= d /\ (Z.to_nat d <= 2)%nat) /\
  exists status t,
    Tools.ToolTargets ToolSample.tenv ToolSample.graph 2
      (globals (Sample.locals "" "targets" ["depth"; "2"])) ["depth"; "2"]
      Sample.no_dirs = (Val (Some status), Sample.no_dirs, t) /\
    (status = 0 \/ status = 1).
Proof.
  assert (H : forall d, Tools.targets_mode ["depth"; "2"]
                        = Tools.DepthList d ->
                        1 <= d /\ (Z.to_nat d <= 2)%nat).
  { intros d Hd. vm_compute in Hd. injection Hd as <-.
    split; [discriminate | vm_compute; lia]. }
  split; [exact H|].
  destruct (ToolTargets_status ToolSample.tenv ToolSample.graph 2
              (globals (Sample.locals "" "targets" ["depth"; "2"]))
              ["depth"; "2"] Sample.no_dirs H) as (status & t & Ht & H01 & _).
  exists status, t. split; [exact Ht | exact H01].
Defined.
